(** * UI smoke runner: failure classification, navigation fallback and
      conclusion policy

    A shallow embedding of the Playwright smoke orchestrator
    ([playwright/ui-smoke.mjs]) and of the preflight probe
    ([playwright/preflight.mjs]).

    Modelling conventions.
    - A JavaScript string is the list of its UTF-16 code units ([jsstring]).
      Labels that the program only ever writes as literals and compares with
      [===] (statuses, classifications) are Rocq strings.
    - Regular expressions are run by a continuation-passing backtracking
      matcher, the shape ECMAScript gives to its own pattern semantics; it is
      proved equivalent to the usual language of the expression.
    - Awaited calls into the automation engine are answered by a [World]:
      for each such call it says whether the promise resolves or with which
      value it rejects; the polling of a host alias is one answer, reachable
      or not.  Time stamps, sleeps and artifact paths carry no control flow
      and are left out.  The calls the script makes outside any handler and
      does not expect to fail (creating the artifact directory, writing
      [diagnostics.json] and the server log, spawning the server and the
      install command, resolving executable paths) are taken to succeed.
    - [process.exitCode] is the field [processExitCode] of the state, as
      [conclude] assigns it.  The status the process exits with is
      [exitStatus]: the script ends with [await main()] and nothing handles
      a rejection of [main], so a run in which [main] rejects exits with
      status 1 whatever [process.exitCode] holds.
    - [try]/[catch]/[finally] are combinators of a state-and-exception monad;
      an early [return] inside a block is written as the other branch of the
      conditional that guards the rest of the block. *)

From Stdlib Require Import List Bool NArith ZArith String Ascii DecimalString
  Lia.
Import ListNotations.

Set Implicit Arguments.

(** ** JavaScript strings *)

Definition jsstring := list N.

Fixpoint cu (s : string) : jsstring :=
  match s with
  | EmptyString => []
  | String a rest => N_of_ascii a :: cu rest
  end.

Definition jsstring_eqb (a b : jsstring) : bool :=
  if list_eq_dec N.eq_dec a b then true else false.

(** ** Regular expressions *)

Module Regex.

(** Canonicalisation of the [i] flag (no [u] flag): a code unit is mapped to
    its upper-case form; a non-ASCII unit never canonicalises to an ASCII
    one, so against the ASCII patterns of the program only the range a-z
    folds. *)
Definition canonicalize (c : N) : N :=
  if (97 <=? c)%N && (c <=? 122)%N then (c - 32)%N else c.

Definition ciEq (p x : N) : bool := (canonicalize x =? canonicalize p)%N.

(** Line terminators, which [.] does not match: LF, CR, U+2028, U+2029. *)
Definition lineTerminator (c : N) : bool :=
  (c =? 10)%N || (c =? 13)%N || (c =? 8232)%N || (c =? 8233)%N.

(** The fragment of pattern syntax the program uses: literal characters,
    concatenation, alternation and [.*]. *)
Inductive regex : Type :=
| Eps : regex
| Chr : N -> regex
| AnyStar : regex
| Seq : regex -> regex -> regex
| Alt : regex -> regex -> regex.

Fixpoint litUnits (p : jsstring) : regex :=
  match p with
  | [] => Eps
  | c :: rest => Seq (Chr c) (litUnits rest)
  end.

Definition lit (p : string) : regex := litUnits (cu p).

(** [accept r s k]: some prefix of [s] matches [r] and the continuation
    accepts what is left. *)
Fixpoint accept (r : regex) (s : jsstring) (k : jsstring -> bool) : bool :=
  match r with
  | Eps => k s
  | Chr c => match s with
             | x :: s' => ciEq c x && k s'
             | [] => false
             end
  | AnyStar =>
      (fix star (t : jsstring) : bool :=
         k t || match t with
                | x :: t' => negb (lineTerminator x) && star t'
                | [] => false
                end) s
  | Seq a b => accept a s (fun s' => accept b s' k)
  | Alt a b => accept a s k || accept b s k
  end.

(** [RegExp.prototype.test] for a pattern without [g] or [y]: a match may
    start at any index. *)
Fixpoint test (r : regex) (s : jsstring) : bool :=
  accept r s (fun _ => true)
  || match s with
     | [] => false
     | _ :: s' => test r s'
     end.

(** The language of a pattern, independently of the matcher. *)
Inductive lang : regex -> jsstring -> Prop :=
| LEps : lang Eps []
| LChr : forall c x, ciEq c x = true -> lang (Chr c) [x]
| LAnyStar : forall s, forallb (fun x => negb (lineTerminator x)) s = true ->
                       lang AnyStar s
| LSeq : forall a b s1 s2, lang a s1 -> lang b s2 -> lang (Seq a b) (s1 ++ s2)
| LAltL : forall a b s, lang a s -> lang (Alt a b) s
| LAltR : forall a b s, lang b s -> lang (Alt a b) s.

(** A text matches a pattern when one of its substrings is in the language. *)
Definition Matches (r : regex) (s : jsstring) : Prop :=
  exists pre mid suf, s = pre ++ mid ++ suf /\ lang r mid.

End Regex.
Import Regex.

(** ** JavaScript values *)

(** The values an error handler can be handed.  An object is described by
    what the program reads from it: the data properties [stack], [message]
    and [code], and the outcome of converting it to a string ([None] when the
    conversion throws a TypeError, as for an object without a prototype).
    Numbers are the integers of magnitude below 10^21, which [String]
    prints digit by digit; larger numbers (printed with an exponent),
    fractions, NaN and the infinities, and symbols, bigints and accessor
    properties are not represented. *)
Inductive JsValue : Type :=
| JUndefined : JsValue
| JNull : JsValue
| JBool : bool -> JsValue
| JNum : Z -> JsValue
| JStr : jsstring -> JsValue
| JObj : JsValue -> JsValue -> JsValue -> option jsstring -> JsValue.

Module Js.

Definition truthy (v : JsValue) : bool :=
  match v with
  | JUndefined | JNull => false
  | JBool b => b
  | JNum z => negb (z =? 0)%Z
  | JStr s => match s with [] => false | _ => true end
  | JObj _ _ _ _ => true
  end.

(** [v?.stack], [v?.message] and [v?.code]: undefined on null and undefined,
    and on primitives, whose prototypes have no such property. *)
Definition optStack (v : JsValue) : JsValue :=
  match v with JObj st _ _ _ => st | _ => JUndefined end.
Definition optMessage (v : JsValue) : JsValue :=
  match v with JObj _ m _ _ => m | _ => JUndefined end.
Definition optCode (v : JsValue) : JsValue :=
  match v with JObj _ _ c _ => c | _ => JUndefined end.

(** [a || b]. *)
Definition or_ (a b : JsValue) : JsValue := if truthy a then a else b.

(** [String(v)]; [None] stands for a thrown TypeError. *)
Definition toString (v : JsValue) : option jsstring :=
  match v with
  | JUndefined => Some (cu "undefined")
  | JNull => Some (cu "null")
  | JBool true => Some (cu "true")
  | JBool false => Some (cu "false")
  | JNum z => Some (cu (NilZero.string_of_int (Z.to_int z)))
  | JStr s => Some s
  | JObj _ _ _ str => str
  end.

(** [a === b] against a string literal. *)
Definition strictEqStr (v : JsValue) (lit : string) : bool :=
  match v with
  | JStr s => jsstring_eqb s (cu lit)
  | _ => false
  end.

(** [new Error(message)] as V8 builds it: the stack starts with the header
    [name: message], followed by the frames of the call site. *)
Definition newError (name message : string) (frames : jsstring) : JsValue :=
  JObj (JStr (cu name ++ cu ": " ++ cu message ++ frames))
       (JStr (cu message))
       JUndefined
       (Some (cu name ++ cu ": " ++ cu message)).

End Js.

(** ** The classifiers of the orchestrator *)

Module UiSmokeText.

(** [errorText]: [String(error?.stack || error?.message || error || '')]. *)
Definition errorText (error : JsValue) : option jsstring :=
  Js.toString
    (Js.or_ (Js.optStack error)
       (Js.or_ (Js.optMessage error) (Js.or_ error (JStr [])))).

Definition missingPlaywrightRe : regex := lit "Cannot find package 'playwright'".

Definition missingBrowserBinaryRe : regex :=
  Alt (lit "Executable doesn't exist")
 (Alt (lit "please run the following command to download new browsers")
 (Alt (lit "browserType.launch: Executable")
 (Alt (lit "browser not found")
      (Seq (lit "No such file or directory") (Seq AnyStar (lit "playwright")))))).

Definition connectivityRe : regex :=
  Alt (lit "ERR_EMPTY_RESPONSE")
 (Alt (lit "ERR_CONNECTION")
 (Alt (lit "ECONNREFUSED")
      (lit "Navigation timeout"))).

Definition runtimeRe : regex :=
  Alt (lit "TargetClosedError")
 (Alt (lit "BrowserType.launch")
 (Alt (lit "crash")
 (Alt (lit "SIGSEGV")
      (lit "Connection terminated unexpectedly")))).

Definition httpReachabilityRe : regex :=
  Alt (lit "ERR_EMPTY_RESPONSE")
 (Alt (lit "ERR_CONNECTION")
 (Alt (lit "ECONNREFUSED")
 (Alt (lit "Connection terminated unexpectedly")
      (lit "Navigation timeout")))).

Definition isMissingPlaywrightError (error : JsValue) : option bool :=
  match errorText error with
  | None => None
  | Some text =>
      Some (Js.strictEqStr (Js.optCode error) "ERR_MODULE_NOT_FOUND"
            || test missingPlaywrightRe text)
  end.

Definition isMissingBrowserBinaryError (error : JsValue) : option bool :=
  match errorText error with
  | None => None
  | Some text => Some (test missingBrowserBinaryRe text)
  end.

Definition classifyFailure (error : JsValue) : option string :=
  match errorText error with
  | None => None
  | Some text =>
      match isMissingBrowserBinaryError error with
      | None => None
      | Some true => Some "binary-installation-failure"%string
      | Some false =>
          if test connectivityRe text then Some "connectivity-failure"%string
          else if test runtimeRe text then Some "browser-runtime-failure"%string
          else Some "application-failure"%string
      end
  end.

Definition isHttpReachabilityError (error : JsValue) : option bool :=
  match errorText error with
  | None => None
  | Some text => Some (test httpReachabilityRe text)
  end.

End UiSmokeText.

(** ** The classifier of the preflight probe *)

Module Preflight.

Definition textOf (error : JsValue) : option jsstring :=
  Js.toString
    (Js.or_ (Js.optStack error)
       (Js.or_ (Js.optMessage error) (Js.or_ error (JStr [])))).

Definition missingBrowserBinaryRe : regex :=
  Alt (lit "Executable doesn't exist")
 (Alt (lit "browserType.launch: Executable")
 (Alt (lit "please run the following command to download new browsers")
 (Alt (lit "browser not found")
      (lit "failed to launch browser process")))).

Definition connectivityRe : regex :=
  Alt (lit "ECONNREFUSED")
 (Alt (lit "ERR_CONNECTION")
 (Alt (lit "ERR_EMPTY_RESPONSE")
      (lit "Navigation timeout"))).

Definition runtimeRe : regex :=
  Alt (lit "TargetClosedError")
 (Alt (lit "has been closed")
 (Alt (lit "crash")
      (lit "SIGSEGV"))).

Definition looksLikeMissingBrowserBinary (error : JsValue) : option bool :=
  match textOf error with
  | None => None
  | Some text => Some (test missingBrowserBinaryRe text)
  end.

Definition classifyBrowserLaunchError (error : JsValue) : option string :=
  match looksLikeMissingBrowserBinary error with
  | None => None
  | Some true => Some "binary-installation-failure"%string
  | Some false =>
      match textOf error with
      | None => None
      | Some text =>
          if test connectivityRe text then Some "connectivity-failure"%string
          else if test runtimeRe text then Some "browser-runtime-failure"%string
          else Some "unknown-browser-failure"%string
      end
  end.

End Preflight.

Import UiSmokeText.

(** ** Completions and the state-and-exception monad *)

(** What an awaited call into a collaborator does. *)
Inductive Outcome : Type :=
| Resolves : Outcome
| Rejects : JsValue -> Outcome.

Inductive Completion (A : Type) : Type :=
| Normal : A -> Completion A
| Throw : JsValue -> Completion A.
Arguments Normal {A} _.
Arguments Throw {A} _.

Definition M (S A : Type) : Type := S -> Completion A * S.

Definition ret {S A} (a : A) : M S A := fun s => (Normal a, s).

Definition throw {S A} (e : JsValue) : M S A := fun s => (Throw e, s).

Definition bind {S A B} (m : M S A) (f : A -> M S B) : M S B :=
  fun s => match m s with
           | (Normal a, s') => f a s'
           | (Throw e, s') => (Throw e, s')
           end.

Definition get {S} : M S S := fun s => (Normal s, s).

Definition modify {S} (f : S -> S) : M S unit := fun s => (Normal tt, f s).

(** [try { m } catch (error) { h error }]. *)
Definition tryCatch {S A} (m : M S A) (h : JsValue -> M S A) : M S A :=
  fun s => match m s with
           | (Normal a, s') => (Normal a, s')
           | (Throw e, s') => h e s'
           end.

(** [try { m } finally { f }]: [f] always runs; when it throws, its
    exception replaces the completion of [m]. *)
Definition finally {S A} (m : M S A) (f : M S unit) : M S A :=
  fun s => match m s with
           | (c, s') => match f s' with
                        | (Normal _, s'') => (c, s'')
                        | (Throw e, s'') => (Throw e, s'')
                        end
           end.

(** [await p]. *)
Definition await {S} (o : Outcome) : M S unit :=
  match o with
  | Resolves => ret tt
  | Rejects e => throw e
  end.

Declare Scope js_scope.
Delimit Scope js_scope with js.
Notation "x <- m ;; k" := (bind m (fun x => k))
  (at level 100, m at next level, right associativity) : js_scope.
Notation "m ;; k" := (bind m (fun _ => k))
  (at level 100, right associativity) : js_scope.
Open Scope js_scope.

(** ** The orchestrator *)

Module UiSmoke.

Inductive Strategy : Type := HTTP | FILE | INLINE.

Inductive BrowserName : Type := chromium | webkit.

(** An entry of [diagnostics.navigationFallbacks]. *)
Record Fallback : Type := mkFallback {
  from : Strategy;
  to : Strategy;
  reason : jsstring
}.

(** [diagnostics.installAttempt]: whether the install command exited with
    status 0 and whether its output looked like a blocked download. *)
Record InstallAttempt : Type := mkInstallAttempt {
  statusOk : bool;
  blocked : bool
}.

(** The diagnostics record, with the fields that carry state of the run
    (time stamps, artifact paths, instruction texts and the page event logs
    are left out). *)
Record Diagnostics : Type := mkDiagnostics {
  navigationAttempts : list (jsstring * nat);
  navigationErrors : list (nat * jsstring);
  navigationStrategyAttempts : list (Strategy * jsstring);
  navigationFallbacks : list Fallback;
  navigationStrategyUsed : option Strategy;
  navigationHttpOptIn : option bool;
  browserAttempts : list BrowserName;
  browserLaunchErrors : list (BrowserName * jsstring);
  browserUsed : option BrowserName;
  binaryChecks : option (list (BrowserName * bool));
  installAttempt : option InstallAttempt;
  serverSelectedHost : option (option jsstring);
  baseUrl : option jsstring;
  sanityScreenshot : bool;
  screenshot : bool;
  trace : bool;
  error : option jsstring;
  classification : string;
  result : string;
  ci : bool;
  strict : bool;
  envSkipBrowserDownload : bool
}.

Definition set_navigationAttempts (v : list (jsstring * nat)) (d : Diagnostics) : Diagnostics :=
  mkDiagnostics v (navigationErrors d) (navigationStrategyAttempts d)
    (navigationFallbacks d) (navigationStrategyUsed d) (navigationHttpOptIn
    d) (browserAttempts d) (browserLaunchErrors d) (browserUsed d)
    (binaryChecks d) (installAttempt d) (serverSelectedHost d) (baseUrl d)
    (sanityScreenshot d) (screenshot d) (trace d) (error d) (classification
    d) (result d) (ci d) (strict d) (envSkipBrowserDownload d).

Definition set_navigationErrors (v : list (nat * jsstring)) (d : Diagnostics) : Diagnostics :=
  mkDiagnostics (navigationAttempts d) v (navigationStrategyAttempts d)
    (navigationFallbacks d) (navigationStrategyUsed d) (navigationHttpOptIn
    d) (browserAttempts d) (browserLaunchErrors d) (browserUsed d)
    (binaryChecks d) (installAttempt d) (serverSelectedHost d) (baseUrl d)
    (sanityScreenshot d) (screenshot d) (trace d) (error d) (classification
    d) (result d) (ci d) (strict d) (envSkipBrowserDownload d).

Definition set_navigationStrategyAttempts (v : list (Strategy * jsstring)) (d : Diagnostics) : Diagnostics :=
  mkDiagnostics (navigationAttempts d) (navigationErrors d) v
    (navigationFallbacks d) (navigationStrategyUsed d) (navigationHttpOptIn
    d) (browserAttempts d) (browserLaunchErrors d) (browserUsed d)
    (binaryChecks d) (installAttempt d) (serverSelectedHost d) (baseUrl d)
    (sanityScreenshot d) (screenshot d) (trace d) (error d) (classification
    d) (result d) (ci d) (strict d) (envSkipBrowserDownload d).

Definition set_navigationFallbacks (v : list Fallback) (d : Diagnostics) : Diagnostics :=
  mkDiagnostics (navigationAttempts d) (navigationErrors d)
    (navigationStrategyAttempts d) v (navigationStrategyUsed d)
    (navigationHttpOptIn d) (browserAttempts d) (browserLaunchErrors d)
    (browserUsed d) (binaryChecks d) (installAttempt d) (serverSelectedHost
    d) (baseUrl d) (sanityScreenshot d) (screenshot d) (trace d) (error d)
    (classification d) (result d) (ci d) (strict d) (envSkipBrowserDownload
    d).

Definition set_navigationStrategyUsed (v : option Strategy) (d : Diagnostics) : Diagnostics :=
  mkDiagnostics (navigationAttempts d) (navigationErrors d)
    (navigationStrategyAttempts d) (navigationFallbacks d) v
    (navigationHttpOptIn d) (browserAttempts d) (browserLaunchErrors d)
    (browserUsed d) (binaryChecks d) (installAttempt d) (serverSelectedHost
    d) (baseUrl d) (sanityScreenshot d) (screenshot d) (trace d) (error d)
    (classification d) (result d) (ci d) (strict d) (envSkipBrowserDownload
    d).

Definition set_navigationHttpOptIn (v : option bool) (d : Diagnostics) : Diagnostics :=
  mkDiagnostics (navigationAttempts d) (navigationErrors d)
    (navigationStrategyAttempts d) (navigationFallbacks d)
    (navigationStrategyUsed d) v (browserAttempts d) (browserLaunchErrors d)
    (browserUsed d) (binaryChecks d) (installAttempt d) (serverSelectedHost
    d) (baseUrl d) (sanityScreenshot d) (screenshot d) (trace d) (error d)
    (classification d) (result d) (ci d) (strict d) (envSkipBrowserDownload
    d).

Definition set_browserAttempts (v : list BrowserName) (d : Diagnostics) : Diagnostics :=
  mkDiagnostics (navigationAttempts d) (navigationErrors d)
    (navigationStrategyAttempts d) (navigationFallbacks d)
    (navigationStrategyUsed d) (navigationHttpOptIn d) v (browserLaunchErrors
    d) (browserUsed d) (binaryChecks d) (installAttempt d)
    (serverSelectedHost d) (baseUrl d) (sanityScreenshot d) (screenshot d)
    (trace d) (error d) (classification d) (result d) (ci d) (strict d)
    (envSkipBrowserDownload d).

Definition set_browserLaunchErrors (v : list (BrowserName * jsstring)) (d : Diagnostics) : Diagnostics :=
  mkDiagnostics (navigationAttempts d) (navigationErrors d)
    (navigationStrategyAttempts d) (navigationFallbacks d)
    (navigationStrategyUsed d) (navigationHttpOptIn d) (browserAttempts d) v
    (browserUsed d) (binaryChecks d) (installAttempt d) (serverSelectedHost
    d) (baseUrl d) (sanityScreenshot d) (screenshot d) (trace d) (error d)
    (classification d) (result d) (ci d) (strict d) (envSkipBrowserDownload
    d).

Definition set_browserUsed (v : option BrowserName) (d : Diagnostics) : Diagnostics :=
  mkDiagnostics (navigationAttempts d) (navigationErrors d)
    (navigationStrategyAttempts d) (navigationFallbacks d)
    (navigationStrategyUsed d) (navigationHttpOptIn d) (browserAttempts d)
    (browserLaunchErrors d) v (binaryChecks d) (installAttempt d)
    (serverSelectedHost d) (baseUrl d) (sanityScreenshot d) (screenshot d)
    (trace d) (error d) (classification d) (result d) (ci d) (strict d)
    (envSkipBrowserDownload d).

Definition set_binaryChecks (v : option (list (BrowserName * bool))) (d : Diagnostics) : Diagnostics :=
  mkDiagnostics (navigationAttempts d) (navigationErrors d)
    (navigationStrategyAttempts d) (navigationFallbacks d)
    (navigationStrategyUsed d) (navigationHttpOptIn d) (browserAttempts d)
    (browserLaunchErrors d) (browserUsed d) v (installAttempt d)
    (serverSelectedHost d) (baseUrl d) (sanityScreenshot d) (screenshot d)
    (trace d) (error d) (classification d) (result d) (ci d) (strict d)
    (envSkipBrowserDownload d).

Definition set_installAttempt (v : option InstallAttempt) (d : Diagnostics) : Diagnostics :=
  mkDiagnostics (navigationAttempts d) (navigationErrors d)
    (navigationStrategyAttempts d) (navigationFallbacks d)
    (navigationStrategyUsed d) (navigationHttpOptIn d) (browserAttempts d)
    (browserLaunchErrors d) (browserUsed d) (binaryChecks d) v
    (serverSelectedHost d) (baseUrl d) (sanityScreenshot d) (screenshot d)
    (trace d) (error d) (classification d) (result d) (ci d) (strict d)
    (envSkipBrowserDownload d).

Definition set_serverSelectedHost (v : option (option jsstring)) (d : Diagnostics) : Diagnostics :=
  mkDiagnostics (navigationAttempts d) (navigationErrors d)
    (navigationStrategyAttempts d) (navigationFallbacks d)
    (navigationStrategyUsed d) (navigationHttpOptIn d) (browserAttempts d)
    (browserLaunchErrors d) (browserUsed d) (binaryChecks d) (installAttempt
    d) v (baseUrl d) (sanityScreenshot d) (screenshot d) (trace d) (error d)
    (classification d) (result d) (ci d) (strict d) (envSkipBrowserDownload
    d).

Definition set_baseUrl (v : option jsstring) (d : Diagnostics) : Diagnostics :=
  mkDiagnostics (navigationAttempts d) (navigationErrors d)
    (navigationStrategyAttempts d) (navigationFallbacks d)
    (navigationStrategyUsed d) (navigationHttpOptIn d) (browserAttempts d)
    (browserLaunchErrors d) (browserUsed d) (binaryChecks d) (installAttempt
    d) (serverSelectedHost d) v (sanityScreenshot d) (screenshot d) (trace d)
    (error d) (classification d) (result d) (ci d) (strict d)
    (envSkipBrowserDownload d).

Definition set_sanityScreenshot (v : bool) (d : Diagnostics) : Diagnostics :=
  mkDiagnostics (navigationAttempts d) (navigationErrors d)
    (navigationStrategyAttempts d) (navigationFallbacks d)
    (navigationStrategyUsed d) (navigationHttpOptIn d) (browserAttempts d)
    (browserLaunchErrors d) (browserUsed d) (binaryChecks d) (installAttempt
    d) (serverSelectedHost d) (baseUrl d) v (screenshot d) (trace d) (error
    d) (classification d) (result d) (ci d) (strict d)
    (envSkipBrowserDownload d).

Definition set_screenshot (v : bool) (d : Diagnostics) : Diagnostics :=
  mkDiagnostics (navigationAttempts d) (navigationErrors d)
    (navigationStrategyAttempts d) (navigationFallbacks d)
    (navigationStrategyUsed d) (navigationHttpOptIn d) (browserAttempts d)
    (browserLaunchErrors d) (browserUsed d) (binaryChecks d) (installAttempt
    d) (serverSelectedHost d) (baseUrl d) (sanityScreenshot d) v (trace d)
    (error d) (classification d) (result d) (ci d) (strict d)
    (envSkipBrowserDownload d).

Definition set_trace (v : bool) (d : Diagnostics) : Diagnostics :=
  mkDiagnostics (navigationAttempts d) (navigationErrors d)
    (navigationStrategyAttempts d) (navigationFallbacks d)
    (navigationStrategyUsed d) (navigationHttpOptIn d) (browserAttempts d)
    (browserLaunchErrors d) (browserUsed d) (binaryChecks d) (installAttempt
    d) (serverSelectedHost d) (baseUrl d) (sanityScreenshot d) (screenshot d)
    v (error d) (classification d) (result d) (ci d) (strict d)
    (envSkipBrowserDownload d).

Definition set_error (v : option jsstring) (d : Diagnostics) : Diagnostics :=
  mkDiagnostics (navigationAttempts d) (navigationErrors d)
    (navigationStrategyAttempts d) (navigationFallbacks d)
    (navigationStrategyUsed d) (navigationHttpOptIn d) (browserAttempts d)
    (browserLaunchErrors d) (browserUsed d) (binaryChecks d) (installAttempt
    d) (serverSelectedHost d) (baseUrl d) (sanityScreenshot d) (screenshot d)
    (trace d) v (classification d) (result d) (ci d) (strict d)
    (envSkipBrowserDownload d).

Definition set_classification (v : string) (d : Diagnostics) : Diagnostics :=
  mkDiagnostics (navigationAttempts d) (navigationErrors d)
    (navigationStrategyAttempts d) (navigationFallbacks d)
    (navigationStrategyUsed d) (navigationHttpOptIn d) (browserAttempts d)
    (browserLaunchErrors d) (browserUsed d) (binaryChecks d) (installAttempt
    d) (serverSelectedHost d) (baseUrl d) (sanityScreenshot d) (screenshot d)
    (trace d) (error d) v (result d) (ci d) (strict d)
    (envSkipBrowserDownload d).

Definition set_result (v : string) (d : Diagnostics) : Diagnostics :=
  mkDiagnostics (navigationAttempts d) (navigationErrors d)
    (navigationStrategyAttempts d) (navigationFallbacks d)
    (navigationStrategyUsed d) (navigationHttpOptIn d) (browserAttempts d)
    (browserLaunchErrors d) (browserUsed d) (binaryChecks d) (installAttempt
    d) (serverSelectedHost d) (baseUrl d) (sanityScreenshot d) (screenshot d)
    (trace d) (error d) (classification d) v (ci d) (strict d)
    (envSkipBrowserDownload d).

(** Call sites of [errorText], each with its own stack frames should the
    conversion throw. *)
Inductive Site : Type :=
| SiteResolve | SiteGoto | SiteHttpFallback | SiteFileFallback | SiteLaunch
| SiteApp | SiteHandler.

(** The [details] object of the summary line, one constructor per call site
    of [conclude]. *)
Inductive Details : Type :=
| DPackageMissing : Details
| DSkipPolicy : option InstallAttempt -> list BrowserName -> Details
| DInstallBlocked :
    option InstallAttempt -> list BrowserName -> bool -> bool -> Details
| DCiWarnOnly : option InstallAttempt -> list BrowserName -> Details
| DInstallFailed : option InstallAttempt -> list BrowserName -> Details
| DCiWarnOnlyAfterInstall : list BrowserName -> Details
| DStillMissing : list BrowserName -> Details
| DLaunchFailed : list (BrowserName * jsstring) -> Details
| DPassed : option Strategy -> Details
| DBestEffortSkip : string -> option jsstring -> bool -> Details
| DTestFailure : jsstring -> string -> Details
| DFinalizeNote : Details.

(** The summary line [{ui_smoke, classification, action, details}]. *)
Record FinalLine : Type := mkFinalLine {
  ui_smoke : string;
  line_classification : string;
  action : string;
  details : Details
}.

Inductive StdoutLine : Type :=
| ScreenshotCreated : StdoutLine
| Summary : FinalLine -> StdoutLine.

(** The state [main] owns: the diagnostics record, its local [finalLine],
    [process.exitCode], the contents of [diagnostics.json] and standard
    output. *)
Record MainState : Type := mkMainState {
  diagnostics : Diagnostics;
  finalLine : option FinalLine;
  processExitCode : option nat;
  diagnosticsFile : option Diagnostics;
  stdout : list StdoutLine
}.

(** The environment of a run and the answers of its collaborators. *)
Record World : Type := mkWorld {
  env_UI_SMOKE_ALLOW_HTTP : option jsstring;
  env_PLAYWRIGHT_STRICT : option jsstring;
  env_PLAYWRIGHT_SKIP_BROWSER_DOWNLOAD : option jsstring;
  env_CI : option jsstring;
  portText : jsstring;
  fileUrl : jsstring;
  indexHtmlPath : jsstring;
  importPlaywright : Outcome;
  executableExists : nat -> BrowserName -> bool;
  installStatusOk : bool;
  installBlocked : bool;
  waitForServer : jsstring -> bool;
  launch : BrowserName -> Outcome;
  sanityRender : Outcome;
  sanityClose : Outcome;
  appSetup : Outcome;
  pageGoto : jsstring -> nat -> Outcome;
  readIndexHtml : Outcome;
  setContent : Outcome;
  settleBeforeClick : Outcome;
  click : Outcome;
  settleAfterClick : Outcome;
  takeScreenshot : Outcome;
  unreachableFrames : jsstring;
  conversionFrames : Site -> jsstring
}.

Definition D (A : Type) : Type := M Diagnostics A.
Definition Main (A : Type) : Type := M MainState A.

Definition liftD {A} (m : D A) : Main A :=
  fun st => match m (diagnostics st) with
            | (c, d) => (c, mkMainState d (finalLine st) (processExitCode st)
                                        (diagnosticsFile st) (stdout st))
            end.

(** [process.env.X === lit]. *)
Definition envIs (v : option jsstring) (lit : string) : bool :=
  match v with
  | Some s => jsstring_eqb s (cu lit)
  | None => false
  end.

(** Truthiness of [process.env.X]. *)
Definition envSet (v : option jsstring) : bool :=
  match v with
  | Some (_ :: _) => true
  | _ => false
  end.

Definition hosts : list jsstring := [cu "127.0.0.1"; cu "localhost"].

Definition disabledReason : jsstring :=
  cu "HTTP strategy disabled unless UI_SMOKE_ALLOW_HTTP=1 (default is file-safe mode for remote browser sandboxes).".

Definition summarizeMissingBrowsers (d : Diagnostics) : list BrowserName :=
  map fst
    (filter (fun row => negb (snd row))
       (match binaryChecks d with Some rows => rows | None => [] end)).

Section Run.

Variable w : World.

Definition conversionError (site : Site) : JsValue :=
  Js.newError "TypeError" "Cannot convert object to primitive value"
    (conversionFrames w site).

(** A call whose [errorText] may throw. *)
Definition orThrow {S A} (site : Site) (o : option A) : M S A :=
  match o with
  | Some a => ret a
  | None => throw (conversionError site)
  end.

Definition initialDiagnostics : Diagnostics :=
  {| navigationAttempts := [];
     navigationErrors := [];
     navigationStrategyAttempts := [];
     navigationFallbacks := [];
     navigationStrategyUsed := None;
     navigationHttpOptIn := None;
     browserAttempts := [];
     browserLaunchErrors := [];
     browserUsed := None;
     binaryChecks := None;
     installAttempt := None;
     serverSelectedHost := None;
     baseUrl := None;
     sanityScreenshot := false;
     screenshot := false;
     trace := false;
     error := None;
     classification := "unknown";
     result := "running";
     ci := envIs (env_CI w) "true";
     strict := envIs (env_PLAYWRIGHT_STRICT w) "1";
     envSkipBrowserDownload :=
       envIs (env_PLAYWRIGHT_SKIP_BROWSER_DOWNLOAD w) "1"
       || envIs (env_PLAYWRIGHT_SKIP_BROWSER_DOWNLOAD w) "true" |}.

Definition initialState : MainState :=
  mkMainState initialDiagnostics None None None [].

Definition startServer : D (option jsstring) :=
  let selectedHost :=
    fold_left
      (fun selected host =>
         if waitForServer w host
         then match selected with None => Some host | Some _ => selected end
         else selected)
      hosts None in
  modify (set_serverSelectedHost (Some selectedHost)) ;;
  ret selectedHost.

(** The loop of [gotoWithRetry] from iteration [i] with [remaining]
    iterations to go. *)
Fixpoint gotoWithRetryFrom (url : jsstring) (lastError : JsValue)
    (i remaining : nat) : D unit :=
  match remaining with
  | O => throw lastError
  | S remaining' =>
      step <-
        tryCatch
          (modify (fun d => set_navigationAttempts
                              (navigationAttempts d ++ [(url, i + 1)]) d) ;;
           await (pageGoto w url i) ;;
           ret None)
          (fun error =>
             text <- orThrow SiteGoto (errorText error) ;;
             modify (fun d => set_navigationErrors
                                (navigationErrors d ++ [(i + 1, text)]) d) ;;
             ret (Some error)) ;;
      match step with
      | None => ret tt
      | Some error => gotoWithRetryFrom url error (i + 1) remaining'
      end
  end.

Definition gotoWithRetry (url : jsstring) (attempts : nat) : D unit :=
  gotoWithRetryFrom url JNull 0 attempts.

Definition pushStrategyAttempt (s : Strategy) (target : jsstring) : D unit :=
  modify (fun d => set_navigationStrategyAttempts
                     (navigationStrategyAttempts d ++ [(s, target)]) d).

Definition pushFallback (f : Fallback) : D unit :=
  modify (fun d => set_navigationFallbacks (navigationFallbacks d ++ [f]) d).

Definition tryHttpStrategy (baseUrl : jsstring) : D unit :=
  pushStrategyAttempt HTTP baseUrl ;;
  gotoWithRetry baseUrl 3 ;;
  modify (set_navigationStrategyUsed (Some HTTP)).

Definition tryFileStrategy : D unit :=
  pushStrategyAttempt FILE (fileUrl w) ;;
  gotoWithRetry (fileUrl w) 2 ;;
  modify (set_navigationStrategyUsed (Some FILE)).

Definition tryInlineStrategy : D unit :=
  await (readIndexHtml w) ;;
  pushStrategyAttempt INLINE (indexHtmlPath w) ;;
  await (setContent w) ;;
  modify (set_navigationStrategyUsed (Some INLINE)).

Definition allowHttp : bool := envIs (env_UI_SMOKE_ALLOW_HTTP w) "1".

Definition navigateWithFallback (baseUrl : jsstring) : D unit :=
  modify (set_navigationHttpOptIn (Some allowHttp)) ;;
  returned <-
    (if allowHttp && Js.truthy (JStr baseUrl) then
       tryCatch
         (tryHttpStrategy baseUrl ;; ret true)
         (fun error =>
            text <- orThrow SiteHttpFallback (errorText error) ;;
            pushFallback (mkFallback HTTP FILE text) ;;
            reachability <-
              orThrow SiteHttpFallback (isHttpReachabilityError error) ;;
            if negb reachability then throw error else ret false)
     else
       pushFallback (mkFallback HTTP FILE disabledReason) ;;
       ret false) ;;
  if returned : bool then ret tt
  else
    tryCatch tryFileStrategy
      (fun error =>
         text <- orThrow SiteFileFallback (errorText error) ;;
         pushFallback (mkFallback FILE INLINE text) ;;
         tryInlineStrategy).

(** [resolvePlaywright]: [true] when the package loaded, [false] for the
    [null] it returns when the package is missing. *)
Definition resolvePlaywright : D bool :=
  match importPlaywright w with
  | Resolves => ret true
  | Rejects error =>
      missing <- orThrow SiteResolve (isMissingPlaywrightError error) ;;
      if missing : bool then
        modify (set_classification "binary-installation-failure") ;;
        modify (set_result "playwright-missing") ;;
        ret false
      else throw error
  end.

Definition targets : list BrowserName :=
  if envSet (env_CI w) then [chromium] else [chromium; webkit].

(** The [call]-th run of [detectBrowserExecutables]. *)
Definition detectBrowserExecutables (call : nat) : D bool :=
  let checks := map (fun name => (name, executableExists w call name)) targets in
  modify (set_binaryChecks (Some checks)) ;;
  ret (forallb (fun row => snd row) checks).

(** [runPlaywrightInstall], returning [(ok, blocked)]. *)
Definition runPlaywrightInstall : D (bool * bool) :=
  modify (set_installAttempt
            (Some (mkInstallAttempt (installStatusOk w) (installBlocked w)))) ;;
  ret (installStatusOk w, installBlocked w).

Fixpoint launchCandidates (candidates : list BrowserName)
    : D (option BrowserName) :=
  match candidates with
  | [] => ret None
  | candidate :: rest =>
      launched <-
        tryCatch
          (modify (fun d => set_browserAttempts
                              (browserAttempts d ++ [candidate]) d) ;;
           await (launch w candidate) ;;
           ret true)
          (fun error =>
             text <- orThrow SiteLaunch (errorText error) ;;
             modify (fun d => set_browserLaunchErrors
                                (browserLaunchErrors d ++ [(candidate, text)])
                                d) ;;
             missing <- orThrow SiteLaunch (isMissingBrowserBinaryError error) ;;
             (if missing : bool then
                modify (set_classification "binary-installation-failure") ;;
                modify (set_result "browser-binaries-missing")
              else ret tt) ;;
             ret false) ;;
      if launched : bool then ret (Some candidate)
      else launchCandidates rest
  end.

Definition launchBrowser : D (option BrowserName) := launchCandidates targets.

Definition runSanity : D unit :=
  await (sanityRender w) ;;
  modify (set_sanityScreenshot true) ;;
  await (sanityClose w).

Definition runAppScreenshot (baseUrl : jsstring) : D unit :=
  await (appSetup w) ;;
  finally
    (tryCatch
       (navigateWithFallback baseUrl ;;
        await (settleBeforeClick w) ;;
        await (click w) ;;
        await (settleAfterClick w) ;;
        await (takeScreenshot w) ;;
        modify (set_screenshot true))
       (fun error =>
          text <- orThrow SiteApp (errorText error) ;;
          modify (set_error (Some text)) ;;
          c <- orThrow SiteApp (classifyFailure error) ;;
          modify (set_classification c) ;;
          throw error))
    (modify (set_trace true)).

(** The closure [conclude] of [main]. *)
Definition conclude (status classification_ : string) (details_ : Details)
    (exit : nat) : Main unit :=
  liftD (modify (set_result status)) ;;
  liftD (modify (set_classification classification_)) ;;
  modify (fun st =>
            mkMainState (diagnostics st) (finalLine st) (processExitCode st)
                        (Some (diagnostics st)) (stdout st)) ;;
  let line := mkFinalLine status classification_ "npx playwright install" details_ in
  modify (fun st =>
            mkMainState (diagnostics st) (Some line) (processExitCode st)
                        (diagnosticsFile st) (stdout st)) ;;
  modify (fun st =>
            mkMainState (diagnostics st) (finalLine st) (processExitCode st)
                        (diagnosticsFile st) (stdout st ++ [Summary line])) ;;
  modify (fun st =>
            mkMainState (diagnostics st) (finalLine st) (Some exit)
                        (diagnosticsFile st) (stdout st)).

(** The local [let exitCode = 0] of [main]; nothing assigns it. *)
Definition exitCode : nat := 0.

(** [a || errorText(error)] for a possibly undefined string [a]. *)
Definition orErrorText (a : option jsstring) (error : JsValue)
    : Main jsstring :=
  match a with
  | Some (c :: rest) => ret (c :: rest)
  | _ => orThrow SiteHandler (errorText error)
  end.

(** The part of [main] before the server starts; [true] when the run goes
    on, [false] when it has concluded and returned. *)
Definition mainHead : Main bool :=
  playwright <- liftD resolvePlaywright ;;
  if negb playwright then
    conclude "failed" "installable-missing" DPackageMissing 1 ;;
    ret false
  else
    st <- get ;;
    if envSkipBrowserDownload (diagnostics st) then
      conclude "skipped" "binary-installation-blocked"
        (DSkipPolicy (installAttempt (diagnostics st))
                     (summarizeMissingBrowsers (diagnostics st)))
        (if strict (diagnostics st) then 1 else 0) ;;
      ret false
    else
      browsersReady <- liftD (detectBrowserExecutables 0) ;;
      if negb browsersReady then
        install <- liftD runPlaywrightInstall ;;
        if negb (fst install) then
          st <- get ;;
          let d := diagnostics st in
          if snd install then
            conclude "skipped" "binary-installation-blocked"
              (DInstallBlocked (installAttempt d) (summarizeMissingBrowsers d)
                               (strict d) (ci d))
              (if strict d then 1 else 0) ;;
            ret false
          else if ci d && negb (strict d) then
            conclude "skipped" "binary-installation-blocked"
              (DCiWarnOnly (installAttempt d) (summarizeMissingBrowsers d)) 0 ;;
            ret false
          else
            conclude "failed" "installable-missing"
              (DInstallFailed (installAttempt d) (summarizeMissingBrowsers d))
              1 ;;
            ret false
        else
          browsersReady <- liftD (detectBrowserExecutables 1) ;;
          if negb browsersReady then
            st <- get ;;
            let d := diagnostics st in
            if ci d && negb (strict d) then
              conclude "skipped" "binary-installation-blocked"
                (DCiWarnOnlyAfterInstall (summarizeMissingBrowsers d)) 0 ;;
              ret false
            else
              conclude "failed" "installable-missing"
                (DStillMissing (summarizeMissingBrowsers d)) 1 ;;
              ret false
          else ret true
      else ret true.

Definition makeBaseUrl (host : jsstring) : jsstring :=
  cu "http://" ++ host ++ cu ":" ++ portText w ++ cu "/index.html".

(** The body of the [try] block of [main]. *)
Definition mainTry (selectedHost : option jsstring) : Main unit :=
  match selectedHost with
  | None =>
      liftD (modify (set_classification "connectivity-failure")) ;;
      liftD (modify (set_result "failed")) ;;
      throw (Js.newError "Error"
               "Server did not become reachable on 127.0.0.1 or localhost."
               (unreachableFrames w))
  | Some host =>
      browserCtx <- liftD launchBrowser ;;
      match browserCtx with
      | None =>
          liftD (modify (set_result "skipped")) ;;
          st <- get ;;
          conclude "failed" "test-failure"
            (DLaunchFailed (browserLaunchErrors (diagnostics st))) 1
      | Some candidate =>
          liftD (modify (set_browserUsed (Some candidate))) ;;
          finally
            (liftD runSanity ;;
             liftD (modify (set_baseUrl (Some (makeBaseUrl host)))) ;;
             liftD (runAppScreenshot (makeBaseUrl host)) ;;
             modify (fun st =>
                       mkMainState (diagnostics st) (finalLine st)
                                   (processExitCode st) (diagnosticsFile st)
                                   (stdout st ++ [ScreenshotCreated])) ;;
             st <- get ;;
             conclude "passed" "success"
               (DPassed (navigationStrategyUsed (diagnostics st))) 0)
            (ret tt)
      end
  end.

(** The [catch] block of [main]. *)
Definition mainCatch (error : JsValue) : Main unit :=
  liftD (modify (fun d => set_result
                            (if String.eqb (result d) "skipped"
                             then "skipped" else "failed") d)) ;;
  st <- get ;;
  text <- orErrorText (UiSmoke.error (diagnostics st)) error ;;
  liftD (modify (set_error (Some text))) ;;
  st <- get ;;
  c <- (if String.eqb (classification (diagnostics st)) "unknown"
        then orThrow SiteHandler (classifyFailure error)
        else ret (classification (diagnostics st))) ;;
  liftD (modify (set_classification c)) ;;
  if String.eqb c "binary-installation-failure"
     || String.eqb c "browser-runtime-failure"
  then
    liftD (modify (set_result "skipped")) ;;
    st <- get ;;
    conclude "skipped" "binary-installation-blocked"
      (DBestEffortSkip (classification (diagnostics st))
                       (UiSmoke.error (diagnostics st))
                       (strict (diagnostics st)))
      (if strict (diagnostics st) then 1 else 0)
  else
    _ <- orThrow SiteHandler (errorText error) ;;
    st <- get ;;
    shown <- orErrorText (UiSmoke.error (diagnostics st)) error ;;
    conclude "failed" "test-failure"
      (DTestFailure shown (classification (diagnostics st))) 1.

(** The [finally] block of [main]. *)
Definition mainFinally : Main unit :=
  st <- get ;;
  match finalLine st with
  | Some _ => ret tt
  | None =>
      conclude (if Nat.eqb exitCode 0 then "passed" else "failed")
               (if Nat.eqb exitCode 0 then "success" else "test-failure")
               DFinalizeNote exitCode
  end.

Definition mainTail (selectedHost : option jsstring) : Main unit :=
  finally (tryCatch (mainTry selectedHost) mainCatch) mainFinally.

Definition main : Main unit :=
  continue <- mainHead ;;
  if continue : bool then
    selectedHost <- liftD startServer ;;
    mainTail selectedHost
  else ret tt.

End Run.

(** A run of the script: [main] from the state it starts in. *)
Definition run (w : World) : Completion unit * MainState :=
  main w (initialState w).


End UiSmoke.
Import UiSmoke.

(** ** The preflight probe *)

(** [playwrightPreflight] of [playwright/preflight.mjs].  The state is the
    list of the calls made into the automation engine so far.
    [chromiumLaunchOptions] and [WEBKIT_IOS_DEVICE] are imported from
    [playwright/config.mjs]: the call of the first is answered by the world,
    the second is taken to be an object. *)
Module PreflightProbe.

Import Preflight.

Definition missingPlaywrightRe : regex := lit "Cannot find package 'playwright'".

Definition looksLikeMissingPlaywright (error : JsValue) : option bool :=
  match textOf error with
  | None => None
  | Some text =>
      Some (Js.strictEqStr (Js.optCode error) "ERR_MODULE_NOT_FOUND"
            || test missingPlaywrightRe text)
  end.

(** The awaited calls of [canLaunch]. *)
Inductive Step : Type := Launch | NewPage | Goto | Close.

(** The places where a string conversion can throw. *)
Inductive Site : Type := SiteImport | SiteProbe.

Record World : Type := mkWorld {
  importPlaywright : Outcome;
  (** the value of the constant [packageVersion] *)
  packageVersion : JsValue;
  chromiumLaunchOptions : Outcome;
  step : BrowserName -> Step -> Outcome;
  conversionFrames : Site -> jsstring
}.

(** The object [playwrightPreflight] returns; [webkitDevice] tells whether
    the property is there. *)
Record Result : Type := mkResult {
  ok : bool;
  reason : string;
  classification : string;
  playwrightVersion : option JsValue;
  message : option jsstring;
  webkitDevice : bool
}.

Definition Calls : Type := list (BrowserName * Step).

Definition missingPackageMessage : jsstring :=
  cu "Playwright is not installed. Run: npm i && npx playwright install".

Definition missingBinariesMessage : jsstring :=
  cu "Playwright is installed but browser binaries are missing. In restricted environments (CDN 403), installs may fail. Run this locally on your machine: npx playwright install. WebKit is authoritative for iPhone/Safari behavior.".

Section Run.

Variable w : World.

Definition conversionError (site : Site) : JsValue :=
  Js.newError "TypeError" "Cannot convert object to primitive value"
    (conversionFrames w site).

Definition orThrow {A} (site : Site) (o : option A) : M Calls A :=
  match o with
  | Some a => ret a
  | None => throw (conversionError site)
  end.

Definition call (name : BrowserName) (s : Step) : M Calls unit :=
  modify (fun calls => calls ++ [(name, s)]) ;;
  await (step w name s).

Definition canLaunch (name : BrowserName) : M Calls (BrowserName * bool) :=
  call name Launch ;;
  call name NewPage ;;
  call name Goto ;;
  call name Close ;;
  ret (name, true).

(** [packageVersion || 'unknown']. *)
Definition versionOrUnknown : JsValue :=
  Js.or_ (packageVersion w) (JStr (cu "unknown")).

(** The body of the [try] block. *)
Definition probeTry : M Calls Result :=
  canLaunch webkit ;;
  await (chromiumLaunchOptions w) ;;
  canLaunch chromium ;;
  ret (mkResult true "ready" "ready" (Some versionOrUnknown) None true).

(** The [catch] block. *)
Definition probeCatch (error : JsValue) : M Calls Result :=
  missing <- orThrow SiteProbe (looksLikeMissingBrowserBinary error) ;;
  if missing : bool then
    ret (mkResult false "browser-binaries-missing"
           "binary-installation-failure" (Some versionOrUnknown)
           (Some missingBinariesMessage) false)
  else
    c <- orThrow SiteProbe (classifyBrowserLaunchError error) ;;
    text <- orThrow SiteProbe (textOf error) ;;
    ret (mkResult false "browser-launch-failed" c (Some versionOrUnknown)
           (Some text) false).

Definition playwrightPreflight : M Calls Result :=
  match importPlaywright w with
  | Rejects error =>
      missing <- orThrow SiteImport (looksLikeMissingPlaywright error) ;;
      if missing : bool then
        ret (mkResult false "playwright-missing" "binary-installation-failure"
               None (Some missingPackageMessage) false)
      else throw error
  | Resolves => tryCatch probeTry probeCatch
  end.

End Run.

End PreflightProbe.

(** ** The inline page *)

(** [buildInlineHtml] of the orchestrator, with the two string methods it
    calls.  [pathToFileURL(repoRoot).href] is a parameter. *)
Module InlineHtml.

Fixpoint startsWith (needle s : jsstring) : bool :=
  match needle, s with
  | [], _ => true
  | _ :: _, [] => false
  | c :: needle', x :: s' => (c =? x)%N && startsWith needle' s'
  end.

(** The parts of [s] before and after the first occurrence of [needle]. *)
Fixpoint splitAtFirst (needle s : jsstring) : option (jsstring * jsstring) :=
  if startsWith needle s then Some ([], skipn (List.length needle) s)
  else match s with
       | [] => None
       | x :: s' =>
           match splitAtFirst needle s' with
           | Some (before, after) => Some (x :: before, after)
           | None => None
           end
       end.

(** [s.includes(needle)]. *)
Definition includes (needle s : jsstring) : bool :=
  match splitAtFirst needle s with
  | Some _ => true
  | None => false
  end.

(** GetSubstitution for a string pattern: no captures, so [$n] and [$<]
    stand for themselves. *)
Fixpoint getSubstitution (matched before after template : jsstring)
    : jsstring :=
  match template with
  | [] => []
  | c :: rest =>
      if (c =? 36)%N then
        match rest with
        | d :: rest' =>
            if (d =? 36)%N then
              36%N :: getSubstitution matched before after rest'
            else if (d =? 38)%N then
              matched ++ getSubstitution matched before after rest'
            else if (d =? 96)%N then
              before ++ getSubstitution matched before after rest'
            else if (d =? 39)%N then
              after ++ getSubstitution matched before after rest'
            else c :: getSubstitution matched before after rest
        | [] => [c]
        end
      else c :: getSubstitution matched before after rest
  end.

(** [s.replace(needle, template)] for a string [needle]. *)
Definition replace (needle template s : jsstring) : jsstring :=
  match splitAtFirst needle s with
  | Some (before, after) =>
      before ++ getSubstitution needle before after template ++ after
  | None => s
  end.

(** [s.replace(/\/$/, '')]. *)
Fixpoint stripTrailingSlash (s : jsstring) : jsstring :=
  match s with
  | [] => []
  | c :: rest =>
      match rest with
      | [] => if (c =? 47)%N then [] else [c]
      | _ :: _ => c :: stripTrailingSlash rest
      end
  end.

Definition headTag : jsstring := cu "<head>".

Definition baseHref (rootHref : jsstring) : jsstring :=
  stripTrailingSlash rootHref ++ cu "/".

(** The text [<base href="...">]. *)
Definition baseTag (href : jsstring) : jsstring :=
  cu "<base href=" ++ [34%N] ++ href ++ [34%N] ++ cu ">".

Definition buildInlineHtml (rootHref indexHtml : jsstring) : jsstring :=
  if includes headTag indexHtml
  then replace headTag (headTag ++ baseTag (baseHref rootHref)) indexHtml
  else baseTag (baseHref rootHref) ++ indexHtml.

End InlineHtml.

(** * Vocabulary of the properties *)

(** ** Outcomes of computations *)

(** [wp m Q s]: running [m] from [s] ends in a completion and a state that
    satisfy [Q]. *)
Definition wp {S A} (m : M S A) (Q : Completion A -> S -> Prop) (s : S)
    : Prop :=
  Q (fst (m s)) (snd (m s)).

(** [preserves I m]: whatever way [m] completes, it keeps [I]. *)
Definition preserves {S A} (I : S -> Prop) (m : M S A) : Prop :=
  forall s, I s -> I (snd (m s)).

(** An invariant of the diagnostics record is stable under a setter when no
    value written through it breaks it. *)
Definition stable {V} (I : Diagnostics -> Prop)
    (set : V -> Diagnostics -> Diagnostics) : Prop :=
  forall v d, I d -> I (set v d).

(** ** Classification *)

(** The priority order, for a classifier given by its three patterns and
    its default. *)
Definition PriorityOrder (binary connectivity runtime : regex)
    (default : string) (text : jsstring) (verdict : option string) : Prop :=
  (Matches binary text -> verdict = Some "binary-installation-failure"%string)
  /\ (~ Matches binary text -> Matches connectivity text ->
      verdict = Some "connectivity-failure"%string)
  /\ (~ Matches binary text -> ~ Matches connectivity text ->
      Matches runtime text -> verdict = Some "browser-runtime-failure"%string)
  /\ (~ Matches binary text -> ~ Matches connectivity text ->
      ~ Matches runtime text -> verdict = Some default).

(** The signatures only one of the two classifiers knows. *)
Definition mainOnlyRe : regex :=
  Alt (Seq (lit "No such file or directory") (Seq AnyStar (lit "playwright")))
 (Alt (lit "BrowserType.launch")
      (lit "Connection terminated unexpectedly")).

Definition preflightOnlyRe : regex :=
  Alt (lit "failed to launch browser process")
      (lit "has been closed").

(** The preflight name of a verdict of the main classifier. *)
Definition preflightName (c : string) : string :=
  if String.eqb c "application-failure" then "unknown-browser-failure" else c.

Definition failureClasses : list string :=
  ["binary-installation-failure"; "connectivity-failure";
   "browser-runtime-failure"; "application-failure"]%string.

(** ** Navigation *)

(** The transition recorded when HTTP is not opted in. *)
Definition disabledFallback : Fallback := mkFallback HTTP FILE disabledReason.

(** After the first transition is recorded, the rest of the run keeps it
    first and never marks HTTP as used. *)
Definition NavigatedFileSafe (d : Diagnostics) : Prop :=
  hd_error (navigationFallbacks d) = Some disabledFallback
  /\ navigationStrategyUsed d <> Some HTTP.

(** Before navigation: no transition recorded, HTTP not marked as used. *)
Definition NotNavigated (d : Diagnostics) : Prop :=
  navigationFallbacks d = [] /\ navigationStrategyUsed d <> Some HTTP.

(** The FILE step of [navigateWithFallback] with its INLINE fallback. *)
Definition fileThenInline (w : World) : D unit :=
  tryCatch (tryFileStrategy w)
    (fun error =>
       text <- orThrow w SiteFileFallback (errorText error) ;;
       pushFallback (mkFallback FILE INLINE text) ;;
       tryInlineStrategy w).

(** What [navigateWithFallback] does once HTTP is attempted, by the way
    [tryHttpStrategy] ends. *)
Definition HttpOutcome (w : World) (baseUrl : jsstring) (d : Diagnostics)
    : Prop :=
  match tryHttpStrategy w baseUrl (set_navigationHttpOptIn (Some true) d) with
  | (Normal _, d1) =>
      navigateWithFallback w baseUrl d = (Normal tt, d1)
      /\ navigationStrategyAttempts d1
         = navigationStrategyAttempts d ++ [(HTTP, baseUrl)]
  | (Throw e, d1) =>
      exists text reachability,
        errorText e = Some text
        /\ isHttpReachabilityError e = Some reachability
        /\ let d2 := set_navigationFallbacks
                       (navigationFallbacks d1 ++ [mkFallback HTTP FILE text])
                       d1 in
           if reachability : bool then
             navigateWithFallback w baseUrl d = fileThenInline w d2
             /\ exists rest,
                 navigationStrategyAttempts
                   (snd (navigateWithFallback w baseUrl d))
                 = navigationStrategyAttempts d
                   ++ (HTTP, baseUrl) :: (FILE, fileUrl w) :: rest
           else
             navigateWithFallback w baseUrl d = (Throw e, d2)
             /\ navigationStrategyAttempts d2
                = navigationStrategyAttempts d ++ [(HTTP, baseUrl)]
             /\ navigationStrategyUsed d2 = navigationStrategyUsed d
  end.

(** ** Conclusions *)

Definition strictOf (w : World) : bool := envIs (env_PLAYWRIGHT_STRICT w) "1".

(** [PLAYWRIGHT_SKIP_BROWSER_DOWNLOAD] is ['1'] or ['true']. *)
Definition skipDownload (w : World) : bool :=
  envIs (env_PLAYWRIGHT_SKIP_BROWSER_DOWNLOAD w) "1"
  || envIs (env_PLAYWRIGHT_SKIP_BROWSER_DOWNLOAD w) "true".

(** The summary lines on standard output. *)
Definition summaries (out : list StdoutLine) : list FinalLine :=
  flat_map (fun l => match l with
                     | Summary fl => [fl]
                     | ScreenshotCreated => []
                     end) out.

(** The exit-code matrix. *)
Definition ExitMatrix (status : string) (strictMode : bool)
    (exit : option nat) : Prop :=
  (exit = Some 0 <->
   status = "passed"%string
   \/ (status = "skipped"%string /\ strictMode = false))
  /\ (exit = Some 1 <->
      status = "failed"%string
      \/ (status = "skipped"%string /\ strictMode = true)).

(** No conclusion recorded yet. *)
Definition Unconcluded (st : MainState) : Prop :=
  finalLine st = None /\ summaries (stdout st) = [].

(** One conclusion recorded, and the record still shows it. *)
Definition Concluded (strictMode : bool) (st : MainState) : Prop :=
  exists fl,
    finalLine st = Some fl
    /\ summaries (stdout st) = [fl]
    /\ result (diagnostics st) = ui_smoke fl
    /\ classification (diagnostics st) = line_classification fl
    /\ diagnosticsFile st = Some (diagnostics st)
    /\ In (ui_smoke fl) ["passed"; "failed"; "skipped"]%string
    /\ ExitMatrix (ui_smoke fl) strictMode (processExitCode st).

(** The conclusion a finished run has recorded. *)
Definition Recorded (st : MainState) : Prop :=
  exists fl,
    finalLine st = Some fl
    /\ summaries (stdout st) = [fl]
    /\ result (diagnostics st) = ui_smoke fl
    /\ classification (diagnostics st) = line_classification fl
    /\ diagnosticsFile st = Some (diagnostics st).

(** The fields of the state that only [main] itself writes. *)
Definition sameProcess (st st' : MainState) : Prop :=
  finalLine st' = finalLine st
  /\ processExitCode st' = processExitCode st
  /\ diagnosticsFile st' = diagnosticsFile st
  /\ stdout st' = stdout st.

(** The classification the handler acts on: the one already recorded, or
    that of the error when none was. *)
Definition effectiveClassification (d : Diagnostics) (error : JsValue)
    : option string :=
  if String.eqb (classification d) "unknown" then classifyFailure error
  else Some (classification d).

(** The classes the handler downgrades to a skip. *)
Definition bestEffortSkip (c : string) : bool :=
  String.eqb c "binary-installation-failure"
  || String.eqb c "browser-runtime-failure".

(** The invariants of a run: strict mode as the environment gave it, and a
    property of the record that holds until navigation starts ([Before]),
    or from then on ([After]). *)
Definition InvBefore (strictMode : bool) (Before : Diagnostics -> Prop)
    (d : Diagnostics) : Prop :=
  strict d = strictMode /\ Before d.

Definition InvAfter (strictMode : bool) (After : Diagnostics -> Prop)
    (d : Diagnostics) : Prop :=
  strict d = strictMode /\ After d.

(** After the part of [main] that precedes the server: concluded when it
    returned, not concluded when it goes on or was aborted. *)
Definition HeadPost (strictMode : bool) (Before : Diagnostics -> Prop)
    (c : Completion bool) (st : MainState) : Prop :=
  InvBefore strictMode Before (diagnostics st)
  /\ match c with
     | Normal false => Concluded strictMode st
     | _ => Unconcluded st
     end.

(** After the [try] block or the [catch] block of [main]. *)
Definition TryPost (strictMode : bool) (After : Diagnostics -> Prop)
    (c : Completion unit) (st : MainState) : Prop :=
  InvAfter strictMode After (diagnostics st)
  /\ match c with
     | Normal _ => Concluded strictMode st
     | Throw _ => Unconcluded st
     end.

Definition Finished (strictMode : bool) (After : Diagnostics -> Prop)
    (st : MainState) : Prop :=
  InvAfter strictMode After (diagnostics st) /\ Concluded strictMode st.

(** Every run either finishes with one conclusion, or is aborted by an
    exception before the server is started and records none. *)
Definition MainPost (strictMode : bool) (Before After : Diagnostics -> Prop)
    (c : Completion unit) (st : MainState) : Prop :=
  Finished strictMode After st
  \/ ((exists e, c = Throw e)
      /\ InvBefore strictMode Before (diagnostics st) /\ Unconcluded st).

(** ** Retries, launches and what a run has produced *)

(** The rejection of the [i]-th [page.goto] on [url], and its text. *)
Definition gotoErrorAt (w : World) (url : jsstring) (i : nat) : JsValue :=
  match pageGoto w url i with
  | Rejects e => e
  | Resolves => JUndefined
  end.

Definition gotoTextAt (w : World) (url : jsstring) (i : nat) : jsstring :=
  match errorText (gotoErrorAt w url i) with
  | Some t => t
  | None => []
  end.

(** Attempts [from], ..., [from + count - 1] on [url] are rejected with
    errors that have a text. *)
Definition RejectedFrom (w : World) (url : jsstring) (from count : nat)
    : Prop :=
  forall i, from <= i < from + count ->
    exists e, pageGoto w url i = Rejects e /\ errorText e <> None.

Definition attemptsLog (url : jsstring) (from count : nat)
    : list (jsstring * nat) :=
  map (fun i => (url, i + 1)) (seq from count).

Definition errorsLog (w : World) (url : jsstring) (from count : nat)
    : list (nat * jsstring) :=
  map (fun i => (i + 1, gotoTextAt w url i)) (seq from count).

(** After a navigation step from [d0]: on success the strategy marked as
    used is the one attempted last; on failure the mark is as it was. *)
Definition UsedIsLastAttempt (d0 : Diagnostics) {A} (c : Completion A)
    (d : Diagnostics) : Prop :=
  match c with
  | Normal _ =>
      exists s target earlier,
        navigationStrategyUsed d = Some s
        /\ navigationStrategyAttempts d = earlier ++ [(s, target)]
  | Throw _ => navigationStrategyUsed d = navigationStrategyUsed d0
  end.

(** How the INLINE step ends. *)
Definition inlineCompletion (w : World) : Completion unit :=
  match readIndexHtml w with
  | Rejects e => Throw e
  | Resolves =>
      match setContent w with
      | Rejects e => Throw e
      | Resolves => Normal tt
      end
  end.

(** The text of the rejection of [launch] for a candidate, and whether it is
    a missing-binary error. *)
Definition launchTextAt (w : World) (x : BrowserName) : jsstring :=
  match launch w x with
  | Rejects e => match errorText e with Some t => t | None => [] end
  | Resolves => []
  end.

Definition launchMissingBinary (w : World) (x : BrowserName) : bool :=
  match launch w x with
  | Rejects e =>
      match isMissingBrowserBinaryError e with Some b => b | None => false end
  | Resolves => false
  end.

(** Every candidate of the list fails to launch, with an error that has a
    text. *)
Definition LaunchRejected (w : World) (xs : list BrowserName) : Prop :=
  forall x, In x xs ->
    exists e, launch w x = Rejects e /\ errorText e <> None.

(** The record after the candidates [xs] failed one after the other. *)
Definition afterFailedLaunches (w : World) (xs : list BrowserName)
    (d : Diagnostics) : Diagnostics :=
  let d1 := set_browserLaunchErrors
              (browserLaunchErrors d ++ map (fun x => (x, launchTextAt w x)) xs)
              (set_browserAttempts (browserAttempts d ++ xs) d) in
  if existsb (launchMissingBinary w) xs
  then set_result "browser-binaries-missing"
         (set_classification "binary-installation-failure" d1)
  else d1.

(** The way [launchCandidates] ends on [xs], read backwards. *)
Definition LaunchExplained (w : World) (xs : list BrowserName)
    (c : Completion (option BrowserName)) : Prop :=
  match c with
  | Normal (Some x) =>
      launch w x = Resolves
      /\ exists pre post, xs = pre ++ x :: post /\ LaunchRejected w pre
  | Normal None => LaunchRejected w xs
  | Throw e =>
      e = conversionError w SiteLaunch
      /\ exists pre x post e0,
           xs = pre ++ x :: post /\ LaunchRejected w pre
           /\ launch w x = Rejects e0 /\ errorText e0 = None
  end.

(** What [detectBrowserExecutables] answers on its [call]-th run. *)
Definition binariesReady (w : World) (call : nat) : bool :=
  forallb (fun name => executableExists w call name) (targets w).

Definition ciOf (w : World) : bool := envIs (env_CI w) "true".

(** The playwright package loads, the skip flag is unset, and the browser
    binaries are there, at once or after the install. *)
Definition headContinues (w : World) : bool :=
  match importPlaywright w with
  | Resolves =>
      negb (skipDownload w)
      && (binariesReady w 0 || (installStatusOk w && binariesReady w 1))
  | Rejects _ => false
  end.

(** The install command is run. *)
Definition installNeeded (w : World) : bool :=
  match importPlaywright w with
  | Resolves => negb (skipDownload w) && negb (binariesReady w 0)
  | Rejects _ => false
  end.

(** What [runAppScreenshot] leaves in the record when it throws [e]. *)
Definition FailureRecorded (w : World) (e : JsValue) (d0 d : Diagnostics)
    : Prop :=
  trace d = true
  /\ screenshot d = screenshot d0
  /\ (e = conversionError w SiteApp
      \/ exists text c,
           errorText e = Some text
           /\ classifyFailure e = Some c
           /\ UiSmoke.error d = Some text
           /\ classification d = c).

(** The artifacts of a complete smoke run. *)
Definition Artifacts (d : Diagnostics) : Prop :=
  browserUsed d <> None
  /\ sanityScreenshot d = true
  /\ screenshot d = true
  /\ trace d = true
  /\ navigationStrategyUsed d <> None.

(** A conclusion other than [passed] has been recorded. *)
Definition ConcludedNotPassed (st : MainState) : Prop :=
  exists fl, finalLine st = Some fl /\ ui_smoke fl <> "passed"%string.

(** A conclusion has been recorded, and if it is [passed] the artifacts
    exist and the exit code is 0. *)
Definition PassedHonestly (st : MainState) : Prop :=
  exists fl,
    finalLine st = Some fl
    /\ (ui_smoke fl = "passed"%string ->
        Artifacts (diagnostics st) /\ processExitCode st = Some 0).

Definition HeadNeverPasses (c : Completion bool) (st : MainState) : Prop :=
  match c with
  | Normal false => ConcludedNotPassed st
  | _ => finalLine st = None
  end.

Definition CatchNeverPasses (c : Completion unit) (st : MainState) : Prop :=
  match c with
  | Normal _ => ConcludedNotPassed st
  | Throw _ => finalLine st = None
  end.

Definition TryHonest (c : Completion unit) (st : MainState) : Prop :=
  match c with
  | Normal _ => PassedHonestly st
  | Throw _ => finalLine st = None
  end.


(** ** The preflight probe *)

(** The calls of a complete probe, in order. *)
Definition probeOrder : PreflightProbe.Calls :=
  [(webkit, PreflightProbe.Launch); (webkit, PreflightProbe.NewPage);
   (webkit, PreflightProbe.Goto); (webkit, PreflightProbe.Close);
   (chromium, PreflightProbe.Launch); (chromium, PreflightProbe.NewPage);
   (chromium, PreflightProbe.Goto); (chromium, PreflightProbe.Close)].

Definition resolved (o : Outcome) : bool :=
  match o with Resolves => true | Rejects _ => false end.

Definition stepsResolve (w : PreflightProbe.World)
    (calls : PreflightProbe.Calls) : bool :=
  forallb (fun c => resolved (PreflightProbe.step w (fst c) (snd c))) calls.

(** The package loads and every call of the probe succeeds. *)
Definition engineReady (w : PreflightProbe.World) : bool :=
  resolved (PreflightProbe.importPlaywright w)
  && stepsResolve w probeOrder
  && resolved (PreflightProbe.chromiumLaunchOptions w).

Definition launchFailureClasses : list string :=
  ["connectivity-failure"; "browser-runtime-failure";
   "unknown-browser-failure"]%string.

Definition readyResult (w : PreflightProbe.World) : PreflightProbe.Result :=
  PreflightProbe.mkResult true "ready" "ready"
    (Some (PreflightProbe.versionOrUnknown w)) None true.

(** How the [try] block ends, and the calls it has made by then. *)
Definition TryOutcome (w : PreflightProbe.World) (calls : PreflightProbe.Calls)
    (r : Completion PreflightProbe.Result * PreflightProbe.Calls) : Prop :=
  (stepsResolve w probeOrder
   && resolved (PreflightProbe.chromiumLaunchOptions w) = true
   /\ r = (Normal (readyResult w), calls ++ probeOrder))
  \/ (stepsResolve w probeOrder
      && resolved (PreflightProbe.chromiumLaunchOptions w) = false
      /\ exists e k,
           fst r = Throw e
           /\ snd r = calls ++ firstn k probeOrder
           /\ k <= 8
           /\ (4 < k ->
               stepsResolve w (firstn 4 probeOrder) = true
               /\ resolved (PreflightProbe.chromiumLaunchOptions w) = true)).

(** How the [catch] block ends. *)
Definition CatchOutcome (w : PreflightProbe.World) (error : JsValue)
    (c : Completion PreflightProbe.Result) : Prop :=
  match c with
  | Normal r =>
      PreflightProbe.ok r = false
      /\ PreflightProbe.playwrightVersion r
         = Some (PreflightProbe.versionOrUnknown w)
      /\ ((Preflight.looksLikeMissingBrowserBinary error = Some true
           /\ PreflightProbe.reason r = "browser-binaries-missing"%string
           /\ PreflightProbe.classification r
              = "binary-installation-failure"%string
           /\ PreflightProbe.message r
              = Some PreflightProbe.missingBinariesMessage)
          \/ (Preflight.looksLikeMissingBrowserBinary error = Some false
              /\ PreflightProbe.reason r = "browser-launch-failed"%string
              /\ In (PreflightProbe.classification r) launchFailureClasses
              /\ Preflight.classifyBrowserLaunchError error
                 = Some (PreflightProbe.classification r)
              /\ PreflightProbe.message r = Preflight.textOf error))
  | Throw e =>
      e = PreflightProbe.conversionError w PreflightProbe.SiteProbe
      /\ Preflight.textOf error = None
  end.

(** ** The inline page *)

(** [s] is [before], then its first occurrence of [needle], then [after]. *)
Definition FirstOccurrence (needle before after s : jsstring) : Prop :=
  s = before ++ needle ++ after
  /\ forall before' after',
       s = before' ++ needle ++ after' ->
       List.length before <= List.length before'.

Definition Occurs (needle s : jsstring) : Prop :=
  exists before after, s = before ++ needle ++ after.

(** ** Example inputs *)

(** An error whose text carries a signature of each of the three classes. *)
Definition ambiguousError : JsValue :=
  Js.newError "Error"
    "browserType.launch: Executable doesn't exist at /ms-playwright/chromium (net::ERR_CONNECTION_REFUSED, page crashed)"
    (cu "
    at launch (node:internal)").

Definition launchProcessError : JsValue :=
  JStr (cu "failed to launch browser process").

Definition pageCrashError : JsValue :=
  Js.newError "Error" "page.goto: Page crashed" (cu "
    at gotoWithRetry (ui-smoke.mjs:146:18)").

(** An object with neither [stack] nor [message] and no string conversion,
    such as [Object.create(null)]. *)
Definition bareObject : JsValue := JObj JUndefined JUndefined JUndefined None.

(** A plain object without [stack] or [message], such as [{}]. *)
Definition plainObject : JsValue :=
  JObj JUndefined JUndefined JUndefined (Some (cu "[object Object]")).

(** A world given by the answers that vary between the examples; the engine
    loads the page from the file system without trouble. *)
Definition scenario (allow strictEnv skip ciEnv : option jsstring)
    (import : Outcome) (exe : nat -> BrowserName -> bool)
    (installOk installBlk : bool) (reach : jsstring -> bool)
    (launch_ : BrowserName -> Outcome) (sanity : Outcome)
    (goto : jsstring -> nat -> Outcome) (click_ : Outcome) : World :=
  {| env_UI_SMOKE_ALLOW_HTTP := allow;
     env_PLAYWRIGHT_STRICT := strictEnv;
     env_PLAYWRIGHT_SKIP_BROWSER_DOWNLOAD := skip;
     env_CI := ciEnv;
     portText := cu "4173";
     fileUrl := cu "file:///repo/index.html";
     indexHtmlPath := cu "/repo/index.html";
     importPlaywright := import;
     executableExists := exe;
     installStatusOk := installOk;
     installBlocked := installBlk;
     waitForServer := reach;
     launch := launch_;
     sanityRender := sanity;
     sanityClose := Resolves;
     appSetup := Resolves;
     pageGoto := goto;
     readIndexHtml := Resolves;
     setContent := Resolves;
     settleBeforeClick := Resolves;
     click := click_;
     settleAfterClick := Resolves;
     takeScreenshot := Resolves;
     unreachableFrames := cu "
    at main (file:///repo/playwright/ui-smoke.mjs:509:13)";
     conversionFrames := fun _ => cu "
    at String (<anonymous>)" |}.

Definition allPresent : nat -> BrowserName -> bool := fun _ _ => true.
Definition allReachable : jsstring -> bool := fun _ => true.
Definition allLaunch : BrowserName -> Outcome := fun _ => Resolves.
Definition allLoad : jsstring -> nat -> Outcome := fun _ _ => Resolves.

(** Everything works. *)
Definition happyWorld : World :=
  scenario None None None None Resolves allPresent true false allReachable
    allLaunch Resolves allLoad Resolves.

(** The server answers on neither alias. *)
Definition unreachableWorld : World :=
  scenario None None None None Resolves allPresent true false
    (fun _ => false) allLaunch Resolves allLoad Resolves.

Definition connectionRefused : JsValue :=
  Js.newError "Error"
    "page.goto: net::ERR_CONNECTION_REFUSED at about:blank" (cu "
    at runSanity (file:///repo/playwright/ui-smoke.mjs:352:14)").

(** The sanity render is refused a connection; strict mode is off. *)
Definition sanityRefusedWorld : World :=
  scenario None None None None Resolves allPresent true false allReachable
    allLaunch (Rejects connectionRefused) allLoad Resolves.

Definition moduleNotFound : JsValue :=
  JObj (JStr (cu "Error [ERR_MODULE_NOT_FOUND]: Cannot find package 'playwright' imported from /repo/playwright/ui-smoke.mjs"))
       (JStr (cu "Cannot find package 'playwright' imported from /repo/playwright/ui-smoke.mjs"))
       (JStr (cu "ERR_MODULE_NOT_FOUND"))
       (Some (cu "Error: Cannot find package 'playwright' imported from /repo/playwright/ui-smoke.mjs")).

(** The skip flag is set and the package is missing. *)
Definition skipButMissingWorld : World :=
  scenario None None (Some (cu "1")) None (Rejects moduleNotFound) allPresent
    true false allReachable allLaunch Resolves allLoad Resolves.

(** The skip flag is set, strict mode is on, the package loads. *)
Definition strictSkipWorld : World :=
  scenario None (Some (cu "1")) (Some (cu "true")) None Resolves allPresent
    true false allReachable allLaunch Resolves allLoad Resolves.

Definition brokenPackage : JsValue :=
  Js.newError "SyntaxError" "Unexpected token in playwright/index.mjs" (cu "
    at compileSourceTextModule (node:internal/modules/esm/utils:340:16)").

(** The package is installed but fails to load. *)
Definition brokenImportWorld : World :=
  scenario None None None None (Rejects brokenPackage) allPresent true false
    allReachable allLaunch Resolves allLoad Resolves.

Definition navigationAborted : JsValue :=
  Js.newError "Error"
    "page.goto: net::ERR_ABORTED at http://127.0.0.1:4173/index.html" (cu "
    at gotoWithRetry (file:///repo/playwright/ui-smoke.mjs:146:18)").

(** HTTP is opted in and every navigation is aborted by the page. *)
Definition httpAbortedWorld : World :=
  scenario (Some (cu "1")) None None None Resolves allPresent true false
    allReachable allLaunch Resolves (fun _ _ => Rejects navigationAborted)
    Resolves.

(** The sanity render rejects with an object that has no string
    conversion. *)
Definition bareRejectionWorld : World :=
  scenario None None None None Resolves allPresent true false allReachable
    allLaunch (Rejects bareObject) allLoad Resolves.

(** The first load of an address is aborted, the second succeeds. *)
Definition flakyLoadWorld : World :=
  scenario None None None None Resolves allPresent true false allReachable
    allLaunch Resolves
    (fun _ i => match i with 0 => Rejects navigationAborted | _ => Resolves end)
    Resolves.

(** HTTP is not opted in and no page loads. *)
Definition fileBlockedWorld : World :=
  scenario None None None None Resolves allPresent true false allReachable
    allLaunch Resolves (fun _ _ => Rejects navigationAborted) Resolves.

Definition executableMissing : JsValue :=
  Js.newError "Error"
    "browserType.launch: Executable doesn't exist at /ms-playwright/chromium-1091/chrome-linux/chrome"
    (cu "
    at launchBrowser (file:///repo/playwright/ui-smoke.mjs:336:39)").

(** Chromium is not installed, webkit launches, and the sanity render is
    refused a connection. *)
Definition chromiumMissingWorld : World :=
  scenario None None None None Resolves allPresent true false allReachable
    (fun b => match b with
              | chromium => Rejects executableMissing
              | webkit => Resolves
              end)
    (Rejects connectionRefused) allLoad Resolves.

(** No browser launches. *)
Definition noLaunchWorld : World :=
  scenario None None None None Resolves allPresent true false allReachable
    (fun _ => Rejects pageCrashError) Resolves allLoad Resolves.

(** The binaries are missing and their download is blocked. *)
Definition downloadBlockedWorld : World :=
  scenario None None None None Resolves (fun _ _ => false) false true
    allReachable allLaunch Resolves allLoad Resolves.

Definition clickTimeout : JsValue :=
  Js.newError "TimeoutError" "page.click: Timeout 30000ms exceeded." (cu "
    at runAppScreenshot (file:///repo/playwright/ui-smoke.mjs:368:16)").

(** The page loads but the click on the add button times out. *)
Definition clickFailsWorld : World :=
  scenario None None None None Resolves allPresent true false allReachable
    allLaunch Resolves allLoad (Rejects clickTimeout).

(** HTTP is opted in and every page loads. *)
Definition httpOptInWorld : World :=
  scenario (Some (cu "1")) None None None Resolves allPresent true false
    allReachable allLaunch Resolves allLoad Resolves.

(** HTTP is opted in; the page loads from the file system only. *)
Definition httpRefusedWorld : World :=
  scenario (Some (cu "1")) None None None Resolves allPresent true false
    allReachable allLaunch Resolves
    (fun url _ => if jsstring_eqb url (cu "file:///repo/index.html")
                  then Resolves else Rejects connectionRefused)
    Resolves.

Definition exampleBaseUrl : jsstring := cu "http://127.0.0.1:4173/index.html".

(** Chromium is not installed, webkit launches, and the click on the add
    button times out. *)
Definition webkitClickFailsWorld : World :=
  scenario None None None None Resolves allPresent true false allReachable
    (fun b => match b with
              | chromium => Rejects executableMissing
              | webkit => Resolves
              end)
    Resolves allLoad (Rejects clickTimeout).

(** Every call succeeds. *)
Definition probeReady : PreflightProbe.World :=
  PreflightProbe.mkWorld Resolves (JStr (cu "1.48.0")) Resolves
    (fun _ _ => Resolves)
    (fun _ => cu "
    at String (<anonymous>)").

(** The page of webkit crashes on [about:blank]. *)
Definition probeWebkitCrash : PreflightProbe.World :=
  PreflightProbe.mkWorld Resolves (JStr (cu "1.48.0")) Resolves
    (fun b s => match b, s with
                | webkit, PreflightProbe.Goto => Rejects pageCrashError
                | _, _ => Resolves
                end)
    (fun _ => cu "
    at String (<anonymous>)").

(** The package is installed but fails to load. *)
Definition probeBrokenImport : PreflightProbe.World :=
  PreflightProbe.mkWorld (Rejects brokenPackage) JNull Resolves
    (fun _ _ => Resolves)
    (fun _ => cu "
    at String (<anonymous>)").

Definition crashResult : PreflightProbe.Result :=
  PreflightProbe.mkResult false "browser-launch-failed"
    "browser-runtime-failure" (Some (JStr (cu "1.48.0")))
    (Preflight.textOf pageCrashError) false.

Definition exampleRoot : jsstring := cu "file:///repo/".

Definition pageWithHead : jsstring :=
  cu "<!doctype html><html><head><title>t</title></head><body></body></html>".

Definition pageWithoutHead : jsstring := cu "<p>hello</p>".

(** * Properties *)

(** ** The matcher against the language of a pattern *)

Section MatcherCorrect.

Lemma lang_Eps_inv s : lang Eps s -> s = [].
Proof. intros H; inversion H; reflexivity. Qed.

Lemma anyStar_accept (k : jsstring -> bool) (s : jsstring) :
  accept AnyStar s k = true <->
  exists s1 s2, s = s1 ++ s2 /\ lang AnyStar s1 /\ k s2 = true.
Proof.
  induction s as [|x s IH]; simpl.
  - rewrite orb_false_r. split.
    + intros Hk. exists [], []. repeat split; auto. constructor. reflexivity.
    + intros (s1 & s2 & E & _ & Hk).
      symmetry in E. apply app_eq_nil in E. destruct E; subst. exact Hk.
  - split.
    + intros H. apply orb_true_iff in H. destruct H as [Hk|H].
      * exists [], (x :: s). repeat split; auto. constructor. reflexivity.
      * apply andb_true_iff in H. destruct H as [Hx H].
        apply IH in H. destruct H as (s1 & s2 & E & L & Hk).
        exists (x :: s1), s2. subst s. repeat split; auto.
        inversion L; subst. constructor. simpl. rewrite Hx. assumption.
    + intros (s1 & s2 & E & L & Hk). apply orb_true_iff.
      destruct s1 as [|y s1]; simpl in E.
      * left. subst s2. exact Hk.
      * right. injection E as -> ->. inversion L as [| |t Hall| | |]; subst.
        simpl in Hall. apply andb_true_iff in Hall. destruct Hall as [Hy Hall].
        apply andb_true_iff. split; [exact Hy|].
        apply IH. exists s1, s2. repeat split; auto. constructor. exact Hall.
Qed.

Lemma accept_spec (r : regex) :
  forall (s : jsstring) (k : jsstring -> bool),
    accept r s k = true <->
    exists s1 s2, s = s1 ++ s2 /\ lang r s1 /\ k s2 = true.
Proof.
  induction r as [|c| |a IHa b IHb|a IHa b IHb]; intros s k.
  - simpl. split.
    + intros Hk. exists [], s. repeat split; auto. constructor.
    + intros (s1 & s2 & E & L & Hk). apply lang_Eps_inv in L. subst. exact Hk.
  - destruct s as [|x s]; simpl.
    + split; [discriminate|].
      intros (s1 & s2 & E & L & _). inversion L; subst. discriminate.
    + split.
      * intros H. apply andb_true_iff in H. destruct H as [Hc Hk].
        exists [x], s. repeat split; auto. constructor. exact Hc.
      * intros (s1 & s2 & E & L & Hk). inversion L; subst.
        simpl in E. injection E as -> ->. apply andb_true_iff. split; auto.
  - apply anyStar_accept.
  - simpl. rewrite IHa. split.
    + intros (s1 & s2 & E & La & H). apply IHb in H.
      destruct H as (t1 & t2 & E' & Lb & Hk). subst.
      exists (s1 ++ t1), t2. rewrite <- app_assoc. repeat split; auto.
      constructor; assumption.
    + intros (s1 & s2 & E & L & Hk).
      inversion L as [| | |a' b' u1 u2 La Lb| |]; subst.
      exists u1, (u2 ++ s2). rewrite <- app_assoc. repeat split; auto.
      apply IHb. exists u2, s2. repeat split; auto.
  - simpl. rewrite orb_true_iff, IHa, IHb. split.
    + intros [(s1 & s2 & E & L & Hk)|(s1 & s2 & E & L & Hk)];
        exists s1, s2; repeat split; auto; [apply LAltL|apply LAltR]; exact L.
    + intros (s1 & s2 & E & L & Hk). inversion L; subst;
        [left|right]; exists s1, s2; repeat split; auto.
Qed.

(** [test] decides whether the text has a substring in the language. *)
Lemma test_spec (r : regex) (s : jsstring) :
  test r s = true <-> Matches r s.
Proof.
  unfold Matches. induction s as [|x s IH]; simpl.
  - rewrite orb_false_r, accept_spec. split.
    + intros (s1 & s2 & E & L & _). exists [], s1, s2. auto.
    + intros (pre & mid & suf & E & L).
      destruct pre; [|discriminate]. exists mid, suf. auto.
  - rewrite orb_true_iff, accept_spec, IH. split.
    + intros [(s1 & s2 & E & L & _)|(pre & mid & suf & E & L)].
      * exists [], s1, s2. auto.
      * exists (x :: pre), mid, suf. subst s. auto.
    + intros (pre & mid & suf & E & L). destruct pre as [|y pre].
      * left. exists mid, suf. auto.
      * right. simpl in E. injection E as -> ->. exists pre, mid, suf. auto.
Qed.

Lemma test_Alt (a b : regex) (s : jsstring) :
  test (Alt a b) s = test a s || test b s.
Proof.
  induction s as [|x s IH]; simpl.
  - rewrite !orb_false_r. reflexivity.
  - rewrite IH.
    destruct (accept a (x :: s) (fun _ => true)),
             (accept b (x :: s) (fun _ => true)),
             (test a s), (test b s); reflexivity.
Qed.

Lemma Matches_dec_false (r : regex) (s : jsstring) :
  test r s = false <-> ~ Matches r s.
Proof.
  rewrite <- test_spec. destruct (test r s); split; intros H; auto.
  - discriminate.
  - exfalso. apply H. reflexivity.
Qed.

End MatcherCorrect.

(** ** The two classifiers *)

Lemma textOf_errorText (error : JsValue) :
  Preflight.textOf error = errorText error.
Proof. reflexivity. Qed.

Lemma classifyFailure_chain (error : JsValue) (text : jsstring) :
  errorText error = Some text ->
  classifyFailure error =
  Some (if test missingBrowserBinaryRe text then "binary-installation-failure"
        else if test connectivityRe text then "connectivity-failure"
        else if test runtimeRe text then "browser-runtime-failure"
        else "application-failure")%string.
Proof.
  intros E. unfold classifyFailure, isMissingBrowserBinaryError. rewrite E.
  destruct (test missingBrowserBinaryRe text); [reflexivity|].
  destruct (test connectivityRe text); [reflexivity|].
  destruct (test runtimeRe text); reflexivity.
Qed.

Lemma classifyBrowserLaunchError_chain (error : JsValue) (text : jsstring) :
  Preflight.textOf error = Some text ->
  Preflight.classifyBrowserLaunchError error =
  Some (if test Preflight.missingBrowserBinaryRe text
        then "binary-installation-failure"
        else if test Preflight.connectivityRe text then "connectivity-failure"
        else if test Preflight.runtimeRe text then "browser-runtime-failure"
        else "unknown-browser-failure")%string.
Proof.
  intros E.
  unfold Preflight.classifyBrowserLaunchError,
    Preflight.looksLikeMissingBrowserBinary.
  rewrite E.
  destruct (test Preflight.missingBrowserBinaryRe text); [reflexivity|].
  destruct (test Preflight.connectivityRe text); [reflexivity|].
  destruct (test Preflight.runtimeRe text); reflexivity.
Qed.

Lemma classifyFailure_throws (error : JsValue) :
  errorText error = None -> classifyFailure error = None.
Proof. intros E. unfold classifyFailure. rewrite E. reflexivity. Qed.

Lemma priorityOrder_of_chain (b c r : regex) (default : string)
    (text : jsstring) :
  PriorityOrder b c r default text
    (Some (if test b text then "binary-installation-failure"
           else if test c text then "connectivity-failure"
           else if test r text then "browser-runtime-failure"
           else default)%string).
Proof.
  unfold PriorityOrder. repeat split.
  - intros Hb. apply test_spec in Hb. rewrite Hb. reflexivity.
  - intros Hb Hc. apply Matches_dec_false in Hb. apply test_spec in Hc.
    rewrite Hb, Hc. reflexivity.
  - intros Hb Hc Hr. apply Matches_dec_false in Hb, Hc. apply test_spec in Hr.
    rewrite Hb, Hc, Hr. reflexivity.
  - intros Hb Hc Hr. apply Matches_dec_false in Hb, Hc, Hr.
    rewrite Hb, Hc, Hr. reflexivity.
Qed.

(** C4. Both classifiers check the binary-installation signatures first, then
    the connectivity signatures, then the runtime-crash signatures, and
    otherwise give their default; a text that matches a binary-installation
    signature is classified binary-installation-failure whatever else it
    matches. *)
Theorem classifiers_priority_order (error : JsValue) (text : jsstring) :
  errorText error = Some text ->
  PriorityOrder missingBrowserBinaryRe connectivityRe runtimeRe
    "application-failure" text (classifyFailure error)
  /\ PriorityOrder Preflight.missingBrowserBinaryRe Preflight.connectivityRe
       Preflight.runtimeRe "unknown-browser-failure" text
       (Preflight.classifyBrowserLaunchError error).
Proof.
  intros E. split.
  - rewrite (classifyFailure_chain _ E). apply priorityOrder_of_chain.
  - rewrite (classifyBrowserLaunchError_chain error E).
    apply priorityOrder_of_chain.
Qed.

Lemma classifiers_priority_order_witness :
  classifyFailure ambiguousError = Some "binary-installation-failure"%string
  /\ Preflight.classifyBrowserLaunchError ambiguousError
     = Some "binary-installation-failure"%string
  /\ test connectivityRe
       (match errorText ambiguousError with Some t => t | None => [] end)
     = true
  /\ test runtimeRe
       (match errorText ambiguousError with Some t => t | None => [] end)
     = true.
Proof.
  destruct (@classifiers_priority_order ambiguousError
              (match errorText ambiguousError with Some t => t | None => [] end)
              eq_refl) as [[Hmain _] [Hpre _]].
  split; [|split; [|split]].
  - apply Hmain. apply test_spec. vm_compute. reflexivity.
  - apply Hpre. apply test_spec. vm_compute. reflexivity.
  - vm_compute. reflexivity.
  - vm_compute. reflexivity.
Defined.

(** C9, as stated, fails: the preflight classifier knows the signature
    "failed to launch browser process", the main classifier does not. *)
Lemma classifiers_disagree :
  classifyFailure launchProcessError = Some "application-failure"%string
  /\ Preflight.classifyBrowserLaunchError launchProcessError
     = Some "binary-installation-failure"%string
  /\ Preflight.classifyBrowserLaunchError launchProcessError
     <> option_map preflightName (classifyFailure launchProcessError).
Proof.
  split; [vm_compute; reflexivity|].
  split; [vm_compute; reflexivity|].
  vm_compute. discriminate.
Qed.

(** Further texts on which the two differ, one per private signature. *)
Example disagree_connection_terminated :
  classifyFailure (JStr (cu "Connection terminated unexpectedly"))
  = Some "browser-runtime-failure"%string
  /\ Preflight.classifyBrowserLaunchError
       (JStr (cu "Connection terminated unexpectedly"))
     = Some "unknown-browser-failure"%string.
Proof. split; vm_compute; reflexivity. Qed.

Example disagree_has_been_closed :
  classifyFailure (JStr (cu "Target page, context or browser has been closed"))
  = Some "application-failure"%string
  /\ Preflight.classifyBrowserLaunchError
       (JStr (cu "Target page, context or browser has been closed"))
     = Some "browser-runtime-failure"%string.
Proof. split; vm_compute; reflexivity. Qed.

Example disagree_no_such_file :
  classifyFailure
    (JStr (cu "ENOENT: No such file or directory, open '/cache/ms-playwright/chromium'"))
  = Some "binary-installation-failure"%string
  /\ Preflight.classifyBrowserLaunchError
       (JStr (cu "ENOENT: No such file or directory, open '/cache/ms-playwright/chromium'"))
     = Some "unknown-browser-failure"%string.
Proof. split; vm_compute; reflexivity. Qed.

Example disagree_browserType_launch :
  classifyFailure (JStr (cu "browserType.launch: Timeout 180000ms exceeded."))
  = Some "browser-runtime-failure"%string
  /\ Preflight.classifyBrowserLaunchError
       (JStr (cu "browserType.launch: Timeout 180000ms exceeded."))
     = Some "unknown-browser-failure"%string.
Proof. split; vm_compute; reflexivity. Qed.

(** C9, amended. On every error whose text matches none of the signatures
    private to one classifier, the two compute the same classification, the
    preflight one writing unknown-browser-failure for application-failure. *)
Theorem classifiers_agree_off_private_signatures
    (error : JsValue) (text : jsstring) :
  errorText error = Some text ->
  ~ Matches mainOnlyRe text ->
  ~ Matches preflightOnlyRe text ->
  Preflight.classifyBrowserLaunchError error
  = option_map preflightName (classifyFailure error).
Proof.
  intros E Hm Hp.
  apply Matches_dec_false in Hm, Hp.
  unfold mainOnlyRe in Hm. unfold preflightOnlyRe in Hp.
  rewrite test_Alt in Hm. apply orb_false_iff in Hm. destruct Hm as [Hm1 Hm].
  rewrite test_Alt in Hm. apply orb_false_iff in Hm. destruct Hm as [Hm2 Hm3].
  rewrite test_Alt in Hp. apply orb_false_iff in Hp. destruct Hp as [Hp1 Hp2].
  rewrite (classifyBrowserLaunchError_chain error E).
  rewrite (classifyFailure_chain _ E).
  assert (Hb : test Preflight.missingBrowserBinaryRe text
               = test missingBrowserBinaryRe text).
  { unfold Preflight.missingBrowserBinaryRe, missingBrowserBinaryRe.
    rewrite !test_Alt, Hm1, Hp1.
    destruct (test (lit "Executable doesn't exist") text),
      (test (lit "browserType.launch: Executable") text),
      (test (lit "please run the following command to download new browsers")
            text),
      (test (lit "browser not found") text); reflexivity. }
  assert (Hc : test Preflight.connectivityRe text = test connectivityRe text).
  { unfold Preflight.connectivityRe, connectivityRe.
    rewrite !test_Alt.
    destruct (test (lit "ECONNREFUSED") text),
      (test (lit "ERR_CONNECTION") text),
      (test (lit "ERR_EMPTY_RESPONSE") text),
      (test (lit "Navigation timeout") text); reflexivity. }
  assert (Hr : test Preflight.runtimeRe text = test runtimeRe text).
  { unfold Preflight.runtimeRe, runtimeRe.
    rewrite !test_Alt, Hm2, Hm3, Hp2.
    destruct (test (lit "TargetClosedError") text),
      (test (lit "crash") text),
      (test (lit "SIGSEGV") text); reflexivity. }
  rewrite Hb, Hc, Hr.
  destruct (test missingBrowserBinaryRe text); [reflexivity|].
  destruct (test connectivityRe text); [reflexivity|].
  destruct (test runtimeRe text); reflexivity.
Qed.

Lemma classifiers_agree_off_private_signatures_witness :
  Preflight.classifyBrowserLaunchError pageCrashError
  = Some "browser-runtime-failure"%string
  /\ classifyFailure pageCrashError = Some "browser-runtime-failure"%string.
Proof.
  split.
  - rewrite (@classifiers_agree_off_private_signatures pageCrashError
               (match errorText pageCrashError with Some t => t | None => [] end)
               eq_refl).
    + vm_compute. reflexivity.
    + apply Matches_dec_false. vm_compute. reflexivity.
    + apply Matches_dec_false. vm_compute. reflexivity.
  - vm_compute. reflexivity.
Defined.

(** ** Totality of [classifyFailure] *)

(** C10, as stated, fails: on an object whose conversion to a string throws,
    [classifyFailure] throws. *)
Lemma classifyFailure_throws_on_bare_object :
  classifyFailure bareObject = None.
Proof. reflexivity. Qed.

(** Values on which [errorText] cannot throw: everything but an object that
    has to be converted itself and cannot be. *)
Lemma errorText_primitive (error : JsValue) :
  match error with JObj _ _ _ _ => False | _ => True end ->
  errorText error <> None.
Proof.
  destruct error as [| |b|z|s|? ? ? ?]; intros H; try contradiction;
    unfold errorText; simpl; try discriminate.
  - destruct b; discriminate.
  - unfold Js.or_; simpl. destruct (negb (z =? 0)%Z); discriminate.
  - destruct s; discriminate.
Qed.

Lemma errorText_plain_object (st m c : JsValue) (str : jsstring) :
  match st with JObj _ _ _ _ => False | _ => True end ->
  match m with JObj _ _ _ _ => False | _ => True end ->
  errorText (JObj st m c (Some str)) <> None.
Proof.
  intros Hs Hm. unfold errorText, Js.or_; simpl.
  destruct (Js.truthy st) eqn:Ts.
  - destruct st as [| |[]| | |]; try contradiction; discriminate.
  - destruct (Js.truthy m) eqn:Tm.
    + destruct m as [| |[]| | |]; try contradiction; discriminate.
    + discriminate.
Qed.

(** C10, amended. Whenever the string conversion inside [errorText] does not
    throw, [classifyFailure] returns exactly one of its four classes and
    never the initial value unknown. *)
Theorem classifyFailure_total_when_convertible (error : JsValue) :
  errorText error <> None ->
  exists c, classifyFailure error = Some c
            /\ In c failureClasses /\ c <> "unknown"%string.
Proof.
  intros H. destruct (errorText error) as [text|] eqn:E; [|contradiction].
  rewrite (classifyFailure_chain _ E). unfold failureClasses.
  destruct (test missingBrowserBinaryRe text);
    [eexists; repeat split; [simpl; auto|discriminate]|].
  destruct (test connectivityRe text);
    [eexists; repeat split; [simpl; auto|discriminate]|].
  destruct (test runtimeRe text);
    eexists; repeat split; try (simpl; auto 6); discriminate.
Qed.

Lemma classifyFailure_total_when_convertible_witness :
  errorText plainObject <> None
  /\ exists c, classifyFailure plainObject = Some c
               /\ In c failureClasses /\ c <> "unknown"%string.
Proof.
  split.
  - vm_compute. discriminate.
  - apply (@classifyFailure_total_when_convertible plainObject).
    vm_compute. discriminate.
Defined.

Example classifyFailure_null :
  classifyFailure JNull = Some "application-failure"%string
  /\ classifyFailure JUndefined = Some "application-failure"%string
  /\ classifyFailure (JStr (cu "net::ERR_EMPTY_RESPONSE"))
     = Some "connectivity-failure"%string
  /\ classifyFailure plainObject = Some "application-failure"%string.
Proof. repeat split; vm_compute; reflexivity. Qed.

(** ** Reasoning about computations *)

Section Wp.

Context {S : Type}.

Lemma wp_ret {A} (a : A) Q (s : S) : Q (Normal a) s -> wp (ret a) Q s.
Proof. exact (fun H => H). Qed.

Lemma wp_throw {A} (e : JsValue) (Q : Completion A -> S -> Prop) (s : S) :
  Q (Throw e) s -> wp (throw e) Q s.
Proof. exact (fun H => H). Qed.

Lemma wp_get Q (s : S) : Q (Normal s) s -> wp get Q s.
Proof. exact (fun H => H). Qed.

Lemma wp_modify (f : S -> S) Q (s : S) :
  Q (Normal tt) (f s) -> wp (modify f) Q s.
Proof. exact (fun H => H). Qed.

Lemma wp_bind {A B} (m : M S A) (f : A -> M S B) Q (s : S) :
  wp m (fun c s' => match c with
                    | Normal a => wp (f a) Q s'
                    | Throw e => Q (Throw e) s'
                    end) s ->
  wp (bind m f) Q s.
Proof.
  unfold wp, bind. destruct (m s) as [[a|e] s']; simpl; auto.
Qed.

Lemma wp_tryCatch {A} (m : M S A) (h : JsValue -> M S A) Q (s : S) :
  wp m (fun c s' => match c with
                    | Normal a => Q (Normal a) s'
                    | Throw e => wp (h e) Q s'
                    end) s ->
  wp (tryCatch m h) Q s.
Proof.
  unfold wp, tryCatch. destruct (m s) as [[a|e] s']; simpl; auto.
Qed.

Lemma wp_finally {A} (m : M S A) (f : M S unit) Q (s : S) :
  wp m (fun c s' =>
          wp f (fun c' s'' => match c' with
                              | Normal _ => Q c s''
                              | Throw e => Q (Throw e) s''
                              end) s') s ->
  wp (finally m f) Q s.
Proof.
  unfold wp, finally. destruct (m s) as [c s']; simpl.
  destruct (f s') as [[u|e] s'']; simpl; auto.
Qed.

Lemma wp_mono {A} (m : M S A) (Q Q' : Completion A -> S -> Prop) (s : S) :
  wp m Q s -> (forall c s', Q c s' -> Q' c s') -> wp m Q' s.
Proof. unfold wp. auto. Qed.

Lemma wp_await (o : Outcome) Q (s : S) :
  (o = Resolves -> Q (Normal tt) s) ->
  (forall e, o = Rejects e -> Q (Throw e) s) ->
  wp (await o) Q s.
Proof. destruct o; unfold wp; simpl; auto. Qed.

Lemma preserves_ret {A} (I : S -> Prop) (a : A) : preserves I (ret a).
Proof. intros s H. exact H. Qed.

Lemma preserves_throw {A} (I : S -> Prop) (e : JsValue) : preserves I (@throw S A e).
Proof. intros s H. exact H. Qed.

Lemma preserves_get (I : S -> Prop) : preserves I (@get S).
Proof. intros s H. exact H. Qed.

Lemma preserves_modify (I : S -> Prop) (f : S -> S) :
  (forall s, I s -> I (f s)) -> preserves I (modify f).
Proof. intros Hf s H. apply Hf, H. Qed.

Lemma preserves_await (I : S -> Prop) (o : Outcome) : preserves I (@await S o).
Proof. intros s H. destruct o; exact H. Qed.

Lemma preserves_bind {A B} (I : S -> Prop) (m : M S A) (f : A -> M S B) :
  preserves I m -> (forall a, preserves I (f a)) -> preserves I (bind m f).
Proof.
  intros Hm Hf s H. unfold bind. specialize (Hm s H).
  destruct (m s) as [[a|e] s']; simpl in *; [apply Hf, Hm|exact Hm].
Qed.

Lemma preserves_tryCatch {A} (I : S -> Prop) (m : M S A) (h : JsValue -> M S A) :
  preserves I m -> (forall e, preserves I (h e)) -> preserves I (tryCatch m h).
Proof.
  intros Hm Hh s H. unfold tryCatch. specialize (Hm s H).
  destruct (m s) as [[a|e] s']; simpl in *; [exact Hm|apply Hh, Hm].
Qed.

Lemma preserves_finally {A} (I : S -> Prop) (m : M S A) (f : M S unit) :
  preserves I m -> preserves I f -> preserves I (finally m f).
Proof.
  intros Hm Hf s H. unfold finally. specialize (Hm s H).
  destruct (m s) as [c s']; simpl in *. specialize (Hf s' Hm).
  destruct (f s') as [[u|e] s'']; simpl in *; exact Hf.
Qed.

Lemma preserves_wp {A} (I : S -> Prop) (m : M S A) (s : S) :
  preserves I m -> I s -> wp m (fun _ s' => I s') s.
Proof. intros Hm H. apply Hm, H. Qed.

End Wp.

Lemma preserves_orThrow {S A} (w : World) I (site : Site) (o : option A) :
  preserves I (@orThrow w S A site o).
Proof. intros s H. destruct o; exact H. Qed.

Lemma wp_orThrow {S A} (w : World) (site : Site) (o : option A) Q (s : S) :
  (forall a, o = Some a -> Q (Normal a) s) ->
  (o = None -> Q (Throw (conversionError w site)) s) ->
  wp (orThrow w site o) Q s.
Proof. destruct o; unfold wp; simpl; auto. Qed.

(** Decomposition of a computation that keeps an invariant, one construct
    at a time. *)
Ltac preserves_step :=
  match goal with
  | |- preserves _ (bind _ _) => apply preserves_bind; [|intro]
  | |- preserves _ (tryCatch _ _) => apply preserves_tryCatch; [|intro]
  | |- preserves _ (finally _ _) => apply preserves_finally
  | |- preserves _ (ret _) => apply preserves_ret
  | |- preserves _ (throw _) => apply preserves_throw
  | |- preserves _ get => apply preserves_get
  | |- preserves _ (await _) => apply preserves_await
  | |- preserves _ (orThrow _ _ _) => apply preserves_orThrow
  | |- preserves _ (modify _) =>
      apply preserves_modify; let d := fresh "d" in
                              let H := fresh "H" in
                              intros d H; exact H
  | |- preserves _ (if ?b then _ else _) => destruct b
  | |- preserves _ (match ?x with _ => _ end) => destruct x
  end.

Ltac preserves_tac := repeat preserves_step.

(** ** What the helpers touch *)

Ltac footprint :=
  unfold stable in *; preserves_tac;
  try solve [auto | apply preserves_modify; intros; cbv beta; auto].

Section Footprints.

Variable w : World.
Variable I : Diagnostics -> Prop.

Lemma startServer_preserves :
  stable I set_serverSelectedHost -> preserves I (startServer w).
Proof. intros H. unfold startServer. footprint. Qed.

Lemma resolvePlaywright_preserves :
  stable I set_classification -> stable I set_result ->
  preserves I (resolvePlaywright w).
Proof. intros H1 H2. unfold resolvePlaywright. footprint. Qed.

Lemma detectBrowserExecutables_preserves (call : nat) :
  stable I set_binaryChecks -> preserves I (detectBrowserExecutables w call).
Proof. intros H. unfold detectBrowserExecutables. footprint. Qed.

Lemma runPlaywrightInstall_preserves :
  stable I set_installAttempt -> preserves I (runPlaywrightInstall w).
Proof. intros H. unfold runPlaywrightInstall. footprint. Qed.

Lemma launchCandidates_preserves (candidates : list BrowserName) :
  stable I set_browserAttempts -> stable I set_browserLaunchErrors ->
  stable I set_classification -> stable I set_result ->
  preserves I (launchCandidates w candidates).
Proof.
  intros H1 H2 H3 H4.
  induction candidates as [|candidate rest IH]; simpl.
  - apply preserves_ret.
  - apply preserves_bind.
    + footprint.
    + intros [|]; [apply preserves_ret|exact IH].
Qed.

Lemma launchBrowser_preserves :
  stable I set_browserAttempts -> stable I set_browserLaunchErrors ->
  stable I set_classification -> stable I set_result ->
  preserves I (launchBrowser w).
Proof. intros. apply launchCandidates_preserves; assumption. Qed.

Lemma runSanity_preserves :
  stable I set_sanityScreenshot -> preserves I (runSanity w).
Proof. intros H. unfold runSanity. footprint. Qed.

Lemma gotoWithRetryFrom_preserves (url : jsstring) (remaining : nat) :
  stable I set_navigationAttempts -> stable I set_navigationErrors ->
  forall (lastError : JsValue) (i : nat),
    preserves I (gotoWithRetryFrom w url lastError i remaining).
Proof.
  intros H1 H2.
  induction remaining as [|remaining IH]; intros lastError i; simpl.
  - apply preserves_throw.
  - apply preserves_bind.
    + footprint.
    + intros [error|]; [apply IH|apply preserves_ret].
Qed.

Lemma gotoWithRetry_preserves (url : jsstring) (attempts : nat) :
  stable I set_navigationAttempts -> stable I set_navigationErrors ->
  preserves I (gotoWithRetry w url attempts).
Proof. intros. apply gotoWithRetryFrom_preserves; assumption. Qed.

Lemma pushStrategyAttempt_stable (s : Strategy) (target : jsstring) :
  stable I set_navigationStrategyAttempts ->
  preserves I (pushStrategyAttempt s target).
Proof. intros H. unfold pushStrategyAttempt. footprint. Qed.

End Footprints.

(** ** The navigation engine *)

Section Navigation.

Variable w : World.

Section NavigationFootprint.

Variable I : Diagnostics -> Prop.
Hypothesis I_attempts : stable I set_navigationAttempts.
Hypothesis I_errors : stable I set_navigationErrors.
Hypothesis I_strategyAttempt :
  forall s target, preserves I (pushStrategyAttempt s target).
Hypothesis I_fallback : forall f, preserves I (pushFallback f).
Hypothesis I_used :
  forall s, s <> HTTP -> forall d, I d -> I (set_navigationStrategyUsed (Some s) d).

Lemma tryFileStrategy_preserves : preserves I (tryFileStrategy w).
Proof.
  unfold tryFileStrategy. apply preserves_bind; [apply I_strategyAttempt|].
  intros _. apply preserves_bind.
  - apply gotoWithRetry_preserves; assumption.
  - intros _. apply preserves_modify. apply I_used. discriminate.
Qed.

Lemma tryInlineStrategy_preserves : preserves I (tryInlineStrategy w).
Proof.
  unfold tryInlineStrategy. apply preserves_bind; [apply preserves_await|].
  intros _. apply preserves_bind; [apply I_strategyAttempt|].
  intros _. apply preserves_bind; [apply preserves_await|].
  intros _. apply preserves_modify. apply I_used. discriminate.
Qed.

Lemma fileThenInline_preserves : preserves I (fileThenInline w).
Proof.
  apply preserves_tryCatch; [apply tryFileStrategy_preserves|].
  intros error. apply preserves_bind; [apply preserves_orThrow|].
  intros text. apply preserves_bind; [apply I_fallback|].
  intros _. apply tryInlineStrategy_preserves.
Qed.

End NavigationFootprint.

(** Whatever [gotoWithRetry] throws has a text. *)
Lemma gotoWithRetryFrom_throws_text (url : jsstring) (remaining : nat) :
  forall (lastError : JsValue) (i : nat) (d d' : Diagnostics) (e : JsValue),
    errorText lastError <> None ->
    gotoWithRetryFrom w url lastError i remaining d = (Throw e, d') ->
    errorText e <> None.
Proof.
  induction remaining as [|remaining IH]; intros lastError i d d' e Hlast H.
  - simpl in H. injection H as <- _. exact Hlast.
  - simpl in H. unfold bind, tryCatch, modify, await, ret in H.
    destruct (pageGoto w url i) as [|error]; simpl in H.
    + discriminate.
    + unfold orThrow in H. destruct (errorText error) as [text|] eqn:E;
        simpl in H.
      * eapply IH; [|exact H]. rewrite E. discriminate.
      * injection H as <- _. vm_compute. discriminate.
Qed.

Lemma tryHttpStrategy_throws_text (baseUrl : jsstring) (d d' : Diagnostics)
    (e : JsValue) :
  tryHttpStrategy w baseUrl d = (Throw e, d') -> errorText e <> None.
Proof.
  unfold tryHttpStrategy, gotoWithRetry, pushStrategyAttempt, bind, modify.
  intros H.
  destruct (gotoWithRetryFrom w baseUrl JNull 0 3 _) as [[u|e'] d1] eqn:G.
  - discriminate.
  - injection H as <- _.
    eapply gotoWithRetryFrom_throws_text; [|exact G]. vm_compute. discriminate.
Qed.

(** What [tryHttpStrategy] leaves in the log of strategy attempts and in
    [navigationStrategyUsed]. *)
Lemma tryHttpStrategy_log (baseUrl : jsstring) (d : Diagnostics) :
  navigationStrategyAttempts (snd (tryHttpStrategy w baseUrl d))
  = navigationStrategyAttempts d ++ [(HTTP, baseUrl)]
  /\ navigationFallbacks (snd (tryHttpStrategy w baseUrl d))
     = navigationFallbacks d
  /\ match fst (tryHttpStrategy w baseUrl d) with
     | Normal _ =>
         navigationStrategyUsed (snd (tryHttpStrategy w baseUrl d)) = Some HTTP
     | Throw _ =>
         navigationStrategyUsed (snd (tryHttpStrategy w baseUrl d))
         = navigationStrategyUsed d
     end.
Proof.
  unfold tryHttpStrategy, pushStrategyAttempt, bind, modify. cbv beta iota.
  set (d1 := set_navigationStrategyAttempts
               (navigationStrategyAttempts d ++ [(HTTP, baseUrl)]) d).
  pose proof (@gotoWithRetry_preserves w
                (fun x => navigationStrategyAttempts x
                          = navigationStrategyAttempts d ++ [(HTTP, baseUrl)]
                          /\ navigationFallbacks x = navigationFallbacks d
                          /\ navigationStrategyUsed x = navigationStrategyUsed d)
                baseUrl 3) as G.
  specialize (G ltac:(intros v x H; exact H) ltac:(intros v x H; exact H) d1).
  specialize (G ltac:(repeat split; reflexivity)).
  destruct (gotoWithRetry w baseUrl 3 d1) as [[u|e] d2]; simpl in *.
  - destruct G as (G1 & G2 & G3). repeat split; try assumption; reflexivity.
  - exact G.
Qed.

(** Once the FILE step starts, FILE is the next strategy attempt logged. *)
Lemma fileThenInline_attempts (d : Diagnostics) :
  exists rest,
    navigationStrategyAttempts (snd (fileThenInline w d))
    = navigationStrategyAttempts d ++ (FILE, fileUrl w) :: rest.
Proof.
  set (d1 := set_navigationStrategyAttempts
               (navigationStrategyAttempts d ++ [(FILE, fileUrl w)]) d).
  set (I := fun x : Diagnostics =>
              exists rest, navigationStrategyAttempts x
                           = navigationStrategyAttempts d
                             ++ (FILE, fileUrl w) :: rest).
  assert (HI : forall s target, preserves I (pushStrategyAttempt s target)).
  { intros s target. unfold pushStrategyAttempt. apply preserves_modify.
    intros x [rest Hx]. exists (rest ++ [(s, target)]). simpl. rewrite Hx.
    rewrite <- app_assoc. reflexivity. }
  change (I (snd (tryCatch
                    (gotoWithRetry w (fileUrl w) 2 ;;
                     modify (set_navigationStrategyUsed (Some FILE)))
                    (fun error =>
                       text <- orThrow w SiteFileFallback (errorText error) ;;
                       pushFallback (mkFallback FILE INLINE text) ;;
                       tryInlineStrategy w) d1))).
  apply preserves_tryCatch.
  - apply preserves_bind.
    + apply gotoWithRetry_preserves; intros v x H; exact H.
    + intros _. apply preserves_modify. intros x H; exact H.
  - intros error. apply preserves_bind; [apply preserves_orThrow|].
    intros text. apply preserves_bind.
    + unfold pushFallback. apply preserves_modify. intros x H; exact H.
    + intros _. apply tryInlineStrategy_preserves.
      * exact HI.
      * intros s _ x H; exact H.
  - exists []. reflexivity.
Qed.

Lemma navigate_http_returns (baseUrl : jsstring) (d d1 : Diagnostics) (u : unit) :
  allowHttp w = true -> baseUrl <> [] ->
  tryHttpStrategy w baseUrl (set_navigationHttpOptIn (Some true) d)
  = (Normal u, d1) ->
  navigateWithFallback w baseUrl d = (Normal tt, d1).
Proof.
  intros Hallow Hurl T. unfold navigateWithFallback. rewrite Hallow.
  destruct baseUrl as [|c r]; [contradiction|]. cbn [andb Js.truthy].
  unfold bind, tryCatch, modify. rewrite T. reflexivity.
Qed.

Lemma navigate_http_throws (baseUrl : jsstring) (d d1 : Diagnostics)
    (e : JsValue) (text : jsstring) :
  allowHttp w = true -> baseUrl <> [] ->
  tryHttpStrategy w baseUrl (set_navigationHttpOptIn (Some true) d)
  = (Throw e, d1) ->
  errorText e = Some text ->
  navigateWithFallback w baseUrl d
  = let d2 := set_navigationFallbacks
                (navigationFallbacks d1 ++ [mkFallback HTTP FILE text]) d1 in
    if test httpReachabilityRe text then (fileThenInline w) d2
    else (Throw e, d2).
Proof.
  intros Hallow Hurl T E. unfold navigateWithFallback. rewrite Hallow.
  destruct baseUrl as [|c r]; [contradiction|]. cbn [andb Js.truthy].
  unfold bind, tryCatch, modify. rewrite T.
  unfold isHttpReachabilityError. rewrite E. unfold orThrow, ret, pushFallback, modify.
  cbv beta iota zeta.
  destruct (test httpReachabilityRe text); reflexivity.
Qed.

(** C8. When HTTP is attempted and [tryHttpStrategy] ends with an error that
    [isHttpReachabilityError] rejects, [navigateWithFallback] throws that very
    error and logs no attempt after the HTTP one, so FILE is not tried; FILE
    is tried after HTTP exactly when the error is a reachability error; and
    when HTTP succeeds the engine returns at once. *)
Theorem http_error_propagates_unless_reachability
    (baseUrl : jsstring) (d : Diagnostics) :
  allowHttp w = true -> baseUrl <> [] -> HttpOutcome w baseUrl d.
Proof.
  intros Hallow Hurl. unfold HttpOutcome.
  pose proof (tryHttpStrategy_log baseUrl
                (set_navigationHttpOptIn (Some true) d)) as (La & Lf & Lu).
  destruct (tryHttpStrategy w baseUrl (set_navigationHttpOptIn (Some true) d))
    as [[u|e] d1] eqn:T; simpl in La, Lf, Lu.
  - split; [|exact La]. eapply navigate_http_returns; eassumption.
  - pose proof (@tryHttpStrategy_throws_text _ _ _ _ T) as Htext.
    destruct (errorText e) as [text|] eqn:E; [|contradiction].
    exists text, (test httpReachabilityRe text).
    split; [reflexivity|].
    split; [unfold isHttpReachabilityError; rewrite E; reflexivity|].
    rewrite (navigate_http_throws d Hallow Hurl T E). cbv zeta.
    destruct (test httpReachabilityRe text).
    + split; [reflexivity|].
      destruct (fileThenInline_attempts
                  (set_navigationFallbacks
                     (navigationFallbacks d1 ++ [mkFallback HTTP FILE text]) d1))
        as [rest Hrest].
      exists rest. rewrite Hrest. simpl. rewrite La.
      rewrite <- app_assoc. reflexivity.
    + repeat split; simpl; assumption.
Qed.

End Navigation.

Lemma hd_error_app_nonempty {A} (l : list A) (x y : A) :
  hd_error l = Some x -> hd_error (l ++ [y]) = Some x.
Proof. destruct l; simpl; [discriminate|auto]. Qed.

Lemma navigateWithFallback_file_safe (w : World) (baseUrl : jsstring)
    (d : Diagnostics) :
  allowHttp w = false ->
  NotNavigated d ->
  NavigatedFileSafe (snd (navigateWithFallback w baseUrl d)).
Proof.
  intros Hallow [Hnil Hused].
  unfold navigateWithFallback. rewrite Hallow. simpl andb. cbv iota.
  unfold bind at 1. unfold modify at 1.
  unfold bind at 1. unfold bind at 1. unfold pushFallback at 1.
  unfold modify at 1. unfold ret at 1. cbv iota beta.
  pose proof (@fileThenInline_preserves w NavigatedFileSafe) as HP.
  unfold preserves at 3 in HP. unfold fileThenInline in HP. apply HP.
  - intros v x H; exact H.
  - intros v x H; exact H.
  - intros s target. unfold pushStrategyAttempt. apply preserves_modify.
    intros x H; exact H.
  - intros f. unfold pushFallback. apply preserves_modify.
    intros x [H1 H2]. split; [|exact H2].
    simpl. apply hd_error_app_nonempty. exact H1.
  - intros s Hs x [H1 H2]. split; [exact H1|].
    simpl. intros E. injection E as E. contradiction.
  - split; simpl.
    + rewrite Hnil. reflexivity.
    + exact Hused.
Qed.

(** ** The run as a whole *)

Lemma exitMatrix_failed (b : bool) : ExitMatrix "failed" b (Some 1).
Proof.
  split; split; intros H; try discriminate; auto.
  destruct H as [H|[H _]]; discriminate.
Qed.

Lemma exitMatrix_passed (b : bool) : ExitMatrix "passed" b (Some 0).
Proof.
  split; split; intros H; try discriminate; auto.
  destruct H as [H|[H _]]; discriminate.
Qed.

Lemma exitMatrix_skipped (b : bool) :
  ExitMatrix "skipped" b (Some (if b then 1 else 0)).
Proof.
  destruct b; split; split; intros H; try discriminate; auto;
    destruct H as [H|[_ H]]; discriminate.
Qed.

Lemma wp_liftD {A} (m : D A) (Q : Completion A -> MainState -> Prop)
    (st : MainState) :
  wp m (fun c d => Q c (mkMainState d (finalLine st) (processExitCode st)
                                    (diagnosticsFile st) (stdout st)))
     (diagnostics st) ->
  wp (liftD m) Q st.
Proof.
  unfold wp, liftD. destruct (m (diagnostics st)) as [c d]. auto.
Qed.

Lemma wp_conclude (status c : string) (det : Details) (ex : nat)
    (Q : Completion unit -> MainState -> Prop) (st : MainState) :
  (let d' := set_classification c (set_result status (diagnostics st)) in
   let line := mkFinalLine status c "npx playwright install" det in
   Q (Normal tt)
     (mkMainState d' (Some line) (Some ex) (Some d')
                  (stdout st ++ [Summary line]))) ->
  wp (conclude status c det ex) Q st.
Proof. exact (fun H => H). Qed.

Lemma summaries_app (a b : list StdoutLine) :
  summaries (a ++ b) = summaries a ++ summaries b.
Proof. unfold summaries. apply flat_map_app. Qed.

Section Walk.

Variable w : World.
Variable strictMode : bool.

(** [Before] holds of the record until navigation starts, [After] from then
    on; both are untouched by what the rest of the run writes. *)
Variables Before After : Diagnostics -> Prop.

Hypothesis Before_classification : stable Before set_classification.
Hypothesis Before_result : stable Before set_result.
Hypothesis Before_binaryChecks : stable Before set_binaryChecks.
Hypothesis Before_installAttempt : stable Before set_installAttempt.
Hypothesis Before_serverSelectedHost : stable Before set_serverSelectedHost.
Hypothesis Before_browserAttempts : stable Before set_browserAttempts.
Hypothesis Before_browserLaunchErrors : stable Before set_browserLaunchErrors.
Hypothesis Before_browserUsed : stable Before set_browserUsed.
Hypothesis Before_sanityScreenshot : stable Before set_sanityScreenshot.
Hypothesis Before_baseUrl : stable Before set_baseUrl.
Hypothesis After_classification : stable After set_classification.
Hypothesis After_result : stable After set_result.
Hypothesis After_error : stable After set_error.
Hypothesis Before_After : forall d, Before d -> After d.
Hypothesis runAppScreenshot_After :
  forall baseUrl d, Before d -> strict d = strictMode ->
    After (snd (runAppScreenshot w baseUrl d))
    /\ strict (snd (runAppScreenshot w baseUrl d)) = strictMode.

Lemma InvBefore_InvAfter d : (InvBefore strictMode Before) d -> (InvAfter strictMode After) d.
Proof. intros [H1 H2]. split; auto. Qed.

(** A helper that keeps [(InvBefore strictMode Before)], run through [liftD]. *)
Lemma wp_liftD_before {A} (m : D A) (Q : Completion A -> MainState -> Prop)
    (st : MainState) :
  preserves (InvBefore strictMode Before) m ->
  (InvBefore strictMode Before) (diagnostics st) ->
  (forall c d, (InvBefore strictMode Before) d ->
     Q c (mkMainState d (finalLine st) (processExitCode st)
                      (diagnosticsFile st) (stdout st))) ->
  wp (liftD m) Q st.
Proof.
  intros Hm Hd HQ. apply wp_liftD. unfold wp. apply HQ. apply Hm, Hd.
Qed.

Lemma concluded_after_conclude (status c : string) (det : Details) (ex : nat)
    (st : MainState) :
  Unconcluded st ->
  In status ["passed"; "failed"; "skipped"]%string ->
  ExitMatrix status strictMode (Some ex) ->
  Concluded strictMode
    (mkMainState (set_classification c (set_result status (diagnostics st)))
       (Some (mkFinalLine status c "npx playwright install" det)) (Some ex)
       (Some (set_classification c (set_result status (diagnostics st))))
       (stdout st ++ [Summary (mkFinalLine status c "npx playwright install" det)])).
Proof.
  intros [Hf Hs] Hin Hex. eexists. simpl.
  repeat split; try reflexivity; try assumption.
  - rewrite summaries_app, Hs. reflexivity.
  - apply Hex.
  - apply Hex.
  - apply Hex.
  - apply Hex.
Qed.


Lemma stable_InvBefore {V} (set : V -> Diagnostics -> Diagnostics) :
  (forall v d, strict (set v d) = strict d) ->
  stable Before set -> stable (InvBefore strictMode Before) set.
Proof.
  intros Hs H v d [H1 H2]. split; [rewrite Hs; exact H1|apply H, H2].
Qed.

Lemma stable_InvAfter {V} (set : V -> Diagnostics -> Diagnostics) :
  (forall v d, strict (set v d) = strict d) ->
  stable After set -> stable (InvAfter strictMode After) set.
Proof.
  intros Hs H v d [H1 H2]. split; [rewrite Hs; exact H1|apply H, H2].
Qed.

Lemma unconcluded_sameProcess (st st' : MainState) :
  Unconcluded st -> sameProcess st st' -> Unconcluded st'.
Proof.
  intros [H1 H2] (E1 & _ & _ & E4). split; [rewrite E1|rewrite E4]; assumption.
Qed.

Lemma wp_liftD_frame {A} (I : Diagnostics -> Prop) (m : D A)
    (Q : Completion A -> MainState -> Prop) (st : MainState) :
  preserves I m ->
  I (diagnostics st) ->
  (forall c st', I (diagnostics st') -> sameProcess st st' -> Q c st') ->
  wp (liftD m) Q st.
Proof.
  intros Hm Hd HQ. apply wp_liftD. unfold wp. apply HQ.
  - apply Hm, Hd.
  - repeat split.
Qed.

Ltac stableBefore :=
  apply stable_InvBefore; [intros; reflexivity|assumption].
Ltac stableAfter :=
  apply stable_InvAfter; [intros; reflexivity|assumption].

Lemma InvBefore_conclude (status c : string) (d : Diagnostics) :
  (InvBefore strictMode Before) d -> (InvBefore strictMode Before) (set_classification c (set_result status d)).
Proof.
  intros H. apply (@stable_InvBefore _ set_classification);
    [intros; reflexivity|assumption|].
  apply (@stable_InvBefore _ set_result);
    [intros; reflexivity|assumption|]. exact H.
Qed.

Lemma InvAfter_conclude (status c : string) (d : Diagnostics) :
  (InvAfter strictMode After) d -> (InvAfter strictMode After) (set_classification c (set_result status d)).
Proof.
  intros H. apply (@stable_InvAfter _ set_classification);
    [intros; reflexivity|assumption|].
  apply (@stable_InvAfter _ set_result);
    [intros; reflexivity|assumption|]. exact H.
Qed.

Lemma exitMatrix_at (status : string) (ex : nat) (d : Diagnostics) :
  (InvBefore strictMode Before) d \/ (InvAfter strictMode After) d ->
  (status = "failed"%string /\ ex = 1)
  \/ (status = "passed"%string /\ ex = 0)
  \/ (status = "skipped"%string /\ ex = if strict d then 1 else 0) ->
  In status ["passed"; "failed"; "skipped"]%string
  /\ ExitMatrix status strictMode (Some ex).
Proof.
  intros Hd H.
  assert (Hs : strict d = strictMode) by (destruct Hd as [[? _]|[? _]]; auto).
  destruct H as [[-> ->]|[[-> ->]|[-> ->]]].
  - split; [simpl; auto|apply exitMatrix_failed].
  - split; [simpl; auto|apply exitMatrix_passed].
  - split; [simpl; auto|]. rewrite Hs. apply exitMatrix_skipped.
Qed.

(** The state after [conclude], seen from a state without conclusion. *)
Lemma wp_conclude_first (status c : string) (det : Details) (ex : nat)
    (Q : Completion unit -> MainState -> Prop) (st : MainState) :
  Unconcluded st ->
  (InvBefore strictMode Before) (diagnostics st) \/ (InvAfter strictMode After) (diagnostics st) ->
  (status = "failed"%string /\ ex = 1)
  \/ (status = "passed"%string /\ ex = 0)
  \/ (status = "skipped"%string
      /\ ex = if strict (diagnostics st) then 1 else 0) ->
  (forall st',
     diagnostics st'
     = set_classification c (set_result status (diagnostics st)) ->
     Concluded strictMode st' -> Q (Normal tt) st') ->
  wp (conclude status c det ex) Q st.
Proof.
  intros Hun Hinv Hex HQ. apply wp_conclude. cbv zeta. apply HQ.
  - reflexivity.
  - destruct (exitMatrix_at Hinv Hex) as [Hin Hm].
    apply concluded_after_conclude; assumption.
Qed.

Ltac conclude_case :=
  match goal with
  | |- (_ = "failed"%string /\ _) \/ _ => left; split; reflexivity
  | |- _ \/ (_ = "passed"%string /\ _) \/ _ =>
      right; left; split; reflexivity
  | |- _ \/ _ \/ (_ = "skipped"%string /\ _) =>
      right; right; split; [reflexivity|]
  end.

Lemma mainHead_spec (st : MainState) :
  (InvBefore strictMode Before) (diagnostics st) -> Unconcluded st ->
  wp (mainHead w) (HeadPost strictMode Before) st.
Proof.
  intros Hinv Hun. unfold mainHead.
  apply wp_bind.
  apply (@wp_liftD_frame _ (InvBefore strictMode Before)); [|exact Hinv|].
  { apply resolvePlaywright_preserves; stableBefore. }
  intros c st1 Hinv1 Hsame1.
  pose proof (unconcluded_sameProcess Hun Hsame1) as Hun1.
  destruct c as [[|]|e]; cbn [negb]; cbv iota.
  - apply wp_bind, wp_get.
    destruct (envSkipBrowserDownload (diagnostics st1)).
    + apply wp_bind.
      apply wp_conclude_first; [assumption|auto| |].
      { right; right; split; reflexivity. }
      intros st' Hd Hc. apply wp_ret. split; [|exact Hc].
      rewrite Hd. apply InvBefore_conclude, Hinv1.
    + apply wp_bind.
      apply (@wp_liftD_frame _ (InvBefore strictMode Before)); [|exact Hinv1|].
      { apply detectBrowserExecutables_preserves; stableBefore. }
      intros c st2 Hinv2 Hsame2.
      pose proof (unconcluded_sameProcess Hun1 Hsame2) as Hun2.
      destruct c as [[|]|e]; cbn [negb]; cbv iota.
      * apply wp_ret. split; assumption.
      * apply wp_bind.
        apply (@wp_liftD_frame _ (InvBefore strictMode Before)); [|exact Hinv2|].
        { apply runPlaywrightInstall_preserves; stableBefore. }
        intros c st3 Hinv3 Hsame3.
        pose proof (unconcluded_sameProcess Hun2 Hsame3) as Hun3.
        destruct c as [[ok blocked_]|e]; cbn [fst snd]; cbv iota.
        -- destruct ok; cbn [negb]; cbv iota.
           ++ apply wp_bind.
              apply (@wp_liftD_frame _ (InvBefore strictMode Before)); [|exact Hinv3|].
              { apply detectBrowserExecutables_preserves; stableBefore. }
              intros c st4 Hinv4 Hsame4.
              pose proof (unconcluded_sameProcess Hun3 Hsame4) as Hun4.
              destruct c as [[|]|e]; cbn [negb]; cbv iota.
              ** apply wp_ret. split; assumption.
              ** apply wp_bind, wp_get. cbv zeta.
                 destruct (ci (diagnostics st4) && negb (strict (diagnostics st4)))
                   eqn:Hci.
                 --- apply wp_bind.
                     apply wp_conclude_first; [assumption|auto| |].
                     { right; right; split; [reflexivity|].
                       apply andb_true_iff in Hci. destruct Hci as [_ Hci].
                       apply negb_true_iff in Hci. rewrite Hci. reflexivity. }
                     intros st' Hd Hc. apply wp_ret. split; [|exact Hc].
                     rewrite Hd. apply InvBefore_conclude, Hinv4.
                 --- apply wp_bind.
                     apply wp_conclude_first; [assumption|auto| |].
                     { left; split; reflexivity. }
                     intros st' Hd Hc. apply wp_ret. split; [|exact Hc].
                     rewrite Hd. apply InvBefore_conclude, Hinv4.
              ** split; assumption.
           ++ apply wp_bind, wp_get. cbv zeta.
              destruct blocked_.
              ** apply wp_bind.
                 apply wp_conclude_first; [assumption|auto| |].
                 { right; right; split; reflexivity. }
                 intros st' Hd Hc. apply wp_ret. split; [|exact Hc].
                 rewrite Hd. apply InvBefore_conclude, Hinv3.
              ** destruct (ci (diagnostics st3) && negb (strict (diagnostics st3)))
                   eqn:Hci.
                 --- apply wp_bind.
                     apply wp_conclude_first; [assumption|auto| |].
                     { right; right; split; [reflexivity|].
                       apply andb_true_iff in Hci. destruct Hci as [_ Hci].
                       apply negb_true_iff in Hci. rewrite Hci. reflexivity. }
                     intros st' Hd Hc. apply wp_ret. split; [|exact Hc].
                     rewrite Hd. apply InvBefore_conclude, Hinv3.
                 --- apply wp_bind.
                     apply wp_conclude_first; [assumption|auto| |].
                     { left; split; reflexivity. }
                     intros st' Hd Hc. apply wp_ret. split; [|exact Hc].
                     rewrite Hd. apply InvBefore_conclude, Hinv3.
        -- split; assumption.
      * split; assumption.
  - apply wp_bind.
    apply wp_conclude_first; [assumption|auto| |].
    { left; split; reflexivity. }
    intros st' Hd Hc. apply wp_ret. split; [|exact Hc].
    rewrite Hd. apply InvBefore_conclude, Hinv1.
  - split; assumption.
Qed.

Lemma wp_liftD_hoare {A} (P R : Diagnostics -> Prop) (m : D A)
    (Q : Completion A -> MainState -> Prop) (st : MainState) :
  (forall d, P d -> R (snd (m d))) ->
  P (diagnostics st) ->
  (forall c st', R (diagnostics st') -> sameProcess st st' -> Q c st') ->
  wp (liftD m) Q st.
Proof.
  intros Hm Hd HQ. apply wp_liftD. unfold wp. apply HQ.
  - apply Hm, Hd.
  - repeat split.
Qed.

Lemma InvAfter_conclude_from_before (status c : string) (d : Diagnostics) :
  (InvBefore strictMode Before) d -> (InvAfter strictMode After) (set_classification c (set_result status d)).
Proof. intros H. apply InvAfter_conclude, InvBefore_InvAfter, H. Qed.

Lemma throw_case_before (e : JsValue) (st : MainState) :
  (InvBefore strictMode Before) (diagnostics st) -> Unconcluded st -> (TryPost strictMode After) (Throw e) st.
Proof. intros H1 H2. split; [apply InvBefore_InvAfter, H1|exact H2]. Qed.

Lemma mainTry_spec (selectedHost : option jsstring) (st : MainState) :
  (InvBefore strictMode Before) (diagnostics st) -> Unconcluded st ->
  wp (mainTry w selectedHost) (TryPost strictMode After) st.
Proof.
  intros Hinv Hun. unfold mainTry. destruct selectedHost as [host|].
  - apply wp_bind.
    apply (@wp_liftD_frame _ (InvBefore strictMode Before)); [|exact Hinv|].
    { apply launchBrowser_preserves; stableBefore. }
    intros c st1 Hinv1 Hsame1.
    pose proof (unconcluded_sameProcess Hun Hsame1) as Hun1.
    destruct c as [[candidate|]|e]; cbv iota;
      [| |apply throw_case_before; assumption].
    + apply wp_bind.
      apply (@wp_liftD_frame _ (InvBefore strictMode Before)); [|exact Hinv1|].
      { apply preserves_modify. intros d. revert d. stableBefore. }
      intros c st2 Hinv2 Hsame2.
      pose proof (unconcluded_sameProcess Hun1 Hsame2) as Hun2.
      destruct c as [u|e]; cbv iota; [|apply throw_case_before; assumption].
      apply wp_finally. apply wp_bind.
      apply (@wp_liftD_frame _ (InvBefore strictMode Before)); [|exact Hinv2|].
      { apply runSanity_preserves; stableBefore. }
      intros c st3 Hinv3 Hsame3.
      pose proof (unconcluded_sameProcess Hun2 Hsame3) as Hun3.
      destruct c as [u3|e]; cbv iota;
        [|apply wp_ret; apply throw_case_before; assumption].
      apply wp_bind.
      apply (@wp_liftD_frame _ (InvBefore strictMode Before)); [|exact Hinv3|].
      { apply preserves_modify. intros d. revert d. stableBefore. }
      intros c st4 Hinv4 Hsame4.
      pose proof (unconcluded_sameProcess Hun3 Hsame4) as Hun4.
      destruct c as [u4|e]; cbv iota;
        [|apply wp_ret; apply throw_case_before; assumption].
      apply wp_bind.
      apply (@wp_liftD_hoare _ (InvBefore strictMode Before) (InvAfter strictMode After)); [|exact Hinv4|].
      { intros d [Hs Hb].
        destruct (runAppScreenshot_After (makeBaseUrl w host) Hb Hs).
        split; assumption. }
      intros c st5 Hinv5 Hsame5.
      pose proof (unconcluded_sameProcess Hun4 Hsame5) as Hun5.
      destruct c as [u5|e]; cbv iota;
        [|apply wp_ret; split; assumption].
      apply wp_bind, wp_modify. apply wp_bind, wp_get.
      apply wp_conclude_first.
      * destruct Hun5 as [H1 H2]. split; [exact H1|].
        cbn [stdout]. rewrite summaries_app, H2. reflexivity.
      * right. exact Hinv5.
      * right; left; split; reflexivity.
      * intros st' Hd Hc. apply wp_ret. split; [|exact Hc].
        rewrite Hd. apply InvAfter_conclude. exact Hinv5.
    + apply wp_bind.
      apply (@wp_liftD_frame _ (InvBefore strictMode Before)); [|exact Hinv1|].
      { apply preserves_modify. intros d. revert d. stableBefore. }
      intros c st2 Hinv2 Hsame2.
      pose proof (unconcluded_sameProcess Hun1 Hsame2) as Hun2.
      destruct c as [u|e]; cbv iota; [|apply throw_case_before; assumption].
      apply wp_bind, wp_get.
      apply wp_conclude_first; [assumption|auto| |].
      { left; split; reflexivity. }
      intros st' Hd Hc. split; [|exact Hc].
      rewrite Hd. apply InvAfter_conclude_from_before, Hinv2.
  - apply wp_bind.
    apply (@wp_liftD_frame _ (InvBefore strictMode Before)); [|exact Hinv|].
    { apply preserves_modify. intros d. revert d. stableBefore. }
    intros c st1 Hinv1 Hsame1.
    pose proof (unconcluded_sameProcess Hun Hsame1) as Hun1.
    destruct c as [u|e]; cbv iota; [|apply throw_case_before; assumption].
    apply wp_bind.
    apply (@wp_liftD_frame _ (InvBefore strictMode Before)); [|exact Hinv1|].
    { apply preserves_modify. intros d. revert d. stableBefore. }
    intros c st2 Hinv2 Hsame2.
    pose proof (unconcluded_sameProcess Hun1 Hsame2) as Hun2.
    destruct c as [u2|e]; cbv iota; [|apply throw_case_before; assumption].
    apply wp_throw. apply throw_case_before; assumption.
Qed.

Lemma throw_case_after (e : JsValue) (st : MainState) :
  (InvAfter strictMode After) (diagnostics st) -> Unconcluded st -> (TryPost strictMode After) (Throw e) st.
Proof. intros H1 H2. split; assumption. Qed.

Lemma wp_orErrorText (a : option jsstring) (error : JsValue)
    (Q : Completion jsstring -> MainState -> Prop) (st : MainState) :
  (forall text, Q (Normal text) st) ->
  (forall e, Q (Throw e) st) ->
  wp (orErrorText w a error) Q st.
Proof.
  intros H1 H2. unfold orErrorText.
  destruct a as [[|c rest]|]; try apply wp_ret, H1;
    (apply wp_orThrow; intros; [apply H1|apply H2]).
Qed.

Lemma InvAfter_set {V} (set : V -> Diagnostics -> Diagnostics) (v : V)
    (d : Diagnostics) :
  (forall v d, strict (set v d) = strict d) ->
  stable After set -> (InvAfter strictMode After) d -> (InvAfter strictMode After) (set v d).
Proof. intros Hs H Hd. apply stable_InvAfter; assumption. Qed.

Ltac setAfter :=
  apply preserves_modify; intros ? ?; cbv beta;
  apply InvAfter_set; [intros; reflexivity|assumption|assumption].

Lemma mainCatch_spec (error : JsValue) (st : MainState) :
  (InvAfter strictMode After) (diagnostics st) -> Unconcluded st ->
  wp (mainCatch w error) (TryPost strictMode After) st.
Proof.
  intros Hinv Hun. unfold mainCatch.
  apply wp_bind.
  apply (@wp_liftD_frame _ (InvAfter strictMode After)); [setAfter|exact Hinv|].
  intros c st1 Hinv1 Hsame1.
  pose proof (unconcluded_sameProcess Hun Hsame1) as Hun1.
  destruct c as [u|e]; cbv iota; [|apply throw_case_after; assumption].
  apply wp_bind, wp_get. apply wp_bind.
  apply wp_orErrorText; [|intros e; apply throw_case_after; assumption].
  intros text. apply wp_bind.
  apply (@wp_liftD_frame _ (InvAfter strictMode After)); [setAfter|exact Hinv1|].
  intros c st2 Hinv2 Hsame2.
  pose proof (unconcluded_sameProcess Hun1 Hsame2) as Hun2.
  destruct c as [u2|e]; cbv iota; [|apply throw_case_after; assumption].
  apply wp_bind, wp_get. apply wp_bind.
  apply wp_mono with
    (Q := fun (c : Completion string) st' =>
            st' = st2).
  { destruct (String.eqb (classification (diagnostics st2)) "unknown").
    - apply wp_orThrow; reflexivity.
    - apply wp_ret. reflexivity. }
  intros c st2' ->. destruct c as [cls|e]; [|apply throw_case_after; assumption].
  apply wp_bind.
  apply (@wp_liftD_frame _ (InvAfter strictMode After)); [setAfter|exact Hinv2|].
  intros c st3 Hinv3 Hsame3.
  pose proof (unconcluded_sameProcess Hun2 Hsame3) as Hun3.
  destruct c as [u3|e]; cbv iota; [|apply throw_case_after; assumption].
  destruct (String.eqb cls "binary-installation-failure"
            || String.eqb cls "browser-runtime-failure").
  - apply wp_bind.
    apply (@wp_liftD_frame _ (InvAfter strictMode After)); [setAfter|exact Hinv3|].
    intros c st4 Hinv4 Hsame4.
    pose proof (unconcluded_sameProcess Hun3 Hsame4) as Hun4.
    destruct c as [u4|e]; cbv iota; [|apply throw_case_after; assumption].
    apply wp_bind, wp_get.
    apply wp_conclude_first; [assumption|auto| |].
    { right; right; split; reflexivity. }
    intros st' Hd Hc. split; [|exact Hc].
    rewrite Hd. apply InvAfter_conclude, Hinv4.
  - apply wp_bind.
    apply wp_orThrow; [|intros; apply throw_case_after; assumption].
    intros shownFirst _. apply wp_bind, wp_get. apply wp_bind.
    apply wp_orErrorText; [|intros e; apply throw_case_after; assumption].
    intros shown.
    apply wp_conclude_first; [assumption|auto| |].
    { left; split; reflexivity. }
    intros st' Hd Hc. split; [|exact Hc].
    rewrite Hd. apply InvAfter_conclude, Hinv3.
Qed.

Lemma mainFinally_spec (st : MainState) :
  (InvAfter strictMode After) (diagnostics st) ->
  Unconcluded st \/ Concluded strictMode st ->
  wp mainFinally (fun c st' => c = Normal tt /\ (Finished strictMode After) st') st.
Proof.
  intros Hinv H. unfold mainFinally. apply wp_bind, wp_get.
  destruct H as [Hun|Hc].
  - destruct Hun as [Hf Hs]. rewrite Hf.
    apply wp_conclude_first; [split; assumption|auto| |].
    { right; left; split; reflexivity. }
    intros st' Hd Hc. split; [reflexivity|]. split; [|exact Hc].
    rewrite Hd. apply InvAfter_conclude, Hinv.
  - destruct Hc as (fl & Hf & Hrest). rewrite Hf.
    apply wp_ret. split; [reflexivity|]. split; [exact Hinv|].
    exists fl. split; assumption.
Qed.

Lemma mainTail_spec (selectedHost : option jsstring) (st : MainState) :
  (InvBefore strictMode Before) (diagnostics st) -> Unconcluded st ->
  wp (mainTail w selectedHost) (fun _ st' => (Finished strictMode After) st') st.
Proof.
  intros Hinv Hun. unfold mainTail. apply wp_finally.
  apply wp_mono with (Q := (TryPost strictMode After)).
  - apply wp_tryCatch.
    eapply wp_mono; [apply mainTry_spec; assumption|].
    intros c st1 [H1 H2]. destruct c as [u|e].
    + split; assumption.
    + apply mainCatch_spec; assumption.
  - intros c st1 [H1 H2].
    eapply wp_mono; [apply mainFinally_spec; [exact H1|]|].
    + destruct c; [right|left]; exact H2.
    + intros c' st2 [-> HF]. exact HF.
Qed.

Lemma main_spec (st : MainState) :
  (InvBefore strictMode Before) (diagnostics st) -> Unconcluded st ->
  wp (main w) (MainPost strictMode Before After) st.
Proof.
  intros Hinv Hun. unfold main. apply wp_bind.
  eapply wp_mono; [apply mainHead_spec; assumption|].
  intros c st1 [H1 H2]. destruct c as [[|]|e].
  - apply wp_bind.
    apply (@wp_liftD_frame _ (InvBefore strictMode Before)); [|exact H1|].
    { apply startServer_preserves; stableBefore. }
    intros c st2 Hinv2 Hsame2.
    pose proof (unconcluded_sameProcess H2 Hsame2) as Hun2.
    destruct c as [selectedHost|e]; cbv iota.
    + eapply wp_mono; [apply mainTail_spec; assumption|].
      intros c st3 HF. left. exact HF.
    + right. split; [eauto|]. split; assumption.
  - apply wp_ret. left. split; [apply InvBefore_InvAfter, H1|exact H2].
  - right. split; [eauto|]. split; assumption.
Qed.

End Walk.

(** ** Instances of the walk *)

Section AppFootprint.

Variable w : World.
Variable I : Diagnostics -> Prop.
Hypothesis I_attempts : stable I set_navigationAttempts.
Hypothesis I_errors : stable I set_navigationErrors.
Hypothesis I_strategyAttempts : stable I set_navigationStrategyAttempts.
Hypothesis I_fallbacks : stable I set_navigationFallbacks.
Hypothesis I_used : stable I set_navigationStrategyUsed.
Hypothesis I_optIn : stable I set_navigationHttpOptIn.
Hypothesis I_screenshot : stable I set_screenshot.
Hypothesis I_error : stable I set_error.
Hypothesis I_classification : stable I set_classification.
Hypothesis I_trace : stable I set_trace.

Lemma pushStrategyAttempt_preserves (s : Strategy) (target : jsstring) :
  preserves I (pushStrategyAttempt s target).
Proof. unfold pushStrategyAttempt. footprint. Qed.

Lemma pushFallback_preserves (f : Fallback) : preserves I (pushFallback f).
Proof. unfold pushFallback. footprint. Qed.

Lemma tryHttpStrategy_preserves (baseUrl : jsstring) :
  preserves I (tryHttpStrategy w baseUrl).
Proof.
  unfold tryHttpStrategy.
  apply preserves_bind; [apply pushStrategyAttempt_preserves|]. intros _.
  apply preserves_bind; [apply gotoWithRetry_preserves; assumption|].
  intros _. footprint.
Qed.

Lemma navigateWithFallback_preserves (baseUrl : jsstring) :
  preserves I (navigateWithFallback w baseUrl).
Proof.
  unfold navigateWithFallback.
  apply preserves_bind; [footprint|]. intros _.
  apply preserves_bind.
  - destruct (allowHttp w && Js.truthy (JStr baseUrl)).
    + apply preserves_tryCatch.
      * apply preserves_bind; [apply tryHttpStrategy_preserves|].
        intros _. apply preserves_ret.
      * intros error. apply preserves_bind; [apply preserves_orThrow|].
        intros text. apply preserves_bind; [apply pushFallback_preserves|].
        intros _. footprint.
    + apply preserves_bind; [apply pushFallback_preserves|].
      intros _. apply preserves_ret.
  - intros [|]; [apply preserves_ret|].
    change (preserves I (fileThenInline w)).
    apply fileThenInline_preserves; try assumption.
    + apply pushStrategyAttempt_preserves.
    + apply pushFallback_preserves.
    + intros s _ d H. apply I_used, H.
Qed.

Lemma runAppScreenshot_preserves (baseUrl : jsstring) :
  preserves I (runAppScreenshot w baseUrl).
Proof.
  unfold runAppScreenshot.
  apply preserves_bind; [apply preserves_await|]. intros _.
  apply preserves_finally; [|footprint].
  apply preserves_tryCatch.
  - apply preserves_bind; [apply navigateWithFallback_preserves|].
    intros _. footprint.
  - intros error. footprint.
Qed.

End AppFootprint.

Lemma stable_NavigatedFileSafe {V} (set : V -> Diagnostics -> Diagnostics) :
  (forall v x, navigationFallbacks (set v x) = navigationFallbacks x) ->
  (forall v x, navigationStrategyUsed (set v x) = navigationStrategyUsed x) ->
  stable NavigatedFileSafe set.
Proof.
  intros H1 H2 v x [Hx1 Hx2]. split; [rewrite H1|rewrite H2]; assumption.
Qed.

Lemma stable_NotNavigated {V} (set : V -> Diagnostics -> Diagnostics) :
  (forall v x, navigationFallbacks (set v x) = navigationFallbacks x) ->
  (forall v x, navigationStrategyUsed (set v x) = navigationStrategyUsed x) ->
  stable NotNavigated set.
Proof.
  intros H1 H2 v x [Hx1 Hx2]. split; [rewrite H1|rewrite H2]; assumption.
Qed.

(** With HTTP not opted in, [runAppScreenshot] takes a record on which
    navigation has not started to one that is still so or on which the
    disabled-by-default transition comes first. *)
Lemma runAppScreenshot_file_safe (w : World) (baseUrl : jsstring)
    (d : Diagnostics) :
  allowHttp w = false ->
  NotNavigated d ->
  NotNavigated (snd (runAppScreenshot w baseUrl d))
  \/ NavigatedFileSafe (snd (runAppScreenshot w baseUrl d)).
Proof.
  intros Hallow Hd.
  change (wp (runAppScreenshot w baseUrl)
             (fun _ d' => NotNavigated d' \/ NavigatedFileSafe d') d).
  unfold runAppScreenshot. apply wp_bind. apply wp_await; [|auto].
  intros _. apply wp_finally.
  apply wp_mono with (Q := fun _ d' => NavigatedFileSafe d').
  - apply wp_tryCatch. apply wp_bind.
    apply wp_mono with (Q := fun _ d' => NavigatedFileSafe d').
    + apply (@navigateWithFallback_file_safe w baseUrl d Hallow Hd).
    + intros c d1 Hn. destruct c as [u|e].
      * eapply wp_mono.
        -- apply (@preserves_wp _ _ NavigatedFileSafe); [|exact Hn].
           footprint.
        -- intros c d2 H2. destruct c as [u2|e2]; [exact H2|].
           apply (@preserves_wp _ _ NavigatedFileSafe); [|exact H2].
           footprint.
      * apply (@preserves_wp _ _ NavigatedFileSafe); [|exact Hn].
        footprint.
  - intros c d1 Hn. apply wp_modify. right.
    destruct c; apply (@stable_NavigatedFileSafe _ set_trace);
      try reflexivity; exact Hn.
Qed.

Lemma main_finishes_or_aborts (w : World) :
  wp (main w) (MainPost (strictOf w) (fun _ => True) (fun _ => True))
     (initialState w).
Proof.
  apply main_spec; try (intros v d H; exact H); auto.
  - intros baseUrl d _ Hs. split; [exact I|].
    apply (@runAppScreenshot_preserves w (fun x => strict x = strictOf w));
      try (intros v x H; exact H). exact Hs.
  - split; [reflexivity|exact I].
  - split; reflexivity.
Qed.

Lemma main_file_safe (w : World) :
  allowHttp w = false ->
  wp (main w)
     (MainPost (strictOf w) NotNavigated
               (fun d => NotNavigated d \/ NavigatedFileSafe d))
     (initialState w).
Proof.
  intros Hallow.
  apply main_spec;
    try (apply stable_NotNavigated; reflexivity).
  - intros v d [H|H]; [left; revert H; apply stable_NotNavigated
                      |right; revert H; apply stable_NavigatedFileSafe];
      reflexivity.
  - intros v d [H|H]; [left; revert H; apply stable_NotNavigated
                      |right; revert H; apply stable_NavigatedFileSafe];
      reflexivity.
  - intros v d [H|H]; [left; revert H; apply stable_NotNavigated
                      |right; revert H; apply stable_NavigatedFileSafe];
      reflexivity.
  - auto.
  - intros baseUrl d Hd Hs. split.
    + apply runAppScreenshot_file_safe; assumption.
    + apply (@runAppScreenshot_preserves w (fun x => strict x = strictOf w));
        try (intros v x H; exact H). exact Hs.
  - split; [reflexivity|]. split; [reflexivity|discriminate].
  - split; reflexivity.
Qed.

(** C7. With HTTP not opted in, the first navigation fallback transition a
    run records is HTTP to FILE with the fixed reason, and
    [navigationStrategyUsed] is never HTTP: after any call of
    [navigateWithFallback] on a record without transitions, and at the end
    of every run of [main]. *)
Theorem file_safe_by_default (w : World) :
  allowHttp w = false ->
  (forall baseUrl d,
     navigationFallbacks d = [] ->
     navigationStrategyUsed d <> Some HTTP ->
     hd_error (navigationFallbacks (snd (navigateWithFallback w baseUrl d)))
     = Some (mkFallback HTTP FILE disabledReason)
     /\ navigationStrategyUsed (snd (navigateWithFallback w baseUrl d))
        <> Some HTTP)
  /\ (forall t,
        hd_error (navigationFallbacks (diagnostics (snd (run w)))) = Some t ->
        t = mkFallback HTTP FILE disabledReason)
  /\ navigationStrategyUsed (diagnostics (snd (run w))) <> Some HTTP.
Proof.
  intros Hallow. split.
  - intros baseUrl d H1 H2.
    apply (@navigateWithFallback_file_safe w baseUrl d Hallow).
    split; assumption.
  - pose proof (@main_file_safe w Hallow) as H. unfold wp in H.
    fold (run w) in H.
    assert (Hd : NotNavigated (diagnostics (snd (run w)))
                 \/ NavigatedFileSafe (diagnostics (snd (run w)))).
    { destruct H as [[[_ H] _]|(_ & [_ H] & _)]; [exact H|left; exact H]. }
    destruct Hd as [[H1 H2]|[H1 H2]]; split; try assumption.
    + intros t Ht. rewrite H1 in Ht. discriminate.
    + intros t Ht. rewrite H1 in Ht. injection Ht as <-. reflexivity.
Qed.

(** ** Concrete runs *)

Example happy_run :
  fst (run happyWorld) = Normal tt
  /\ finalLine (snd (run happyWorld))
     = Some (mkFinalLine "passed" "success" "npx playwright install"
               (DPassed (Some FILE)))
  /\ processExitCode (snd (run happyWorld)) = Some 0
  /\ stdout (snd (run happyWorld))
     = [ScreenshotCreated;
        Summary (mkFinalLine "passed" "success" "npx playwright install"
                   (DPassed (Some FILE)))]
  /\ navigationFallbacks (diagnostics (snd (run happyWorld)))
     = [mkFallback HTTP FILE disabledReason].
Proof. repeat split; vm_compute; reflexivity. Qed.

(** ** Server never reachable *)

Lemma mainTail_unreachable (w : World) (st : MainState) :
  exists text,
    let st' := snd (mainTail w None st) in
    fst (mainTail w None st) = Normal tt
    /\ finalLine st'
       = Some (mkFinalLine "failed" "test-failure" "npx playwright install"
                 (DTestFailure text "connectivity-failure"))
    /\ processExitCode st' = Some 1
    /\ result (diagnostics st') = "failed"%string
    /\ classification (diagnostics st') = "test-failure"%string
    /\ diagnosticsFile st' = Some (diagnostics st')
    /\ serverSelectedHost (diagnostics st')
       = serverSelectedHost (diagnostics st).
Proof.
  destruct st as [d fl pe df out].
  destruct d as [na ne nsa nf nu no ba ble bu bc ia ssh bur ss sc tr err cls res
                 ci_ strict_ skip_].
  destruct err as [[|c r]|]; eexists; lazy; repeat split.
Qed.

Lemma startServer_unreachable (w : World) (d : Diagnostics) :
  (forall host, In host hosts -> waitForServer w host = false) ->
  startServer w d = (Normal None, set_serverSelectedHost (Some None) d).
Proof.
  intros H. unfold startServer, hosts. simpl fold_left.
  rewrite !H by (simpl; auto). reflexivity.
Qed.

(** C1, as stated, fails: when no alias answers, the classification the run
    records, in the record, in [diagnostics.json] and on the summary line,
    is test-failure; connectivity-failure only appears in the details. *)
Lemma unreachable_run_records_test_failure :
  serverSelectedHost (diagnostics (snd (run unreachableWorld))) = Some None
  /\ option_map ui_smoke (finalLine (snd (run unreachableWorld)))
     = Some "failed"%string
  /\ option_map line_classification (finalLine (snd (run unreachableWorld)))
     = Some "test-failure"%string
  /\ classification (diagnostics (snd (run unreachableWorld)))
     = "test-failure"%string
  /\ option_map classification (diagnosticsFile (snd (run unreachableWorld)))
     = Some "test-failure"%string
  /\ classification (diagnostics (snd (run unreachableWorld)))
     <> "connectivity-failure"%string.
Proof.
  repeat split; try (vm_compute; reflexivity). vm_compute. discriminate.
Qed.

(** C1, amended. When the run gets as far as starting the server and no
    alias answers, [selectedHost] is null and the run concludes with status
    failed and exit code 1; the classification it records is test-failure,
    and connectivity-failure is reported as [details.classification] of the
    summary line. *)
Theorem server_unreachable_concludes_failed (w : World) :
  fst (mainHead w (initialState w)) = Normal true ->
  (forall host, In host hosts -> waitForServer w host = false) ->
  fst (run w) = Normal tt
  /\ serverSelectedHost (diagnostics (snd (run w))) = Some None
  /\ (exists text,
        finalLine (snd (run w))
        = Some (mkFinalLine "failed" "test-failure" "npx playwright install"
                  (DTestFailure text "connectivity-failure")))
  /\ processExitCode (snd (run w)) = Some 1
  /\ result (diagnostics (snd (run w))) = "failed"%string
  /\ classification (diagnostics (snd (run w))) = "test-failure"%string
  /\ diagnosticsFile (snd (run w)) = Some (diagnostics (snd (run w))).
Proof.
  intros Hhead Hhosts.
  destruct (mainHead w (initialState w)) as [[b|e] st1] eqn:Hh;
    simpl in Hhead; [|discriminate].
  injection Hhead as ->.
  assert (Hrun : run w
                 = mainTail w None
                     (mkMainState
                        (set_serverSelectedHost (Some None) (diagnostics st1))
                        (finalLine st1) (processExitCode st1)
                        (diagnosticsFile st1) (stdout st1))).
  { unfold run, main, bind. rewrite Hh. unfold liftD.
    rewrite (@startServer_unreachable w _ Hhosts). reflexivity. }
  rewrite Hrun.
  match goal with
  | |- context [mainTail w None ?s] =>
      destruct (mainTail_unreachable w s)
        as (text & H1 & H2 & H3 & H4 & H5 & H6 & H7)
  end.
  cbv zeta in H1, H2, H3, H4, H5, H6, H7.
  repeat split; try assumption.
  exists text. exact H2.
Qed.

Lemma server_unreachable_concludes_failed_witness :
  fst (mainHead unreachableWorld (initialState unreachableWorld)) = Normal true
  /\ fst (run unreachableWorld) = Normal tt
  /\ processExitCode (snd (run unreachableWorld)) = Some 1
  /\ result (diagnostics (snd (run unreachableWorld))) = "failed"%string.
Proof.
  split; [vm_compute; reflexivity|].
  destruct (@server_unreachable_concludes_failed unreachableWorld)
    as (H1 & _ & _ & H4 & H5 & _).
  - vm_compute. reflexivity.
  - intros host _. reflexivity.
  - repeat split; assumption.
Defined.

(** ** The terminal error handler *)

(** C2, as stated, fails: a connectivity-class error that reaches the
    handler concludes the run as failed with exit code 1 although strict mode
    is off. *)
Lemma connectivity_error_fails_the_run :
  classifyFailure connectionRefused = Some "connectivity-failure"%string
  /\ strict (diagnostics (snd (run sanityRefusedWorld))) = false
  /\ finalLine (snd (run sanityRefusedWorld))
     = Some (mkFinalLine "failed" "test-failure" "npx playwright install"
               (DTestFailure
                  (match errorText connectionRefused with
                   | Some t => t
                   | None => []
                   end)
                  "connectivity-failure"))
  /\ processExitCode (snd (run sanityRefusedWorld)) = Some 1.
Proof. repeat split; vm_compute; reflexivity. Qed.

(** C2, amended. For every error with a text that reaches the handler: when
    the classification the handler acts on is binary-installation-failure or
    browser-runtime-failure the run concludes skipped, with exit code 1 in
    strict mode and 0 otherwise; for every other classification,
    connectivity-failure and application-failure among them, it concludes
    failed with exit code 1 whatever the mode. *)
Theorem handler_policy (w : World) (error : JsValue) (text : jsstring)
    (c : string) (st : MainState) :
  errorText error = Some text ->
  effectiveClassification (diagnostics st) error = Some c ->
  fst (mainCatch w error st) = Normal tt
  /\ option_map ui_smoke (finalLine (snd (mainCatch w error st)))
     = Some (if bestEffortSkip c then "skipped" else "failed")%string
  /\ option_map line_classification (finalLine (snd (mainCatch w error st)))
     = Some (if bestEffortSkip c then "binary-installation-blocked"
             else "test-failure")%string
  /\ processExitCode (snd (mainCatch w error st))
     = Some (if bestEffortSkip c
             then (if strict (diagnostics st) then 1 else 0)
             else 1)
  /\ result (diagnostics (snd (mainCatch w error st)))
     = (if bestEffortSkip c then "skipped" else "failed")%string.
Proof.
  intros Htext Hc.
  destruct st as [d fl pe df out].
  destruct d as [na ne nsa nf nu no ba ble bu bc ia ssh bur ss sc tr err cls res
                 ci_ strict_ skip_].
  unfold effectiveClassification in Hc. cbn [diagnostics classification] in Hc.
  unfold bestEffortSkip.
  destruct err as [[|e0 r0]|];
    lazy -[classifyFailure errorText String.eqb orb];
    rewrite ?Htext;
    (destruct (String.eqb cls "unknown");
     [rewrite Hc|injection Hc as ->]);
    lazy -[classifyFailure errorText String.eqb orb];
    destruct (String.eqb c "binary-installation-failure"
              || String.eqb c "browser-runtime-failure");
    rewrite ?Htext;
    lazy -[classifyFailure errorText String.eqb orb];
    try (destruct text); repeat split.
Qed.

Lemma handler_policy_witness :
  effectiveClassification (diagnostics (initialState sanityRefusedWorld))
    connectionRefused
  = Some "connectivity-failure"%string
  /\ option_map ui_smoke
       (finalLine (snd (mainCatch sanityRefusedWorld connectionRefused
                          (initialState sanityRefusedWorld))))
     = Some "failed"%string
  /\ processExitCode (snd (mainCatch sanityRefusedWorld connectionRefused
                             (initialState sanityRefusedWorld)))
     = Some 1.
Proof.
  split; [vm_compute; reflexivity|].
  destruct (@handler_policy sanityRefusedWorld connectionRefused
              (match errorText connectionRefused with
               | Some t => t
               | None => []
               end)
              "connectivity-failure"
              (initialState sanityRefusedWorld))
    as (_ & H2 & _ & H4 & _).
  - vm_compute. reflexivity.
  - vm_compute. reflexivity.
  - split; [exact H2|exact H4].
Defined.

(** ** One conclusion per run *)

(** C3, as stated, fails: [conclude] has no guard, so a second call
    overwrites what the first recorded; and a run whose package import
    fails with an error other than package-missing ends without any
    conclusion. *)
Lemma conclusion_not_first_write_wins :
  (let twice :=
     snd ((conclude "failed" "test-failure" DFinalizeNote 1 ;;
           conclude "passed" "success" DFinalizeNote 0)
            (initialState happyWorld)) in
   result (diagnostics twice) = "passed"%string
   /\ classification (diagnostics twice) = "success"%string
   /\ processExitCode twice = Some 0
   /\ List.length (summaries (stdout twice)) = 2)
  /\ fst (run brokenImportWorld) = Throw brokenPackage
  /\ summaries (stdout (snd (run brokenImportWorld))) = []
  /\ finalLine (snd (run brokenImportWorld)) = None
  /\ result (diagnostics (snd (run brokenImportWorld))) = "running"%string
  /\ classification (diagnostics (snd (run brokenImportWorld)))
     = "unknown"%string.
Proof. repeat split; vm_compute; reflexivity. Qed.

Lemma concluded_recorded (b : bool) (st : MainState) :
  Concluded b st -> Recorded st.
Proof.
  intros (fl & H1 & H2 & H3 & H4 & H5 & _). exists fl. repeat split; assumption.
Qed.

(** C3, amended. The finalizer of [main] leaves a recorded conclusion alone;
    every run that [main] completes, and every run that gets as far as
    starting the server, fires exactly one conclusion, whose status and
    classification are the ones the record and [diagnostics.json] hold at
    the end; the only other runs are aborted by an exception before the
    server starts and fire none. *)
Theorem one_conclusion_per_finished_run (w : World) :
  (forall st fl, finalLine st = Some fl -> mainFinally st = (Normal tt, st))
  /\ (forall u, fst (run w) = Normal u -> Recorded (snd (run w)))
  /\ (forall selectedHost st,
        finalLine st = None -> summaries (stdout st) = [] ->
        Recorded (snd (mainTail w selectedHost st)))
  /\ (Recorded (snd (run w))
      \/ ((exists e, fst (run w) = Throw e)
          /\ finalLine (snd (run w)) = None
          /\ summaries (stdout (snd (run w))) = [])).
Proof.
  split; [|split; [|split]].
  - intros st fl H. unfold mainFinally, bind, get. rewrite H. reflexivity.
  - intros u Hu. pose proof (main_finishes_or_aborts w) as H.
    unfold wp in H. fold (run w) in H.
    destruct H as [[_ H]|[[e He] _]].
    + eapply concluded_recorded, H.
    + rewrite He in Hu. discriminate.
  - intros selectedHost st Hf Hs.
    pose proof (@mainTail_spec w (strict (diagnostics st)) (fun _ => True)
                  (fun _ => True)) as H.
    assert (Hfin : Finished (strict (diagnostics st)) (fun _ => True)
                     (snd (mainTail w selectedHost st))).
    { apply H; try (intros v d Hd; exact Hd); auto.
      - intros baseUrl d _ Hstrict. split; [exact I|].
        apply (@runAppScreenshot_preserves w
                 (fun x => strict x = strict (diagnostics st)));
          try (intros v x Hx; exact Hx). exact Hstrict.
      - split; [reflexivity|exact I].
      - split; assumption. }
    destruct Hfin as [_ Hc]. eapply concluded_recorded, Hc.
  - pose proof (main_finishes_or_aborts w) as H.
    unfold wp in H. fold (run w) in H.
    destruct H as [[_ H]|(He & _ & [Hf Hs])].
    + left. eapply concluded_recorded, H.
    + right. repeat split; assumption.
Qed.

Lemma one_conclusion_per_finished_run_witness :
  fst (run happyWorld) = Normal tt /\ Recorded (snd (run happyWorld)).
Proof.
  split; [vm_compute; reflexivity|].
  destruct (one_conclusion_per_finished_run happyWorld) as (_ & H & _).
  apply (H tt). vm_compute. reflexivity.
Defined.

(** ** The exit-code matrix *)



(** The finalizer is the one conclusion of a run whose [catch] block itself
    throws: [errorText] cannot convert the rejection, the TypeError leaves
    the handler, and the finalizer, whose local [exitCode] is still 0,
    concludes passed. *)
Example finalizer_concludes_when_handler_throws :
  fst (run bareRejectionWorld)
  = Throw (conversionError bareRejectionWorld SiteHandler)
  /\ finalLine (snd (run bareRejectionWorld))
     = Some (mkFinalLine "passed" "success" "npx playwright install"
               DFinalizeNote)
  /\ processExitCode (snd (run bareRejectionWorld)) = Some 0
  /\ summaries (stdout (snd (run bareRejectionWorld)))
     = [mkFinalLine "passed" "success" "npx playwright install" DFinalizeNote].
Proof. repeat split; vm_compute; reflexivity. Qed.

(** ** The skip-download policy *)

(** C6, as stated, fails: the package is resolved before the flag is read,
    so with the flag set and the package missing the run concludes failed
    with exit code 1, strict mode off. *)
Lemma skip_flag_does_not_override_missing_package :
  skipDownload skipButMissingWorld = true
  /\ strictOf skipButMissingWorld = false
  /\ finalLine (snd (run skipButMissingWorld))
     = Some (mkFinalLine "failed" "installable-missing"
               "npx playwright install" DPackageMissing)
  /\ processExitCode (snd (run skipButMissingWorld)) = Some 1.
Proof. repeat split; vm_compute; reflexivity. Qed.

(** C6, amended. Whenever the flag is set and the playwright package loads,
    the run skips early: it concludes skipped with exit code 0 when strict
    is unset and 1 when it is set, and no browser launch is attempted. *)
Theorem skip_download_policy (w : World) :
  skipDownload w = true ->
  importPlaywright w = Resolves ->
  fst (run w) = Normal tt
  /\ finalLine (snd (run w))
     = Some (mkFinalLine "skipped" "binary-installation-blocked"
               "npx playwright install" (DSkipPolicy None []))
  /\ processExitCode (snd (run w)) = Some (if strictOf w then 1 else 0)
  /\ result (diagnostics (snd (run w))) = "skipped"%string
  /\ browserAttempts (diagnostics (snd (run w))) = []
  /\ binaryChecks (diagnostics (snd (run w))) = None
  /\ serverSelectedHost (diagnostics (snd (run w))) = None.
Proof.
  intros Hskip Himport.
  assert (Hrun : run w
                 = (conclude "skipped" "binary-installation-blocked"
                      (DSkipPolicy None [])
                      (if strictOf w then 1 else 0))
                     (initialState w)).
  { unfold run, main, mainHead, bind, liftD, resolvePlaywright.
    rewrite Himport. unfold ret at 1. cbn [negb diagnostics initialState].
    unfold get at 1. cbv beta iota.
    cbn [diagnostics initialState envSkipBrowserDownload initialDiagnostics].
    unfold skipDownload in Hskip. rewrite Hskip.
    reflexivity. }
  rewrite Hrun. repeat split.
Qed.

Lemma skip_download_policy_witness :
  skipDownload strictSkipWorld = true
  /\ importPlaywright strictSkipWorld = Resolves
  /\ processExitCode (snd (run strictSkipWorld)) = Some 1
  /\ browserAttempts (diagnostics (snd (run strictSkipWorld))) = [].
Proof.
  split; [reflexivity|]. split; [reflexivity|].
  destruct (@skip_download_policy strictSkipWorld eq_refl eq_refl)
    as (_ & _ & H3 & _ & H5 & _).
  split; [exact H3|exact H5].
Defined.

Lemma file_safe_by_default_witness :
  allowHttp happyWorld = false
  /\ hd_error (navigationFallbacks (diagnostics (snd (run happyWorld))))
     = Some (mkFallback HTTP FILE disabledReason)
  /\ (forall t,
        hd_error (navigationFallbacks (diagnostics (snd (run happyWorld))))
        = Some t ->
        t = mkFallback HTTP FILE disabledReason)
  /\ navigationStrategyUsed (diagnostics (snd (run happyWorld))) <> Some HTTP.
Proof.
  split; [reflexivity|]. split; [vm_compute; reflexivity|].
  destruct (@file_safe_by_default happyWorld eq_refl) as (_ & H2 & H3).
  split; [exact H2|exact H3].
Defined.

Lemma http_error_propagates_unless_reachability_witness :
  allowHttp httpAbortedWorld = true
  /\ isHttpReachabilityError navigationAborted = Some false
  /\ HttpOutcome httpAbortedWorld (cu "http://127.0.0.1:4173/index.html")
       (initialDiagnostics httpAbortedWorld)
  /\ fst (navigateWithFallback httpAbortedWorld
            (cu "http://127.0.0.1:4173/index.html")
            (initialDiagnostics httpAbortedWorld))
     = Throw navigationAborted.
Proof.
  split; [reflexivity|]. split; [vm_compute; reflexivity|].
  split.
  - apply (@http_error_propagates_unless_reachability httpAbortedWorld).
    + reflexivity.
    + discriminate.
  - vm_compute. reflexivity.
Defined.

(** * Further properties of the orchestrator *)

(** ** Retries *)

Lemma attemptsLog_S (url : jsstring) (i n : nat) :
  attemptsLog url i (S n) = (url, i + 1) :: attemptsLog url (i + 1) n.
Proof.
  unfold attemptsLog. simpl. replace (S i) with (i + 1) by lia. reflexivity.
Qed.

Lemma errorsLog_S (w : World) (url : jsstring) (i n : nat) :
  errorsLog w url i (S n)
  = (i + 1, gotoTextAt w url i) :: errorsLog w url (i + 1) n.
Proof.
  unfold errorsLog. simpl. replace (S i) with (i + 1) by lia. reflexivity.
Qed.

Section Retries.

Variable w : World.

Lemma gotoWithRetryFrom_step_rejected (url : jsstring) (lastError : JsValue)
    (i remaining : nat) (d : Diagnostics) (e : JsValue) :
  pageGoto w url i = Rejects e -> errorText e <> None ->
  gotoWithRetryFrom w url lastError i (S remaining) d
  = gotoWithRetryFrom w url e (i + 1) remaining
      (set_navigationErrors
         (navigationErrors d ++ [(i + 1, gotoTextAt w url i)])
         (set_navigationAttempts (navigationAttempts d ++ [(url, i + 1)]) d)).
Proof.
  intros Hg Ht. simpl. unfold bind, tryCatch, modify, await, ret, orThrow.
  unfold gotoTextAt, gotoErrorAt. rewrite Hg. simpl.
  destruct (errorText e) as [t|]; [reflexivity|contradiction].
Qed.

Lemma gotoWithRetryFrom_step_resolved (url : jsstring) (lastError : JsValue)
    (i remaining : nat) (d : Diagnostics) :
  pageGoto w url i = Resolves ->
  gotoWithRetryFrom w url lastError i (S remaining) d
  = (Normal tt,
     set_navigationAttempts (navigationAttempts d ++ [(url, i + 1)]) d).
Proof.
  intros Hg. simpl. unfold bind, tryCatch, modify, await, ret.
  rewrite Hg. reflexivity.
Qed.

Lemma gotoWithRetryFrom_success (url : jsstring) (k : nat) :
  forall (lastError : JsValue) (i remaining : nat) (d : Diagnostics),
    k < remaining ->
    RejectedFrom w url i k ->
    pageGoto w url (i + k) = Resolves ->
    fst (gotoWithRetryFrom w url lastError i remaining d) = Normal tt
    /\ navigationAttempts (snd (gotoWithRetryFrom w url lastError i remaining d))
       = navigationAttempts d ++ attemptsLog url i (S k)
    /\ navigationErrors (snd (gotoWithRetryFrom w url lastError i remaining d))
       = navigationErrors d ++ errorsLog w url i k.
Proof.
  induction k as [|k IH]; intros lastError i remaining d Hk Hrej Hres.
  - destruct remaining as [|remaining]; [lia|].
    rewrite Nat.add_0_r in Hres.
    erewrite gotoWithRetryFrom_step_resolved; [|exact Hres].
    cbn [fst snd navigationAttempts navigationErrors set_navigationAttempts].
    unfold errorsLog. simpl. rewrite app_nil_r. auto.
  - destruct remaining as [|remaining]; [lia|].
    destruct (Hrej i ltac:(lia)) as (e & Hg & Ht).
    erewrite gotoWithRetryFrom_step_rejected; [|exact Hg|exact Ht].
    match goal with
    | |- context [gotoWithRetryFrom w url e (i + 1) remaining ?s] =>
        destruct (IH e (i + 1) remaining s) as (H1 & H2 & H3)
    end.
    + lia.
    + intros j Hj. apply Hrej. lia.
    + replace (i + 1 + k) with (i + S k) by lia. exact Hres.
    + split; [exact H1|]. split.
      * rewrite H2. rewrite (attemptsLog_S url i). cbn [navigationAttempts
          set_navigationErrors set_navigationAttempts].
        rewrite <- app_assoc. reflexivity.
      * rewrite H3. rewrite (errorsLog_S w url i). cbn [navigationErrors
          set_navigationErrors set_navigationAttempts].
        rewrite <- app_assoc. reflexivity.
Qed.

Lemma gotoWithRetryFrom_exhausted (url : jsstring) (remaining : nat) :
  forall (lastError : JsValue) (i : nat) (d : Diagnostics),
    RejectedFrom w url i remaining ->
    fst (gotoWithRetryFrom w url lastError i remaining d)
    = Throw (match remaining with
             | O => lastError
             | S m => gotoErrorAt w url (i + m)
             end)
    /\ navigationAttempts (snd (gotoWithRetryFrom w url lastError i remaining d))
       = navigationAttempts d ++ attemptsLog url i remaining
    /\ navigationErrors (snd (gotoWithRetryFrom w url lastError i remaining d))
       = navigationErrors d ++ errorsLog w url i remaining.
Proof.
  induction remaining as [|remaining IH]; intros lastError i d Hrej.
  - unfold attemptsLog, errorsLog. simpl. rewrite !app_nil_r. auto.
  - destruct (Hrej i ltac:(lia)) as (e & Hg & Ht).
    erewrite gotoWithRetryFrom_step_rejected; [|exact Hg|exact Ht].
    match goal with
    | |- context [gotoWithRetryFrom w url e (i + 1) remaining ?s] =>
        destruct (IH e (i + 1) s) as (H1 & H2 & H3)
    end.
    + intros j Hj. apply Hrej. lia.
    + split; [|split].
      * rewrite H1. destruct remaining as [|m].
        -- unfold gotoErrorAt. rewrite Nat.add_0_r, Hg. reflexivity.
        -- replace (i + 1 + m) with (i + S m) by lia. reflexivity.
      * rewrite H2. rewrite (attemptsLog_S url i). cbn [navigationAttempts
          set_navigationErrors set_navigationAttempts].
        rewrite <- app_assoc. reflexivity.
      * rewrite H3. rewrite (errorsLog_S w url i). cbn [navigationErrors
          set_navigationErrors set_navigationAttempts].
        rewrite <- app_assoc. reflexivity.
Qed.

End Retries.

Lemma rejectedFrom_constant (w : World) (url : jsstring) (e : JsValue)
    (from count : nat) :
  (forall i, pageGoto w url i = Rejects e) -> errorText e <> None ->
  RejectedFrom w url from count.
Proof. intros H Ht i _. exists e. split; [apply H|exact Ht]. Qed.

(** X1. [gotoWithRetry] stops at the first load that succeeds: when the
    loads before the [k]-th are rejected and the [k]-th resolves within the
    allowed attempts, it returns, having logged [k + 1] attempts and the [k]
    errors, in order. *)
Theorem gotoWithRetry_stops_at_first_success (w : World) (url : jsstring)
    (attempts k : nat) (d : Diagnostics) :
  k < attempts ->
  RejectedFrom w url 0 k ->
  pageGoto w url k = Resolves ->
  fst (gotoWithRetry w url attempts d) = Normal tt
  /\ navigationAttempts (snd (gotoWithRetry w url attempts d))
     = navigationAttempts d ++ attemptsLog url 0 (S k)
  /\ navigationErrors (snd (gotoWithRetry w url attempts d))
     = navigationErrors d ++ errorsLog w url 0 k.
Proof.
  intros Hk Hrej Hres. unfold gotoWithRetry.
  apply gotoWithRetryFrom_success; assumption.
Qed.

Lemma gotoWithRetry_stops_at_first_success_witness :
  fst (gotoWithRetry flakyLoadWorld (fileUrl flakyLoadWorld) 2
         (initialDiagnostics flakyLoadWorld)) = Normal tt
  /\ navigationAttempts
       (snd (gotoWithRetry flakyLoadWorld (fileUrl flakyLoadWorld) 2
               (initialDiagnostics flakyLoadWorld)))
     = [(fileUrl flakyLoadWorld, 1); (fileUrl flakyLoadWorld, 2)].
Proof.
  destruct (@gotoWithRetry_stops_at_first_success flakyLoadWorld
              (fileUrl flakyLoadWorld) 2 1
              (initialDiagnostics flakyLoadWorld))
    as (H1 & H2 & _).
  - lia.
  - intros i Hi. exists navigationAborted.
    assert (i = 0) as -> by lia. split; [reflexivity|vm_compute; discriminate].
  - reflexivity.
  - split; [exact H1|exact H2].
Defined.

(** X2. When every one of the [attempts] loads is rejected, [gotoWithRetry]
    throws the error of the last load ([null] when [attempts] is 0), having
    logged every attempt and every error. *)
Theorem gotoWithRetry_throws_last_error (w : World) (url : jsstring)
    (attempts : nat) (d : Diagnostics) :
  RejectedFrom w url 0 attempts ->
  fst (gotoWithRetry w url attempts d)
  = Throw (match attempts with
           | O => JNull
           | S m => gotoErrorAt w url m
           end)
  /\ navigationAttempts (snd (gotoWithRetry w url attempts d))
     = navigationAttempts d ++ attemptsLog url 0 attempts
  /\ navigationErrors (snd (gotoWithRetry w url attempts d))
     = navigationErrors d ++ errorsLog w url 0 attempts.
Proof.
  intros Hrej. unfold gotoWithRetry.
  apply (@gotoWithRetryFrom_exhausted w url attempts JNull 0 d Hrej).
Qed.

Lemma gotoWithRetry_throws_last_error_witness :
  fst (gotoWithRetry httpAbortedWorld exampleBaseUrl 3
         (initialDiagnostics httpAbortedWorld))
  = Throw navigationAborted.
Proof.
  destruct (@gotoWithRetry_throws_last_error httpAbortedWorld exampleBaseUrl 3
              (initialDiagnostics httpAbortedWorld))
    as (H1 & _).
  - apply rejectedFrom_constant with (e := navigationAborted);
      [reflexivity|vm_compute; discriminate].
  - exact H1.
Defined.

(** ** The strategy marked as used *)

Section UsedStrategy.

Variable w : World.

Lemma gotoWithRetry_keeps_strategy (url : jsstring) (n : nat)
    (d : Diagnostics) :
  navigationStrategyAttempts (snd (gotoWithRetry w url n d))
  = navigationStrategyAttempts d
  /\ navigationStrategyUsed (snd (gotoWithRetry w url n d))
     = navigationStrategyUsed d.
Proof.
  apply (@gotoWithRetry_preserves w
           (fun x => navigationStrategyAttempts x = navigationStrategyAttempts d
                     /\ navigationStrategyUsed x = navigationStrategyUsed d));
    try (intros v x H; exact H).
  split; reflexivity.
Qed.

Lemma tryHttpStrategy_used (baseUrl : jsstring) (d : Diagnostics) :
  wp (tryHttpStrategy w baseUrl) (UsedIsLastAttempt d) d.
Proof.
  unfold wp. destruct (tryHttpStrategy_log w baseUrl d) as (La & _ & Lu).
  destruct (tryHttpStrategy w baseUrl d) as [[u|e] d1]; simpl in *.
  - exists HTTP, baseUrl, (navigationStrategyAttempts d). auto.
  - exact Lu.
Qed.

Lemma tryFileStrategy_used (d : Diagnostics) :
  wp (tryFileStrategy w) (UsedIsLastAttempt d) d.
Proof.
  unfold wp, tryFileStrategy, pushStrategyAttempt, bind, modify.
  cbv beta iota.
  match goal with
  | |- context [gotoWithRetry w (fileUrl w) 2 ?s] =>
      destruct (gotoWithRetry_keeps_strategy (fileUrl w) 2 s) as [Ha Hu];
      destruct (gotoWithRetry w (fileUrl w) 2 s) as [[u|e] d1]
  end; simpl in *.
  - exists FILE, (fileUrl w), (navigationStrategyAttempts d). auto.
  - exact Hu.
Qed.

Lemma tryInlineStrategy_used (d : Diagnostics) :
  wp (tryInlineStrategy w) (UsedIsLastAttempt d) d.
Proof.
  unfold wp, tryInlineStrategy, pushStrategyAttempt, bind, modify, await.
  destruct (readIndexHtml w); simpl; [|reflexivity].
  destruct (setContent w); simpl; [|reflexivity].
  exists INLINE, (indexHtmlPath w), (navigationStrategyAttempts d). auto.
Qed.

Lemma usedIsLastAttempt_trans {A} (d0 d1 : Diagnostics) (c : Completion A)
    (d : Diagnostics) :
  navigationStrategyUsed d1 = navigationStrategyUsed d0 ->
  UsedIsLastAttempt d1 c d -> UsedIsLastAttempt d0 c d.
Proof. intros H. destruct c; simpl; [auto|]. intros ->. exact H. Qed.

Lemma fileThenInline_used (d : Diagnostics) :
  wp (fileThenInline w) (UsedIsLastAttempt d) d.
Proof.
  unfold fileThenInline. apply wp_tryCatch.
  eapply wp_mono; [apply tryFileStrategy_used|].
  intros c d1 H. destruct c as [u|e]; [exact H|]. simpl in H.
  apply wp_bind. apply wp_orThrow; [|intros _; exact H].
  intros text _. apply wp_bind. unfold pushFallback. apply wp_modify.
  eapply wp_mono; [apply tryInlineStrategy_used|].
  intros c d2 H2. eapply usedIsLastAttempt_trans; [|exact H2]. exact H.
Qed.

Lemma navigateWithFallback_used (baseUrl : jsstring) (d : Diagnostics) :
  wp (navigateWithFallback w baseUrl) (UsedIsLastAttempt d) d.
Proof.
  unfold navigateWithFallback. apply wp_bind, wp_modify. apply wp_bind.
  set (d0 := set_navigationHttpOptIn (Some (allowHttp w)) d).
  assert (Hfile : forall d1,
             navigationStrategyUsed d1 = navigationStrategyUsed d ->
             wp (fileThenInline w) (UsedIsLastAttempt d) d1).
  { intros d1 H1. eapply wp_mono; [apply fileThenInline_used|].
    intros c d2 H2. eapply usedIsLastAttempt_trans; [exact H1|exact H2]. }
  destruct (allowHttp w && Js.truthy (JStr baseUrl)).
  - apply wp_tryCatch. apply wp_bind.
    eapply wp_mono; [apply tryHttpStrategy_used|].
    intros c d1 H1. destruct c as [u|e].
    + apply wp_ret. apply wp_ret. exact H1.
    + simpl in H1. apply wp_bind. apply wp_orThrow; [|intros _; exact H1].
      intros text _. apply wp_bind. unfold pushFallback. apply wp_modify.
      apply wp_bind. apply wp_orThrow; [|intros _; exact H1].
      intros [|] _; simpl negb; cbv iota.
      * apply wp_ret. apply Hfile. exact H1.
      * apply wp_throw. exact H1.
  - apply wp_bind. unfold pushFallback. apply wp_modify. apply wp_ret.
    apply Hfile. reflexivity.
Qed.

End UsedStrategy.

(** X3. When [navigateWithFallback] returns, the strategy it marks as used
    is the one it attempted last; when it throws, the mark is left as it
    was. *)
Theorem used_strategy_is_last_attempted (w : World) (baseUrl : jsstring)
    (d : Diagnostics) :
  UsedIsLastAttempt d (fst (navigateWithFallback w baseUrl d))
    (snd (navigateWithFallback w baseUrl d)).
Proof. exact (navigateWithFallback_used w baseUrl d). Qed.

(** ** How often the page is loaded *)

Section PageLoads.

Variable w : World.

Lemma gotoWithRetryFrom_attempts (url : jsstring) (remaining : nat) :
  forall (lastError : JsValue) (i : nat) (d : Diagnostics),
    exists k,
      k <= remaining
      /\ navigationAttempts
           (snd (gotoWithRetryFrom w url lastError i remaining d))
         = navigationAttempts d ++ attemptsLog url i k.
Proof.
  induction remaining as [|remaining IH]; intros lastError i d.
  - exists 0. split; [lia|]. unfold attemptsLog. simpl.
    rewrite app_nil_r. reflexivity.
  - destruct (pageGoto w url i) as [|e] eqn:Hg.
    + exists 1. split; [lia|].
      erewrite gotoWithRetryFrom_step_resolved; [|exact Hg]. reflexivity.
    + destruct (errorText e) as [t|] eqn:Ht.
      * erewrite gotoWithRetryFrom_step_rejected;
          [|exact Hg|rewrite Ht; discriminate].
        match goal with
        | |- context [gotoWithRetryFrom w url e (i + 1) remaining ?s] =>
            destruct (IH e (i + 1) s) as (k & Hk & H)
        end.
        exists (S k). split; [lia|]. rewrite H, attemptsLog_S.
        cbn [navigationAttempts set_navigationErrors set_navigationAttempts].
        rewrite <- app_assoc. reflexivity.
      * exists 1. split; [lia|]. simpl.
        unfold bind, tryCatch, modify, await, ret, orThrow, throw.
        rewrite Hg. simpl. rewrite Ht. reflexivity.
Qed.

Lemma gotoWithRetry_attempts (url : jsstring) (n : nat) (d : Diagnostics) :
  exists k,
    k <= n
    /\ navigationAttempts (snd (gotoWithRetry w url n d))
       = navigationAttempts d ++ attemptsLog url 0 k.
Proof. apply gotoWithRetryFrom_attempts. Qed.

Lemma tryHttpStrategy_attempts (baseUrl : jsstring) (d : Diagnostics) :
  exists k,
    k <= 3
    /\ navigationAttempts (snd (tryHttpStrategy w baseUrl d))
       = navigationAttempts d ++ attemptsLog baseUrl 0 k.
Proof.
  unfold tryHttpStrategy, pushStrategyAttempt, bind, modify. cbv beta iota.
  match goal with
  | |- context [gotoWithRetry w baseUrl 3 ?s] =>
      destruct (gotoWithRetry_attempts baseUrl 3 s) as (k & Hk & H);
      destruct (gotoWithRetry w baseUrl 3 s) as [[u|e] d1]
  end; simpl in *; exists k; auto.
Qed.

Lemma tryFileStrategy_attempts (d : Diagnostics) :
  exists k,
    k <= 2
    /\ navigationAttempts (snd (tryFileStrategy w d))
       = navigationAttempts d ++ attemptsLog (fileUrl w) 0 k.
Proof.
  unfold tryFileStrategy, pushStrategyAttempt, bind, modify. cbv beta iota.
  match goal with
  | |- context [gotoWithRetry w (fileUrl w) 2 ?s] =>
      destruct (gotoWithRetry_attempts (fileUrl w) 2 s) as (k & Hk & H);
      destruct (gotoWithRetry w (fileUrl w) 2 s) as [[u|e] d1]
  end; simpl in *; exists k; auto.
Qed.

Lemma fileThenInline_attempts_bound (d : Diagnostics) :
  exists k,
    k <= 2
    /\ navigationAttempts (snd (fileThenInline w d))
       = navigationAttempts d ++ attemptsLog (fileUrl w) 0 k.
Proof.
  destruct (tryFileStrategy_attempts d) as (k & Hk & H).
  exists k. split; [exact Hk|].
  change (wp (fileThenInline w)
             (fun _ x => navigationAttempts x
                         = navigationAttempts d ++ attemptsLog (fileUrl w) 0 k)
             d).
  unfold fileThenInline. apply wp_tryCatch.
  apply wp_mono with
    (Q := fun (_ : Completion unit) x =>
            navigationAttempts x
            = navigationAttempts d ++ attemptsLog (fileUrl w) 0 k);
    [exact H|].
  intros c d1 H1. destruct c as [u|e]; [exact H1|].
  apply preserves_wp; [|exact H1].
  unfold tryInlineStrategy, pushFallback, pushStrategyAttempt. footprint.
Qed.

Lemma navigateWithFallback_attempts (baseUrl : jsstring) (d : Diagnostics) :
  exists h f,
    h <= 3 /\ f <= 2
    /\ (allowHttp w = false -> h = 0)
    /\ navigationAttempts (snd (navigateWithFallback w baseUrl d))
       = navigationAttempts d
         ++ attemptsLog baseUrl 0 h ++ attemptsLog (fileUrl w) 0 f.
Proof.
  set (d0 := set_navigationHttpOptIn (Some (allowHttp w)) d).
  destruct (tryHttpStrategy_attempts baseUrl d0) as (h & Hh & Hhttp).
  assert (Hfile : forall d1 hh,
             navigationAttempts d1
             = navigationAttempts d ++ attemptsLog baseUrl 0 hh ->
             wp (fileThenInline w)
                (fun _ x => exists f, f <= 2 /\
                   navigationAttempts x
                   = navigationAttempts d
                     ++ attemptsLog baseUrl 0 hh
                     ++ attemptsLog (fileUrl w) 0 f) d1).
  { intros d1 hh H1. unfold wp.
    destruct (fileThenInline_attempts_bound d1) as (f & Hf & H).
    exists f. split; [exact Hf|]. rewrite H, H1, <- app_assoc. reflexivity. }
  assert (Hnone : forall d1 hh,
             navigationAttempts d1
             = navigationAttempts d ++ attemptsLog baseUrl 0 hh ->
             exists f, f <= 2 /\
               navigationAttempts d1
               = navigationAttempts d
                 ++ attemptsLog baseUrl 0 hh ++ attemptsLog (fileUrl w) 0 f).
  { intros d1 hh H1. exists 0. split; [lia|]. rewrite H1.
    unfold attemptsLog at 3. simpl. rewrite app_nil_r. reflexivity. }
  cut (wp (navigateWithFallback w baseUrl)
          (fun _ x => exists hh f, hh <= 3 /\ f <= 2 /\
             (allowHttp w = false -> hh = 0) /\
             navigationAttempts x
             = navigationAttempts d
               ++ attemptsLog baseUrl 0 hh ++ attemptsLog (fileUrl w) 0 f) d).
  { intros H. exact H. }
  unfold navigateWithFallback. apply wp_bind, wp_modify. fold d0.
  apply wp_bind.
  destruct (allowHttp w && Js.truthy (JStr baseUrl)) eqn:Eallow.
  - assert (Hon : allowHttp w = false -> h = 0).
    { intros Hoff. rewrite Hoff in Eallow. discriminate. }
    apply wp_tryCatch. apply wp_bind.
    apply wp_mono with
      (Q := fun (_ : Completion unit) x =>
              navigationAttempts x
              = navigationAttempts d ++ attemptsLog baseUrl 0 h);
      [exact Hhttp|].
    intros c d1 H1. destruct c as [u|e].
    + apply wp_ret. apply wp_ret.
      destruct (Hnone d1 h H1) as (f & Hf & H). exists h, f. auto.
    + assert (Hstop : exists hh f, hh <= 3 /\ f <= 2 /\
                (allowHttp w = false -> hh = 0) /\
                navigationAttempts d1
                = navigationAttempts d
                  ++ attemptsLog baseUrl 0 hh ++ attemptsLog (fileUrl w) 0 f).
      { destruct (Hnone d1 h H1) as (f & Hf & H). exists h, f. auto. }
      apply wp_bind. apply wp_orThrow; [|intros _; exact Hstop].
      intros text _. apply wp_bind. unfold pushFallback. apply wp_modify.
      apply wp_bind. apply wp_orThrow; [|intros _; exact Hstop].
      intros [|] _; simpl negb; cbv iota.
      * apply wp_ret. eapply wp_mono; [apply (Hfile _ h); exact H1|].
        intros c d2 (f & Hf & H). exists h, f. auto.
      * apply wp_throw. exact Hstop.
  - apply wp_bind. unfold pushFallback. apply wp_modify. apply wp_ret.
    eapply wp_mono; [apply (Hfile _ 0)|].
    + unfold attemptsLog. simpl. rewrite app_nil_r. reflexivity.
    + intros c d2 (f & Hf & H). exists 0, f. split; [lia|]. auto.
Qed.

End PageLoads.

(** X4. [navigateWithFallback] loads the page at most three times over HTTP
    and then at most twice from the file system, and never over HTTP unless
    HTTP is opted in. *)
Theorem page_loads_bounded (w : World) (baseUrl : jsstring)
    (d : Diagnostics) :
  exists h f,
    h <= 3 /\ f <= 2
    /\ (allowHttp w = false -> h = 0)
    /\ navigationAttempts (snd (navigateWithFallback w baseUrl d))
       = navigationAttempts d ++ attemptsLog baseUrl 0 h
         ++ attemptsLog (fileUrl w) 0 f.
Proof. exact (navigateWithFallback_attempts w baseUrl d). Qed.

(** ** From FILE to INLINE *)

Lemma gotoWithRetry_keeps_fallbacks (w : World) (url : jsstring) (n : nat)
    (d : Diagnostics) :
  navigationFallbacks (snd (gotoWithRetry w url n d)) = navigationFallbacks d.
Proof.
  apply (@gotoWithRetry_preserves w
           (fun x => navigationFallbacks x = navigationFallbacks d));
    try (intros v x H; exact H).
  reflexivity.
Qed.

(** X5. In the default mode, when both loads from the file system are
    rejected, the navigation goes on to the INLINE strategy: it ends as that
    step ends, the transition FILE to INLINE is logged after the fixed HTTP
    to FILE one with the text of the second error as its reason, and INLINE
    is marked as used only if the step succeeds. *)
Theorem file_failure_falls_back_to_inline (w : World) (baseUrl : jsstring)
    (d : Diagnostics) :
  allowHttp w = false ->
  RejectedFrom w (fileUrl w) 0 2 ->
  fst (navigateWithFallback w baseUrl d) = inlineCompletion w
  /\ navigationFallbacks (snd (navigateWithFallback w baseUrl d))
     = navigationFallbacks d
       ++ [mkFallback HTTP FILE disabledReason;
           mkFallback FILE INLINE (gotoTextAt w (fileUrl w) 1)]
  /\ navigationStrategyUsed (snd (navigateWithFallback w baseUrl d))
     = match inlineCompletion w with
       | Normal _ => Some INLINE
       | Throw _ => navigationStrategyUsed d
       end
  /\ (readIndexHtml w = Resolves ->
      navigationStrategyAttempts (snd (navigateWithFallback w baseUrl d))
      = navigationStrategyAttempts d
        ++ [(FILE, fileUrl w); (INLINE, indexHtmlPath w)]).
Proof.
  intros Hallow Hrej.
  remember (navigateWithFallback w baseUrl d) as r eqn:Hr.
  unfold navigateWithFallback in Hr. rewrite Hallow in Hr. cbn [andb] in Hr.
  unfold tryCatch, tryFileStrategy, pushStrategyAttempt, pushFallback, bind,
    modify, ret, gotoWithRetry in Hr.
  cbv beta iota in Hr.
  match type of Hr with
  | context [gotoWithRetryFrom w (fileUrl w) JNull 0 2 ?s] =>
      pose proof (@gotoWithRetryFrom_exhausted w (fileUrl w) 2 JNull 0 s Hrej)
        as (G1 & _ & _);
      pose proof (gotoWithRetry_keeps_fallbacks w (fileUrl w) 2 s) as G2;
      pose proof (gotoWithRetry_keeps_strategy w (fileUrl w) 2 s) as (G3 & G4);
      unfold gotoWithRetry in G2, G3, G4;
      destruct (gotoWithRetryFrom w (fileUrl w) JNull 0 2 s) as [c d1]
  end.
  simpl in G1, G2, G3, G4. subst c. cbv beta iota in Hr.
  destruct (Hrej 1 ltac:(lia)) as (e & Hg & Ht).
  assert (Htext : errorText (gotoErrorAt w (fileUrl w) 1)
                  = Some (gotoTextAt w (fileUrl w) 1)).
  { unfold gotoTextAt, gotoErrorAt. rewrite Hg.
    destruct (errorText e); [reflexivity|contradiction]. }
  rewrite Htext in Hr.
  unfold orThrow, ret, tryInlineStrategy, await, pushStrategyAttempt, bind,
    modify in Hr.
  cbv beta iota in Hr. unfold inlineCompletion.
  destruct (readIndexHtml w); cbv beta iota in Hr;
    [destruct (setContent w); cbv beta iota in Hr|];
    subst r; unfold ret, throw; cbv beta iota;
    cbn [fst snd navigationFallbacks navigationStrategyUsed
         navigationStrategyAttempts set_navigationFallbacks
         set_navigationStrategyUsed set_navigationStrategyAttempts];
    rewrite ?G2, ?G3, ?G4;
    rewrite <- ?app_assoc; repeat split; try reflexivity; try discriminate;
    intros _; cbn [navigationStrategyAttempts set_navigationStrategyUsed
      set_navigationStrategyAttempts set_navigationFallbacks];
    rewrite G3, <- app_assoc; reflexivity.
Qed.

Lemma file_failure_falls_back_to_inline_witness :
  fst (navigateWithFallback fileBlockedWorld exampleBaseUrl
         (initialDiagnostics fileBlockedWorld)) = Normal tt
  /\ navigationStrategyUsed
       (snd (navigateWithFallback fileBlockedWorld exampleBaseUrl
               (initialDiagnostics fileBlockedWorld)))
     = Some INLINE.
Proof.
  destruct (@file_failure_falls_back_to_inline fileBlockedWorld exampleBaseUrl
              (initialDiagnostics fileBlockedWorld))
    as (H1 & _ & H3 & _).
  - reflexivity.
  - apply rejectedFrom_constant with (e := navigationAborted);
      [reflexivity|vm_compute; discriminate].
  - split; [exact H1|exact H3].
Defined.

(** ** HTTP, when opted in *)

Lemma tryHttpStrategy_eq (w : World) (baseUrl : jsstring) (d : Diagnostics) :
  tryHttpStrategy w baseUrl d
  = match gotoWithRetry w baseUrl 3
            (set_navigationStrategyAttempts
               (navigationStrategyAttempts d ++ [(HTTP, baseUrl)]) d) with
    | (Normal _, d1) => (Normal tt, set_navigationStrategyUsed (Some HTTP) d1)
    | (Throw e, d1) => (Throw e, d1)
    end.
Proof.
  unfold tryHttpStrategy, pushStrategyAttempt, bind, modify.
  destruct (gotoWithRetry w baseUrl 3 _) as [[[]|e] d1]; reflexivity.
Qed.

(** X6. With HTTP opted in and a load over HTTP that succeeds within three
    attempts, [navigateWithFallback] returns with HTTP marked as used, logs
    no transition and attempts no other strategy. *)
Theorem http_success_uses_http (w : World) (baseUrl : jsstring) (k : nat)
    (d : Diagnostics) :
  allowHttp w = true -> baseUrl <> [] ->
  k < 3 -> RejectedFrom w baseUrl 0 k -> pageGoto w baseUrl k = Resolves ->
  fst (navigateWithFallback w baseUrl d) = Normal tt
  /\ navigationStrategyUsed (snd (navigateWithFallback w baseUrl d))
     = Some HTTP
  /\ navigationFallbacks (snd (navigateWithFallback w baseUrl d))
     = navigationFallbacks d
  /\ navigationStrategyAttempts (snd (navigateWithFallback w baseUrl d))
     = navigationStrategyAttempts d ++ [(HTTP, baseUrl)]
  /\ navigationAttempts (snd (navigateWithFallback w baseUrl d))
     = navigationAttempts d ++ attemptsLog baseUrl 0 (S k)
  /\ navigationErrors (snd (navigateWithFallback w baseUrl d))
     = navigationErrors d ++ errorsLog w baseUrl 0 k.
Proof.
  intros Hallow Hurl Hk Hrej Hres.
  set (d0 := set_navigationHttpOptIn (Some true) d).
  pose proof (tryHttpStrategy_log w baseUrl d0) as (La & Lf & Lu).
  pose proof (tryHttpStrategy_eq w baseUrl d0) as Teq.
  set (d1 := set_navigationStrategyAttempts
               (navigationStrategyAttempts d0 ++ [(HTTP, baseUrl)]) d0) in *.
  destruct (@gotoWithRetryFrom_success w baseUrl k JNull 0 3 d1 Hk Hrej Hres)
    as (G1 & G2 & G3).
  fold (gotoWithRetry w baseUrl 3 d1) in G1, G2, G3.
  destruct (gotoWithRetry w baseUrl 3 d1) as [[u|e] d2]; simpl in G1;
    [|discriminate].
  simpl in G2, G3.
  rewrite (@navigate_http_returns w baseUrl d _ tt Hallow Hurl Teq).
  rewrite Teq in La, Lf, Lu. simpl in La, Lf, Lu |- *.
  repeat split; assumption.
Qed.

Lemma http_success_uses_http_witness :
  navigationStrategyUsed
    (snd (navigateWithFallback httpOptInWorld exampleBaseUrl
            (initialDiagnostics httpOptInWorld)))
  = Some HTTP
  /\ navigationFallbacks
       (snd (navigateWithFallback httpOptInWorld exampleBaseUrl
               (initialDiagnostics httpOptInWorld)))
     = [].
Proof.
  destruct (@http_success_uses_http httpOptInWorld exampleBaseUrl 0
              (initialDiagnostics httpOptInWorld))
    as (_ & H2 & H3 & _).
  - vm_compute. reflexivity.
  - discriminate.
  - lia.
  - intros i Hi. lia.
  - reflexivity.
  - split; [exact H2|exact H3].
Defined.

(** X7. With HTTP opted in, when the three loads over HTTP are rejected and
    the last error is a reachability error, the page is loaded from the file
    system: FILE is marked as used and the transition HTTP to FILE is logged
    with the text of the last HTTP error as its reason. *)
Theorem http_unreachable_falls_back_to_file (w : World) (baseUrl : jsstring)
    (d : Diagnostics) :
  allowHttp w = true -> baseUrl <> [] ->
  RejectedFrom w baseUrl 0 3 ->
  isHttpReachabilityError (gotoErrorAt w baseUrl 2) = Some true ->
  pageGoto w (fileUrl w) 0 = Resolves ->
  fst (navigateWithFallback w baseUrl d) = Normal tt
  /\ navigationStrategyUsed (snd (navigateWithFallback w baseUrl d))
     = Some FILE
  /\ navigationFallbacks (snd (navigateWithFallback w baseUrl d))
     = navigationFallbacks d
       ++ [mkFallback HTTP FILE (gotoTextAt w baseUrl 2)]
  /\ navigationStrategyAttempts (snd (navigateWithFallback w baseUrl d))
     = navigationStrategyAttempts d ++ [(HTTP, baseUrl); (FILE, fileUrl w)]
  /\ navigationAttempts (snd (navigateWithFallback w baseUrl d))
     = navigationAttempts d ++ attemptsLog baseUrl 0 3
       ++ [(fileUrl w, 1)].
Proof.
  intros Hallow Hurl Hrej Hreach Hfile.
  set (d0 := set_navigationHttpOptIn (Some true) d).
  pose proof (tryHttpStrategy_log w baseUrl d0) as (La & Lf & Lu).
  pose proof (tryHttpStrategy_eq w baseUrl d0) as Teq.
  set (d1 := set_navigationStrategyAttempts
               (navigationStrategyAttempts d0 ++ [(HTTP, baseUrl)]) d0) in *.
  destruct (@gotoWithRetryFrom_exhausted w baseUrl 3 JNull 0 d1 Hrej)
    as (G1 & G2 & G3).
  fold (gotoWithRetry w baseUrl 3 d1) in G1, G2, G3.
  destruct (gotoWithRetry w baseUrl 3 d1) as [[u|e] d2]; simpl in G1;
    [discriminate|].
  injection G1 as ->. simpl in G2, G3.
  rewrite Teq in La, Lf, Lu. simpl in La, Lf, Lu.
  assert (Htext : errorText (gotoErrorAt w baseUrl 2)
                  = Some (gotoTextAt w baseUrl 2)).
  { unfold gotoTextAt. unfold isHttpReachabilityError in Hreach.
    destruct (errorText (gotoErrorAt w baseUrl 2)); [reflexivity|discriminate]. }
  rewrite (@navigate_http_throws w baseUrl d d2 _ _ Hallow Hurl Teq Htext).
  cbv zeta.
  unfold isHttpReachabilityError in Hreach. rewrite Htext in Hreach.
  injection Hreach as Hreach. rewrite Hreach.
  unfold fileThenInline, tryCatch, tryFileStrategy, pushStrategyAttempt, bind,
    modify, gotoWithRetry.
  erewrite gotoWithRetryFrom_step_resolved; [|exact Hfile].
  simpl. rewrite La, Lf, G2. rewrite <- !app_assoc.
  repeat split.
Qed.

Lemma http_unreachable_falls_back_to_file_witness :
  fst (navigateWithFallback httpRefusedWorld exampleBaseUrl
         (initialDiagnostics httpRefusedWorld)) = Normal tt
  /\ navigationStrategyUsed
       (snd (navigateWithFallback httpRefusedWorld exampleBaseUrl
               (initialDiagnostics httpRefusedWorld)))
     = Some FILE.
Proof.
  destruct (@http_unreachable_falls_back_to_file httpRefusedWorld
              exampleBaseUrl (initialDiagnostics httpRefusedWorld))
    as (H1 & H2 & _).
  - vm_compute. reflexivity.
  - discriminate.
  - apply rejectedFrom_constant with (e := connectionRefused);
      [intros i; vm_compute; reflexivity|vm_compute; discriminate].
  - vm_compute. reflexivity.
  - vm_compute. reflexivity.
  - split; [exact H1|exact H2].
Defined.

(** ** Reachability errors and the classes *)

(** X8. An error that [classifyFailure] files under connectivity-failure is
    a reachability error for [isHttpReachabilityError], and a reachability
    error is never filed under application-failure. *)
Theorem reachability_and_classes (e : JsValue) :
  (classifyFailure e = Some "connectivity-failure"%string ->
   isHttpReachabilityError e = Some true)
  /\ (isHttpReachabilityError e = Some true ->
      classifyFailure e <> Some "application-failure"%string).
Proof.
  unfold classifyFailure, isHttpReachabilityError, isMissingBrowserBinaryError.
  destruct (errorText e) as [text|]; [|split; discriminate].
  unfold httpReachabilityRe, connectivityRe, runtimeRe.
  rewrite !test_Alt.
  destruct (test missingBrowserBinaryRe text);
    destruct (test (lit "ERR_EMPTY_RESPONSE") text);
    destruct (test (lit "ERR_CONNECTION") text);
    destruct (test (lit "ECONNREFUSED") text);
    destruct (test (lit "Navigation timeout") text);
    destruct (test (lit "Connection terminated unexpectedly") text);
    destruct (test (lit "TargetClosedError") text);
    destruct (test (lit "BrowserType.launch") text);
    destruct (test (lit "crash") text);
    destruct (test (lit "SIGSEGV") text);
    simpl; split; intros H; try discriminate; reflexivity.
Qed.

(** ** Launching a browser *)

Section Launch.

Variable w : World.

(** Equality of records, field by field. *)
Lemma diagnostics_ext (a b : Diagnostics) :
  navigationAttempts a = navigationAttempts b ->
  navigationErrors a = navigationErrors b ->
  navigationStrategyAttempts a = navigationStrategyAttempts b ->
  navigationFallbacks a = navigationFallbacks b ->
  navigationStrategyUsed a = navigationStrategyUsed b ->
  navigationHttpOptIn a = navigationHttpOptIn b ->
  browserAttempts a = browserAttempts b ->
  browserLaunchErrors a = browserLaunchErrors b ->
  browserUsed a = browserUsed b ->
  binaryChecks a = binaryChecks b ->
  installAttempt a = installAttempt b ->
  serverSelectedHost a = serverSelectedHost b ->
  baseUrl a = baseUrl b ->
  sanityScreenshot a = sanityScreenshot b ->
  screenshot a = screenshot b ->
  trace a = trace b ->
  UiSmoke.error a = UiSmoke.error b ->
  classification a = classification b ->
  result a = result b ->
  ci a = ci b -> strict a = strict b ->
  envSkipBrowserDownload a = envSkipBrowserDownload b ->
  a = b.
Proof.
  destruct a, b; simpl; intros; subst; reflexivity.
Qed.

Lemma launchCandidates_rejected_step (x : BrowserName)
    (rest : list BrowserName) (d : Diagnostics) :
  LaunchRejected w [x] ->
  launchCandidates w (x :: rest) d
  = launchCandidates w rest (afterFailedLaunches w [x] d).
Proof.
  intros H. destruct (H x (or_introl eq_refl)) as (e & Hl & Ht).
  destruct (errorText e) as [t|] eqn:Et; [|contradiction].
  unfold afterFailedLaunches, launchMissingBinary, launchTextAt,
    isMissingBrowserBinaryError.
  simpl existsb. simpl map. rewrite Hl, Et, orb_false_r.
  simpl launchCandidates.
  unfold bind, tryCatch, modify, await, orThrow, isMissingBrowserBinaryError.
  rewrite Hl. unfold ret, throw. cbv beta iota. rewrite Et. cbv beta iota.
  destruct (test missingBrowserBinaryRe t); cbv beta iota; reflexivity.
Qed.

Lemma afterFailedLaunches_app (xs ys : list BrowserName) (d : Diagnostics) :
  afterFailedLaunches w ys (afterFailedLaunches w xs d)
  = afterFailedLaunches w (xs ++ ys) d.
Proof.
  unfold afterFailedLaunches. rewrite existsb_app, map_app.
  destruct (existsb (launchMissingBinary w) xs),
           (existsb (launchMissingBinary w) ys);
    apply diagnostics_ext; simpl; rewrite <- ?app_assoc; reflexivity.
Qed.

Lemma launchCandidates_first_success (pre : list BrowserName) :
  forall (c : BrowserName) (post : list BrowserName) (d : Diagnostics),
    LaunchRejected w pre ->
    launch w c = Resolves ->
    launchCandidates w (pre ++ c :: post) d
    = (Normal (Some c),
       set_browserAttempts
         (browserAttempts (afterFailedLaunches w pre d) ++ [c])
         (afterFailedLaunches w pre d)).
Proof.
  induction pre as [|x pre IH]; intros c post d Hrej Hc.
  - simpl. unfold bind, tryCatch, modify, await, ret. rewrite Hc.
    cbv beta iota. f_equal. unfold afterFailedLaunches. simpl.
    apply diagnostics_ext; simpl; rewrite ?app_nil_r; reflexivity.
  - simpl app. rewrite launchCandidates_rejected_step.
    + rewrite IH; [|intros y Hy; apply Hrej; right; exact Hy|exact Hc].
      rewrite (afterFailedLaunches_app [x] pre). reflexivity.
    + intros y [<-|[]]. apply Hrej. left. reflexivity.
Qed.

Lemma launchCandidates_all_rejected (xs : list BrowserName) :
  forall d : Diagnostics,
    LaunchRejected w xs ->
    launchCandidates w xs d = (Normal None, afterFailedLaunches w xs d).
Proof.
  induction xs as [|x xs IH]; intros d Hrej.
  - simpl. unfold ret, afterFailedLaunches. simpl. f_equal.
    apply diagnostics_ext; simpl; rewrite ?app_nil_r; reflexivity.
  - rewrite launchCandidates_rejected_step.
    + rewrite IH; [|intros y Hy; apply Hrej; right; exact Hy].
      rewrite (afterFailedLaunches_app [x] xs). reflexivity.
    + intros y [<-|[]]. apply Hrej. left. reflexivity.
Qed.

End Launch.

Lemma launchRejected_one (w : World) (x : BrowserName) (e : JsValue) :
  launch w x = Rejects e -> errorText e <> None -> LaunchRejected w [x].
Proof. intros H Ht y [<-|[]]. exists e. auto. Qed.

Lemma launchRejected_all (w : World) (e : JsValue) (xs : list BrowserName) :
  (forall x, launch w x = Rejects e) -> errorText e <> None ->
  LaunchRejected w xs.
Proof. intros H Ht x _. exists e. auto. Qed.

(** X9. [launchBrowser] returns the first candidate that launches; the
    candidates before it are logged with their errors, and the
    classification becomes binary-installation-failure when one of them
    failed for a missing binary, although a browser was launched, and is
    left as it was otherwise. *)
Theorem launchBrowser_uses_first_launchable (w : World)
    (pre : list BrowserName) (c : BrowserName) (post : list BrowserName)
    (d : Diagnostics) :
  targets w = pre ++ c :: post ->
  LaunchRejected w pre ->
  launch w c = Resolves ->
  fst (launchBrowser w d) = Normal (Some c)
  /\ browserAttempts (snd (launchBrowser w d)) = browserAttempts d ++ pre ++ [c]
  /\ browserLaunchErrors (snd (launchBrowser w d))
     = browserLaunchErrors d ++ map (fun x => (x, launchTextAt w x)) pre
  /\ classification (snd (launchBrowser w d))
     = (if existsb (launchMissingBinary w) pre
        then "binary-installation-failure"%string
        else classification d).
Proof.
  intros Ht Hrej Hc. unfold launchBrowser. rewrite Ht.
  rewrite (@launchCandidates_first_success w pre c post d Hrej Hc).
  unfold afterFailedLaunches.
  destruct (existsb (launchMissingBinary w) pre); simpl;
    rewrite <- ?app_assoc; auto.
Qed.

Lemma launchBrowser_uses_first_launchable_witness :
  fst (launchBrowser chromiumMissingWorld
         (initialDiagnostics chromiumMissingWorld))
  = Normal (Some webkit)
  /\ classification
       (snd (launchBrowser chromiumMissingWorld
               (initialDiagnostics chromiumMissingWorld)))
     = "binary-installation-failure"%string.
Proof.
  destruct (@launchBrowser_uses_first_launchable chromiumMissingWorld
              [chromium] webkit []
              (initialDiagnostics chromiumMissingWorld))
    as (H1 & _ & _ & H4).
  - reflexivity.
  - apply launchRejected_one with (e := executableMissing);
      [reflexivity|vm_compute; discriminate].
  - reflexivity.
  - split; [exact H1|exact H4].
Defined.

(** X10. When every candidate is rejected, [launchBrowser] returns [null],
    having attempted all of them in order and logged their errors, and marks
    no browser as used. *)
Theorem launchBrowser_none_when_all_rejected (w : World) (d : Diagnostics) :
  LaunchRejected w (targets w) ->
  fst (launchBrowser w d) = Normal None
  /\ browserAttempts (snd (launchBrowser w d)) = browserAttempts d ++ targets w
  /\ browserLaunchErrors (snd (launchBrowser w d))
     = browserLaunchErrors d
       ++ map (fun x => (x, launchTextAt w x)) (targets w)
  /\ browserUsed (snd (launchBrowser w d)) = browserUsed d.
Proof.
  intros Hrej. unfold launchBrowser.
  rewrite (@launchCandidates_all_rejected w (targets w) d Hrej).
  unfold afterFailedLaunches.
  destruct (existsb (launchMissingBinary w) (targets w)); simpl; auto.
Qed.

Lemma launchBrowser_none_when_all_rejected_witness :
  fst (launchBrowser noLaunchWorld (initialDiagnostics noLaunchWorld))
  = Normal None
  /\ browserAttempts
       (snd (launchBrowser noLaunchWorld (initialDiagnostics noLaunchWorld)))
     = [chromium; webkit].
Proof.
  destruct (@launchBrowser_none_when_all_rejected noLaunchWorld
              (initialDiagnostics noLaunchWorld))
    as (H1 & H2 & _).
  - apply launchRejected_all with (e := pageCrashError);
      [reflexivity|vm_compute; discriminate].
  - split; [exact H1|exact H2].
Defined.

Lemma launchRejected_cons (w : World) (x : BrowserName)
    (xs : list BrowserName) (e : JsValue) :
  launch w x = Rejects e -> errorText e <> None ->
  LaunchRejected w xs -> LaunchRejected w (x :: xs).
Proof.
  intros Hl Ht H y [<-|Hy]; [exists e; auto|apply H, Hy].
Qed.

Lemma launchCandidates_explained (w : World) (xs : list BrowserName) :
  forall d : Diagnostics,
    LaunchExplained w xs (fst (launchCandidates w xs d)).
Proof.
  induction xs as [|x xs IH]; intros d.
  - simpl. intros y [].
  - destruct (launch w x) as [|e] eqn:Hl.
    + simpl. unfold bind, tryCatch, modify, await, ret. rewrite Hl. simpl.
      split; [exact Hl|]. exists [], xs. split; [reflexivity|].
      intros y [].
    + destruct (errorText e) as [t|] eqn:Ht.
      * rewrite launchCandidates_rejected_step.
        2:{ intros y [<-|[]]. exists e. split; [exact Hl|].
            rewrite Ht. discriminate. }
        match goal with
        | |- context [launchCandidates w xs ?s] =>
            specialize (IH s); destruct (launchCandidates w xs s) as [[[y|]|e1] d1]
        end; simpl in *.
        -- destruct IH as (Hy & pre & post & -> & Hpre).
           split; [exact Hy|]. exists (x :: pre), post.
           split; [reflexivity|].
           apply launchRejected_cons with (e := e); auto.
           rewrite Ht. discriminate.
        -- apply launchRejected_cons with (e := e); auto.
           rewrite Ht. discriminate.
        -- destruct IH as (-> & pre & y & post & e0 & -> & Hpre & Hy & Hn).
           split; [reflexivity|]. exists (x :: pre), y, post, e0.
           repeat split; auto.
           apply launchRejected_cons with (e := e); auto.
           rewrite Ht. discriminate.
      * simpl. unfold bind, tryCatch, modify, await, ret, orThrow, throw.
        rewrite Hl. simpl. rewrite Ht. simpl.
        split; [reflexivity|]. exists [], x, xs, e.
        repeat split; auto. intros y [].
Qed.

(** X11. Conversely, a candidate returned by [launchBrowser] did launch and
    every candidate before it was rejected; [null] means that every
    candidate was rejected; and [launchBrowser] throws only the TypeError of
    converting a rejection that has no string form. *)
Theorem launchBrowser_explained (w : World) (d : Diagnostics) :
  LaunchExplained w (targets w) (fst (launchBrowser w d)).
Proof. apply launchCandidates_explained. Qed.

(** ** The server *)

Lemma fold_select {A} (ok : A -> bool) (l : list A) :
  forall acc : option A,
    fold_left
      (fun selected host =>
         if ok host
         then match selected with None => Some host | Some _ => selected end
         else selected) l acc
    = match acc with Some _ => acc | None => find ok l end.
Proof.
  induction l as [|x l IH]; intros acc; simpl.
  - destruct acc; reflexivity.
  - rewrite IH. destruct (ok x), acc; reflexivity.
Qed.

Lemma startServer_eq (w : World) (d : Diagnostics) :
  startServer w d
  = (Normal (find (waitForServer w) hosts),
     set_serverSelectedHost (Some (find (waitForServer w) hosts)) d).
Proof.
  unfold startServer. cbv zeta. rewrite fold_select. reflexivity.
Qed.

(** X12. [startServer] selects the first host alias, in the order of
    [hosts], whose polling succeeds, and none exactly when no alias answers.
    *)
Theorem startServer_selects_first_reachable (w : World) (d : Diagnostics) :
  fst (startServer w d) = Normal (find (waitForServer w) hosts)
  /\ serverSelectedHost (snd (startServer w d))
     = Some (find (waitForServer w) hosts)
  /\ (find (waitForServer w) hosts = None <->
      forall host, In host hosts -> waitForServer w host = false).
Proof.
  rewrite startServer_eq. split; [reflexivity|]. split; [reflexivity|].
  split.
  - intros H host Hin. apply (find_none _ _ H host Hin).
  - intros H. destruct (find (waitForServer w) hosts) as [host|] eqn:E;
      [|reflexivity].
    apply find_some in E. destruct E as [Hin Hok].
    rewrite (H host Hin) in Hok. discriminate.
Qed.

(** ** Binary checks *)

Lemma forallb_snd_filter {A} (rows : list (A * bool)) :
  forallb (fun row => snd row) rows = true
  <-> map fst (filter (fun row => negb (snd row)) rows) = [].
Proof.
  induction rows as [|[a b] rows IH]; simpl; [tauto|].
  destruct b; simpl.
  - exact IH.
  - split; discriminate.
Qed.

Lemma checks_forallb (w : World) (call : nat) (xs : list BrowserName) :
  forallb (fun row : BrowserName * bool => snd row)
    (map (fun name => (name, executableExists w call name)) xs)
  = forallb (fun name => executableExists w call name) xs.
Proof.
  induction xs as [|x xs IH]; simpl; [reflexivity|]. rewrite IH. reflexivity.
Qed.

(** X13. [detectBrowserExecutables] answers true exactly when
    [summarizeMissingBrowsers] then lists nothing, and that list is the
    targets whose executable does not exist. *)
Theorem ready_iff_nothing_missing (w : World) (call : nat) (d : Diagnostics) :
  summarizeMissingBrowsers (snd (detectBrowserExecutables w call d))
  = filter (fun name => negb (executableExists w call name)) (targets w)
  /\ (fst (detectBrowserExecutables w call d) = Normal true <->
      summarizeMissingBrowsers (snd (detectBrowserExecutables w call d)) = []).
Proof.
  unfold detectBrowserExecutables, bind, modify, ret, summarizeMissingBrowsers.
  cbv beta iota zeta. cbn [fst snd binaryChecks set_binaryChecks].
  split.
  - induction (targets w) as [|x xs IH]; simpl; [reflexivity|].
    destruct (executableExists w call x); simpl; [exact IH|].
    f_equal. exact IH.
  - rewrite <- forallb_snd_filter. split.
    + intros H. injection H as H. exact H.
    + intros ->. reflexivity.
Qed.

(** ** Rows of the decision table *)

Lemma liftD_eq {A} (m : D A) (st : MainState) (c : Completion A)
    (d : Diagnostics) :
  m (diagnostics st) = (c, d) ->
  liftD m st
  = (c, mkMainState d (finalLine st) (processExitCode st)
                    (diagnosticsFile st) (stdout st)).
Proof. intros H. unfold liftD. rewrite H. reflexivity. Qed.

(** X14. When the playwright package is missing the run concludes failed
    with classification installable-missing and exit code 1, whatever the
    flags, without checking binaries, starting the server or launching a
    browser. *)
Theorem package_missing_fails_the_run (w : World) (e : JsValue) :
  importPlaywright w = Rejects e ->
  isMissingPlaywrightError e = Some true ->
  fst (run w) = Normal tt
  /\ finalLine (snd (run w))
     = Some (mkFinalLine "failed" "installable-missing"
               "npx playwright install" DPackageMissing)
  /\ processExitCode (snd (run w)) = Some 1
  /\ result (diagnostics (snd (run w))) = "failed"%string
  /\ classification (diagnostics (snd (run w))) = "installable-missing"%string
  /\ browserAttempts (diagnostics (snd (run w))) = []
  /\ binaryChecks (diagnostics (snd (run w))) = None
  /\ serverSelectedHost (diagnostics (snd (run w))) = None.
Proof.
  intros Hi Hm.
  remember (run w) as r eqn:Hr.
  unfold run, main, mainHead, conclude, resolvePlaywright, initialState,
    initialDiagnostics in Hr.
  rewrite Hi in Hr. unfold orThrow in Hr. rewrite Hm in Hr.
  lazy -[envIs] in Hr. subst r. repeat split.
Qed.

Lemma package_missing_fails_the_run_witness :
  fst (run skipButMissingWorld) = Normal tt
  /\ processExitCode (snd (run skipButMissingWorld)) = Some 1.
Proof.
  destruct (@package_missing_fails_the_run skipButMissingWorld moduleNotFound)
    as (H1 & _ & H3 & _).
  - reflexivity.
  - vm_compute. reflexivity.
  - split; [exact H1|exact H3].
Defined.

(** X15. When binaries are missing and the install does not bring them, the
    run concludes without starting the server: skipped (exit code 1 in
    strict mode, else 0) when the download was blocked; otherwise skipped
    with exit code 0 when CI is 'true' and strict mode is off; otherwise
    failed with exit code 1. *)
Theorem missing_binaries_policy (w : World) :
  importPlaywright w = Resolves ->
  skipDownload w = false ->
  binariesReady w 0 = false ->
  installStatusOk w = false \/ binariesReady w 1 = false ->
  let blockedInstall := negb (installStatusOk w) && installBlocked w in
  let warnOnly := ciOf w && negb (strictOf w) in
  fst (run w) = Normal tt
  /\ option_map ui_smoke (finalLine (snd (run w)))
     = Some (if blockedInstall || warnOnly then "skipped" else "failed")%string
  /\ option_map line_classification (finalLine (snd (run w)))
     = Some (if blockedInstall || warnOnly then "binary-installation-blocked"
             else "installable-missing")%string
  /\ processExitCode (snd (run w))
     = Some (if blockedInstall then (if strictOf w then 1 else 0)
             else if warnOnly then 0 else 1)
  /\ browserAttempts (diagnostics (snd (run w))) = []
  /\ serverSelectedHost (diagnostics (snd (run w))) = None.
Proof.
  intros Hi Hskip H0 H1. cbv zeta.
  remember (run w) as r eqn:Hr.
  unfold run, main, mainHead, conclude, resolvePlaywright,
    detectBrowserExecutables, runPlaywrightInstall, initialState,
    initialDiagnostics in Hr.
  cbv zeta in Hr. rewrite !checks_forallb in Hr.
  fold (binariesReady w 0) in Hr. fold (binariesReady w 1) in Hr.
  unfold skipDownload in Hskip. rewrite Hi, Hskip, H0 in Hr.
  unfold strictOf, ciOf.
  generalize dependent (envIs (env_CI w) "true"). intros ciB.
  generalize dependent (envIs (env_PLAYWRIGHT_STRICT w) "1").
  intros strictB Hr.
  destruct (installStatusOk w).
  - destruct H1 as [H1|H1]; [discriminate|]. rewrite H1 in Hr.
    destruct (installBlocked w), ciB, strictB;
      lazy in Hr; subst r; repeat split.
  - destruct (installBlocked w), ciB, strictB;
      lazy -[binariesReady] in Hr; subst r; repeat split.
Qed.

Lemma missing_binaries_policy_witness :
  option_map ui_smoke (finalLine (snd (run downloadBlockedWorld)))
  = Some "skipped"%string
  /\ processExitCode (snd (run downloadBlockedWorld)) = Some 0.
Proof.
  destruct (@missing_binaries_policy downloadBlockedWorld)
    as (_ & H2 & _ & H4 & _).
  - reflexivity.
  - vm_compute. reflexivity.
  - vm_compute. reflexivity.
  - left. reflexivity.
  - split; [exact H2|exact H4].
Defined.

(** X16. The run gets past its checks exactly when the package loads, the
    skip flag is unset and the binaries are there, at once or after a
    successful install; the install command is run exactly when the package
    loads, the flag is unset and the first check finds a binary missing; and
    a run that gets past the checks has concluded nothing yet. *)
Theorem mainHead_gate (w : World) :
  (fst (mainHead w (initialState w)) = Normal true <-> headContinues w = true)
  /\ (installAttempt (diagnostics (snd (mainHead w (initialState w)))) <> None
      <-> installNeeded w = true)
  /\ (fst (mainHead w (initialState w)) = Normal true ->
      finalLine (snd (mainHead w (initialState w))) = None
      /\ processExitCode (snd (mainHead w (initialState w))) = None).
Proof.
  remember (mainHead w (initialState w)) as r eqn:Hr.
  unfold mainHead, conclude, resolvePlaywright, detectBrowserExecutables,
    runPlaywrightInstall, initialState, initialDiagnostics in Hr.
  cbv zeta in Hr. rewrite !checks_forallb in Hr.
  fold (binariesReady w 0) in Hr. fold (binariesReady w 1) in Hr.
  fold (skipDownload w) in Hr.
  unfold headContinues, installNeeded.
  generalize dependent (envIs (env_CI w) "true"). intros ciB.
  generalize dependent (envIs (env_PLAYWRIGHT_STRICT w) "1"). intros strictB.
  intros Hr.
  destruct (importPlaywright w) as [|e].
  - destruct (skipDownload w), (binariesReady w 0), (installStatusOk w),
      (binariesReady w 1), (installBlocked w), ciB, strictB;
      lazy in Hr; subst r; simpl;
      repeat split; try discriminate; try reflexivity;
      try (intros H; contradiction H; reflexivity).
  - unfold orThrow in Hr.
    destruct (isMissingPlaywrightError e) as [[|]|];
      lazy -[binariesReady] in Hr; subst r; simpl;
      repeat split; try discriminate;
      try (intros H; contradiction H; reflexivity).
Qed.

(** X17. When no browser launches, the run concludes failed with
    classification test-failure and exit code 1, the launch errors in the
    details, and no sanity screenshot taken. *)
Theorem launch_failure_fails_the_run (w : World) (host : jsstring)
    (st : MainState) :
  LaunchRejected w (targets w) ->
  fst (mainTail w (Some host) st) = Normal tt
  /\ finalLine (snd (mainTail w (Some host) st))
     = Some (mkFinalLine "failed" "test-failure" "npx playwright install"
               (DLaunchFailed
                  (browserLaunchErrors (diagnostics st)
                   ++ map (fun x => (x, launchTextAt w x)) (targets w))))
  /\ processExitCode (snd (mainTail w (Some host) st)) = Some 1
  /\ result (diagnostics (snd (mainTail w (Some host) st))) = "failed"%string
  /\ classification (diagnostics (snd (mainTail w (Some host) st)))
     = "test-failure"%string
  /\ sanityScreenshot (diagnostics (snd (mainTail w (Some host) st)))
     = sanityScreenshot (diagnostics st).
Proof.
  intros Hrej.
  remember (mainTail w (Some host) st) as r eqn:Hr.
  unfold mainTail, finally, tryCatch, mainTry in Hr.
  unfold bind at 1 in Hr.
  rewrite (@liftD_eq _ (launchBrowser w) st (Normal None)
             (afterFailedLaunches w (targets w) (diagnostics st))) in Hr.
  2:{ unfold launchBrowser. apply launchCandidates_all_rejected, Hrej. }
  unfold afterFailedLaunches in Hr.
  destruct st as [d fl pe df out].
  destruct d as [na ne nsa nf nu no ba ble bu bc ia ssh bur ss sc tr err cls res
                 ci_ strict_ skip_].
  destruct (existsb (launchMissingBinary w) (targets w));
    lazy -[app map targets launchTextAt] in Hr; subst r; repeat split.
Qed.

Lemma launch_failure_fails_the_run_witness :
  processExitCode
    (snd (mainTail noLaunchWorld (Some (cu "127.0.0.1"))
            (initialState noLaunchWorld)))
  = Some 1
  /\ result (diagnostics
               (snd (mainTail noLaunchWorld (Some (cu "127.0.0.1"))
                       (initialState noLaunchWorld))))
     = "failed"%string.
Proof.
  destruct (@launch_failure_fails_the_run noLaunchWorld (cu "127.0.0.1")
              (initialState noLaunchWorld))
    as (_ & _ & H3 & H4 & _).
  - apply launchRejected_all with (e := pageCrashError);
      [reflexivity|vm_compute; discriminate].
  - split; [exact H3|exact H4].
Defined.

(** X18. Outside CI, when chromium fails to launch for a missing binary and
    webkit launches, a failure of the sanity check is concluded as skipped
    whatever its own class: the classification recorded by the failed launch
    is the one the handler acts on. *)
Theorem missing_chromium_masks_later_failure (w : World) (host : jsstring)
    (st : MainState) (e1 e2 : JsValue) (t2 : jsstring) :
  envSet (env_CI w) = false ->
  launch w chromium = Rejects e1 ->
  isMissingBrowserBinaryError e1 = Some true ->
  launch w webkit = Resolves ->
  sanityRender w = Rejects e2 ->
  errorText e2 = Some t2 ->
  fst (mainTail w (Some host) st) = Normal tt
  /\ (exists shown,
        finalLine (snd (mainTail w (Some host) st))
        = Some (mkFinalLine "skipped" "binary-installation-blocked"
                  "npx playwright install"
                  (DBestEffortSkip "binary-installation-failure" shown
                     (strict (diagnostics st)))))
  /\ processExitCode (snd (mainTail w (Some host) st))
     = Some (if strict (diagnostics st) then 1 else 0)
  /\ browserUsed (diagnostics (snd (mainTail w (Some host) st))) = Some webkit
  /\ result (diagnostics (snd (mainTail w (Some host) st))) = "skipped"%string.
Proof.
  intros Hci H1 Hm1 H2 Hs Ht.
  assert (Hrej : LaunchRejected w [chromium]).
  { intros x [<-|[]]. exists e1. split; [exact H1|].
    unfold isMissingBrowserBinaryError in Hm1.
    destruct (errorText e1); [discriminate|discriminate]. }
  assert (Hmissing : existsb (launchMissingBinary w) [chromium] = true).
  { simpl. unfold launchMissingBinary. rewrite H1, Hm1. reflexivity. }
  remember (mainTail w (Some host) st) as r eqn:Hr.
  unfold mainTail, finally, tryCatch, mainTry in Hr.
  unfold bind at 1 in Hr.
  rewrite (@liftD_eq _ (launchBrowser w) st (Normal (Some webkit))
             (set_browserAttempts
                (browserAttempts (afterFailedLaunches w [chromium] (diagnostics st))
                 ++ [webkit])
                (afterFailedLaunches w [chromium] (diagnostics st)))) in Hr.
  2:{ unfold launchBrowser, targets. rewrite Hci.
      apply (@launchCandidates_first_success w [chromium] webkit []);
        assumption. }
  unfold afterFailedLaunches in Hr. rewrite Hmissing in Hr.
  unfold runSanity in Hr. rewrite Hs in Hr.
  destruct st as [d fl pe df out].
  destruct d as [na ne nsa nf nu no ba ble bu bc ia ssh bur ss sc tr err cls res
                 ci_ strict_ skip_].
  destruct err as [[|c0 r0]|];
    lazy -[errorText launchTextAt] in Hr; rewrite ?Ht in Hr;
    lazy -[errorText launchTextAt] in Hr; subst r;
    repeat split; eexists; reflexivity.
Qed.

Lemma missing_chromium_masks_later_failure_witness :
  processExitCode
    (snd (mainTail chromiumMissingWorld (Some (cu "127.0.0.1"))
            (initialState chromiumMissingWorld)))
  = Some 0
  /\ result (diagnostics
               (snd (mainTail chromiumMissingWorld (Some (cu "127.0.0.1"))
                       (initialState chromiumMissingWorld))))
     = "skipped"%string
  /\ classifyFailure connectionRefused = Some "connectivity-failure"%string.
Proof.
  destruct (@missing_chromium_masks_later_failure chromiumMissingWorld
              (cu "127.0.0.1") (initialState chromiumMissingWorld)
              executableMissing connectionRefused
              (match errorText connectionRefused with
               | Some t => t
               | None => []
               end))
    as (_ & _ & H3 & _ & H5).
  - reflexivity.
  - reflexivity.
  - vm_compute. reflexivity.
  - reflexivity.
  - reflexivity.
  - vm_compute. reflexivity.
  - split; [exact H3|]. split; [exact H5|vm_compute; reflexivity].
Defined.

(** ** A failed screenshot step *)

Lemma navigateWithFallback_keeps_screenshot (w : World) (baseUrl : jsstring)
    (d : Diagnostics) :
  screenshot (snd (navigateWithFallback w baseUrl d)) = screenshot d.
Proof.
  apply (@navigateWithFallback_preserves w
           (fun x => screenshot x = screenshot d));
    try (intros v x H; exact H).
  reflexivity.
Qed.

Ltac handlerCase err H1 :=
  let text := fresh "text" in
  let c := fresh "c" in
  let He := fresh "He" in
  destruct (errorText err) as [text|] eqn:?;
    [destruct (classifyFailure err) as [c|] eqn:?|];
    cbn [fst snd]; intros He; injection He as <-;
    (split; [reflexivity|]); (split; [exact H1|]);
    [right; exists text, c; auto|left; reflexivity|left; reflexivity].

(** X19. When [runAppScreenshot] throws after its setup, the trace is
    recorded, no screenshot is recorded, and the record holds the text and
    the class of the error thrown, unless that error is the TypeError of a
    failed string conversion. *)
Theorem runAppScreenshot_records_failure (w : World) (baseUrl : jsstring)
    (d : Diagnostics) (e : JsValue) :
  appSetup w = Resolves ->
  fst (runAppScreenshot w baseUrl d) = Throw e ->
  FailureRecorded w e d (snd (runAppScreenshot w baseUrl d)).
Proof.
  intros Hsetup.
  pose proof (navigateWithFallback_keeps_screenshot w baseUrl d) as Hk.
  unfold FailureRecorded, runAppScreenshot, finally, tryCatch, bind, await,
    modify, throw, ret, orThrow.
  rewrite Hsetup.
  destruct (navigateWithFallback w baseUrl d) as [[u|err] d1];
    cbn [fst snd] in *; [|handlerCase err Hk].
  destruct (settleBeforeClick w) as [|err]; [|handlerCase err Hk].
  destruct (click w) as [|err]; [|handlerCase err Hk].
  destruct (settleAfterClick w) as [|err]; [|handlerCase err Hk].
  destruct (takeScreenshot w) as [|err]; [|handlerCase err Hk].
  discriminate.
Qed.

Lemma runAppScreenshot_records_failure_witness :
  FailureRecorded clickFailsWorld clickTimeout
    (initialDiagnostics clickFailsWorld)
    (snd (runAppScreenshot clickFailsWorld exampleBaseUrl
            (initialDiagnostics clickFailsWorld))).
Proof.
  apply (@runAppScreenshot_records_failure clickFailsWorld exampleBaseUrl
           (initialDiagnostics clickFailsWorld) clickTimeout).
  - reflexivity.
  - vm_compute. reflexivity.
Defined.

(** ** A failed page action *)

(** X20. When a browser was launched, the sanity check passed and the page
    loaded, but the click on the add button is rejected, the run is judged
    by the class of that error alone: skipped when it is
    binary-installation-failure or browser-runtime-failure, failed with exit
    code 1 otherwise, whatever classification an earlier failed launch had
    recorded; the trace is recorded and no screenshot is. *)
Theorem page_action_failure_is_judged_by_its_class (w : World)
    (host : jsstring) (st : MainState) (pre post : list BrowserName)
    (candidate : BrowserName) (e : JsValue) (text : jsstring) (c : string) :
  targets w = pre ++ candidate :: post ->
  LaunchRejected w pre ->
  launch w candidate = Resolves ->
  sanityRender w = Resolves /\ sanityClose w = Resolves ->
  appSetup w = Resolves ->
  allowHttp w = false ->
  pageGoto w (fileUrl w) 0 = Resolves ->
  settleBeforeClick w = Resolves ->
  click w = Rejects e ->
  errorText e = Some text ->
  classifyFailure e = Some c ->
  fst (mainTail w (Some host) st) = Normal tt
  /\ option_map ui_smoke (finalLine (snd (mainTail w (Some host) st)))
     = Some (if bestEffortSkip c then "skipped" else "failed")%string
  /\ processExitCode (snd (mainTail w (Some host) st))
     = Some (if bestEffortSkip c
             then (if strict (diagnostics st) then 1 else 0)
             else 1)
  /\ UiSmoke.error (diagnostics (snd (mainTail w (Some host) st)))
     = Some text
  /\ trace (diagnostics (snd (mainTail w (Some host) st))) = true
  /\ screenshot (diagnostics (snd (mainTail w (Some host) st)))
     = screenshot (diagnostics st).
Proof.
  intros Ht Hrej Hl [Hsr Hsc] Hsetup Hhttp Hgoto Hb Hclick Htext Hc.
  remember (mainTail w (Some host) st) as r eqn:Hr.
  unfold mainTail, finally, tryCatch, mainTry in Hr.
  unfold bind at 1 in Hr.
  rewrite (@liftD_eq _ (launchBrowser w) st (Normal (Some candidate))
             (set_browserAttempts
                (browserAttempts (afterFailedLaunches w pre (diagnostics st))
                 ++ [candidate])
                (afterFailedLaunches w pre (diagnostics st)))) in Hr.
  2:{ unfold launchBrowser. rewrite Ht.
      apply launchCandidates_first_success; assumption. }
  unfold afterFailedLaunches in Hr.
  unfold runSanity, runAppScreenshot, navigateWithFallback, tryFileStrategy,
    gotoWithRetry, pushStrategyAttempt, pushFallback, mainCatch, mainFinally,
    conclude, orErrorText, orThrow in Hr.
  rewrite Hsr, Hsc, Hsetup, Hhttp, Hb, Hclick in Hr.
  cbn [gotoWithRetryFrom] in Hr. rewrite Hgoto in Hr.
  unfold bestEffortSkip.
  destruct st as [d fl pe df out].
  destruct d as [na ne nsa nf nu no ba ble bu bc ia ssh bur ss sc tr err cls res
                 ci_ strict_ skip_].
  destruct (existsb (launchMissingBinary w) pre);
    lazy -[errorText classifyFailure String.eqb orb app map launchTextAt] in Hr;
    rewrite ?Htext, ?Hc in Hr;
    lazy -[errorText classifyFailure String.eqb orb app map launchTextAt] in Hr;
    rewrite ?Htext, ?Hc in Hr;
    lazy -[errorText classifyFailure String.eqb orb app map launchTextAt] in Hr;
    destruct text as [|t0 text0];
    lazy -[errorText classifyFailure String.eqb orb app map launchTextAt] in Hr;
    rewrite ?Htext, ?Hc in Hr;
    lazy -[errorText classifyFailure String.eqb orb app map launchTextAt] in Hr;
    (destruct (String.eqb c "unknown"));
    lazy -[errorText classifyFailure String.eqb orb app map launchTextAt] in Hr;
    rewrite ?Htext, ?Hc in Hr;
    lazy -[errorText classifyFailure String.eqb orb app map launchTextAt] in Hr;
    destruct (String.eqb c "binary-installation-failure"
              || String.eqb c "browser-runtime-failure");
    lazy -[errorText classifyFailure String.eqb orb app map launchTextAt] in Hr;
    rewrite ?Htext, ?Hc in Hr;
    lazy -[errorText classifyFailure String.eqb orb app map launchTextAt] in Hr;
    subst r; repeat split.
Qed.

Lemma page_action_failure_is_judged_by_its_class_witness :
  classification
    (snd (launchBrowser webkitClickFailsWorld
            (initialDiagnostics webkitClickFailsWorld)))
  = "binary-installation-failure"%string
  /\ option_map ui_smoke
       (finalLine (snd (mainTail webkitClickFailsWorld (Some (cu "127.0.0.1"))
                          (initialState webkitClickFailsWorld))))
     = Some "failed"%string
  /\ processExitCode
       (snd (mainTail webkitClickFailsWorld (Some (cu "127.0.0.1"))
               (initialState webkitClickFailsWorld)))
     = Some 1.
Proof.
  split; [vm_compute; reflexivity|].
  destruct (@page_action_failure_is_judged_by_its_class webkitClickFailsWorld
              (cu "127.0.0.1") (initialState webkitClickFailsWorld)
              [chromium] [] webkit clickTimeout
              (match errorText clickTimeout with
               | Some t => t
               | None => []
               end)
              "application-failure")
    as (_ & H2 & H3 & _);
    [reflexivity
    | apply launchRejected_one with (e := executableMissing);
      [reflexivity|vm_compute; discriminate]
    | reflexivity | split; reflexivity | reflexivity | reflexivity
    | reflexivity | reflexivity | reflexivity
    | vm_compute; reflexivity | vm_compute; reflexivity | ].
  split; [exact H2|exact H3].
Defined.

(** ** What a passed run has produced *)

Section Honest.

Variable w : World.

Lemma wp_liftD_same {A} (m : D A) (Q : Completion A -> MainState -> Prop)
    (st : MainState) :
  (forall c st', sameProcess st st' -> Q c st') -> wp (liftD m) Q st.
Proof.
  intros H. apply wp_liftD. unfold wp. apply H. repeat split.
Qed.

Lemma wp_conclude_notPassed (status c : string) (det : Details) (ex : nat)
    (st : MainState) :
  status <> "passed"%string ->
  wp (conclude status c det ex)
     (fun c' st' => c' = Normal tt /\ ConcludedNotPassed st') st.
Proof.
  intros H. apply wp_conclude. cbv zeta. split; [reflexivity|].
  eexists. split; [reflexivity|]. exact H.
Qed.

Ltac concludeNotPassed :=
  apply wp_bind;
  eapply wp_mono; [apply wp_conclude_notPassed; discriminate|];
  intros ? ? [-> ?]; apply wp_ret; assumption.

Lemma mainHead_never_passes (st : MainState) :
  finalLine st = None -> wp (mainHead w) HeadNeverPasses st.
Proof.
  intros Hun. unfold mainHead.
  apply wp_bind, wp_liftD_same. intros c st1 (E1 & _).
  rewrite Hun in E1.
  destruct c as [[|]|e]; cbn [negb]; cbv iota; [| |exact E1].
  2: { concludeNotPassed. }
  apply wp_bind, wp_get.
  destruct (envSkipBrowserDownload (diagnostics st1)).
  { concludeNotPassed. }
  apply wp_bind, wp_liftD_same. intros c st2 (E2 & _). rewrite E1 in E2.
  destruct c as [[|]|e]; cbn [negb]; cbv iota; [apply wp_ret; exact E2| |exact E2].
  apply wp_bind, wp_liftD_same. intros c st3 (E3 & _). rewrite E2 in E3.
  destruct c as [[ok blocked_]|e]; cbn [fst snd]; cbv iota; [|exact E3].
  destruct ok; cbn [negb]; cbv iota.
  - apply wp_bind, wp_liftD_same. intros c st4 (E4 & _). rewrite E3 in E4.
    destruct c as [[|]|e]; cbn [negb]; cbv iota;
      [apply wp_ret; exact E4| |exact E4].
    apply wp_bind, wp_get. cbv zeta.
    destruct (ci (diagnostics st4) && negb (strict (diagnostics st4)));
      concludeNotPassed.
  - apply wp_bind, wp_get. cbv zeta.
    destruct blocked_; [concludeNotPassed|].
    destruct (ci (diagnostics st3) && negb (strict (diagnostics st3)));
      concludeNotPassed.
Qed.

Lemma mainCatch_never_passes (error : JsValue) (st : MainState) :
  finalLine st = None -> wp (mainCatch w error) CatchNeverPasses st.
Proof.
  intros Hun. unfold mainCatch.
  apply wp_bind, wp_liftD_same. intros c st1 (E1 & _). rewrite Hun in E1.
  destruct c as [u|e]; cbv iota; [|exact E1].
  apply wp_bind, wp_get. apply wp_bind.
  apply wp_orErrorText; [|intros e; exact E1].
  intros text. apply wp_bind, wp_liftD_same. intros c st2 (E2 & _).
  rewrite E1 in E2.
  destruct c as [u2|e]; cbv iota; [|exact E2].
  apply wp_bind, wp_get. apply wp_bind.
  apply wp_mono with (Q := fun (c : Completion string) st' => st' = st2).
  { destruct (String.eqb (classification (diagnostics st2)) "unknown").
    - apply wp_orThrow; reflexivity.
    - apply wp_ret. reflexivity. }
  intros c st2' ->. destruct c as [cls|e]; [|exact E2].
  apply wp_bind, wp_liftD_same. intros c st3 (E3 & _). rewrite E2 in E3.
  destruct c as [u3|e]; cbv iota; [|exact E3].
  destruct (String.eqb cls "binary-installation-failure"
            || String.eqb cls "browser-runtime-failure").
  - apply wp_bind, wp_liftD_same. intros c st4 (E4 & _). rewrite E3 in E4.
    destruct c as [u4|e]; cbv iota; [|exact E4].
    apply wp_bind, wp_get.
    eapply wp_mono; [apply wp_conclude_notPassed; discriminate|].
    intros ? ? [-> ?]; assumption.
  - apply wp_bind. apply wp_orThrow; [|intros; exact E3].
    intros shownFirst _. apply wp_bind, wp_get. apply wp_bind.
    apply wp_orErrorText; [|intros e; exact E3].
    intros shown.
    eapply wp_mono; [apply wp_conclude_notPassed; discriminate|].
    intros ? ? [-> ?]; assumption.
Qed.

(** [runSanity] returns only after the sanity screenshot. *)
Lemma runSanity_returns (d : Diagnostics) :
  wp (runSanity w)
     (fun c d' => browserUsed d' = browserUsed d
                  /\ (c = Normal tt -> sanityScreenshot d' = true)) d.
Proof.
  unfold wp, runSanity, bind, await, modify.
  destruct (sanityRender w); simpl; [|split; [reflexivity|discriminate]].
  destruct (sanityClose w); simpl; split; auto; discriminate.
Qed.

(** [runAppScreenshot] returns only after the screenshot, with the trace
    stopped and a strategy marked as used. *)
Lemma runAppScreenshot_returns (baseUrl : jsstring) (d : Diagnostics) :
  wp (runAppScreenshot w baseUrl)
     (fun c d' =>
        match c with
        | Normal _ => screenshot d' = true /\ trace d' = true
                      /\ navigationStrategyUsed d' <> None
        | Throw _ => True
        end) d.
Proof.
  pose proof (navigateWithFallback_used w baseUrl d) as Hn. unfold wp in Hn.
  unfold wp, runAppScreenshot, finally, tryCatch, bind, await, modify, throw,
    ret, orThrow.
  destruct (appSetup w); [|exact I].
  destruct (navigateWithFallback w baseUrl d) as [[u|e] d1]; cbn [fst snd] in *.
  - destruct Hn as (s & t & ea & Hu & _).
    destruct (settleBeforeClick w) as [|e1]; cbn [fst snd].
    2: { destruct (errorText e1); cbn [fst snd]; [|exact I].
         destruct (classifyFailure e1); exact I. }
    destruct (click w) as [|e1]; cbn [fst snd].
    2: { destruct (errorText e1); cbn [fst snd]; [|exact I].
         destruct (classifyFailure e1); exact I. }
    destruct (settleAfterClick w) as [|e1]; cbn [fst snd].
    2: { destruct (errorText e1); cbn [fst snd]; [|exact I].
         destruct (classifyFailure e1); exact I. }
    destruct (takeScreenshot w) as [|e1]; cbn [fst snd].
    2: { destruct (errorText e1); cbn [fst snd]; [|exact I].
         destruct (classifyFailure e1); exact I. }
    cbn. rewrite Hu. repeat split. discriminate.
  - destruct (errorText e); cbn [fst snd]; [|exact I].
    destruct (classifyFailure e); exact I.
Qed.

Lemma notPassed_honest (st : MainState) :
  ConcludedNotPassed st -> PassedHonestly st.
Proof.
  intros (fl & Hf & Hn). exists fl. split; [exact Hf|].
  intros Hp. contradiction.
Qed.

Lemma runAppScreenshot_keeps_sanity (baseUrl : jsstring) (d : Diagnostics) :
  browserUsed d <> None /\ sanityScreenshot d = true ->
  browserUsed (snd (runAppScreenshot w baseUrl d)) <> None
  /\ sanityScreenshot (snd (runAppScreenshot w baseUrl d)) = true.
Proof.
  apply (@runAppScreenshot_preserves w
           (fun x => browserUsed x <> None /\ sanityScreenshot x = true));
    intros v x H; exact H.
Qed.

Lemma mainTry_honest (selectedHost : option jsstring) (st : MainState) :
  finalLine st = None -> wp (mainTry w selectedHost) TryHonest st.
Proof.
  intros Hun. unfold mainTry. destruct selectedHost as [host|].
  - apply wp_bind, wp_liftD_same. intros c st1 (E1 & _). rewrite Hun in E1.
    destruct c as [[candidate|]|e]; cbv iota; [| |exact E1].
    + apply wp_bind, wp_liftD, wp_modify.
      apply wp_finally. apply wp_bind, wp_liftD.
      eapply wp_mono; [apply runSanity_returns|].
      intros c d2 [Hb Hs]. cbn [diagnostics browserUsed set_browserUsed] in Hb.
      destruct c as [[]|e]; [|apply wp_ret; exact E1].
      specialize (Hs eq_refl).
      apply wp_bind, wp_liftD, wp_modify. apply wp_bind, wp_liftD.
      cbn [diagnostics].
      pose proof (@runAppScreenshot_keeps_sanity (makeBaseUrl w host)
                    (set_baseUrl (Some (makeBaseUrl w host)) d2)) as Hk.
      pose proof (runAppScreenshot_returns (makeBaseUrl w host)
                    (set_baseUrl (Some (makeBaseUrl w host)) d2)) as Hr.
      unfold wp in Hr |- *.
      destruct (runAppScreenshot w (makeBaseUrl w host)
                  (set_baseUrl (Some (makeBaseUrl w host)) d2)) as [[u|e] d3];
        cbn [fst snd] in *; [|exact E1].
      destruct Hr as (Hshot & Htrace & Hused).
      destruct Hk as [Hbu Hsan].
      { split; [|exact Hs]. simpl. rewrite Hb. discriminate. }
      apply wp_bind, wp_modify. apply wp_bind, wp_get.
      apply wp_conclude. cbv zeta.
      eexists. split; [reflexivity|]. intros _.
      split; [|reflexivity].
      repeat split; assumption.
    + apply wp_bind, wp_liftD_same. intros c st2 (E2 & _). rewrite E1 in E2.
      destruct c as [u|e]; cbv iota; [|exact E2].
      apply wp_bind, wp_get.
      eapply wp_mono; [apply wp_conclude_notPassed; discriminate|].
      intros ? ? [-> ?]. apply notPassed_honest. assumption.
  - apply wp_bind, wp_liftD_same. intros c st1 (E1 & _). rewrite Hun in E1.
    destruct c as [u|e]; cbv iota; [|exact E1].
    apply wp_bind, wp_liftD_same. intros c st2 (E2 & _). rewrite E1 in E2.
    destruct c as [u2|e]; cbv iota; [|exact E2].
    apply wp_throw. exact E2.
Qed.

Lemma mainTail_honest (selectedHost : option jsstring) (st : MainState) :
  finalLine st = None ->
  wp (mainTail w selectedHost)
     (fun c st' => c = Normal tt -> PassedHonestly st') st.
Proof.
  intros Hun. unfold mainTail. apply wp_finally.
  apply wp_mono with (Q := TryHonest).
  - apply wp_tryCatch.
    eapply wp_mono; [apply mainTry_honest; exact Hun|].
    intros c st1 H. destruct c as [u|e]; [exact H|].
    eapply wp_mono; [apply mainCatch_never_passes; exact H|].
    intros c st2 H2. destruct c; [apply notPassed_honest|]; exact H2.
  - intros c st1 H. unfold mainFinally. apply wp_bind, wp_get.
    destruct c as [u|e]; simpl in H.
    + destruct H as (fl & Hf & Hp). rewrite Hf. apply wp_ret.
      intros _. exists fl. split; assumption.
    + rewrite H. apply wp_conclude. cbv zeta. discriminate.
Qed.

End Honest.

(** X21. A run that completes with status passed has launched a browser,
    taken the sanity screenshot and the screenshot of the application,
    recorded the trace and marked a navigation strategy as used, and its
    exit code is 0. *)
Theorem passed_run_has_artifacts (w : World) :
  fst (run w) = Normal tt ->
  option_map ui_smoke (finalLine (snd (run w))) = Some "passed"%string ->
  Artifacts (diagnostics (snd (run w)))
  /\ processExitCode (snd (run w)) = Some 0.
Proof.
  assert (H : wp (main w)
                (fun c st' => c = Normal tt -> PassedHonestly st')
                (initialState w)).
  { unfold main. apply wp_bind.
    eapply wp_mono; [apply mainHead_never_passes; reflexivity|].
    intros c st1 H1. destruct c as [[|]|e]; simpl in H1.
    - apply wp_bind, wp_liftD_same. intros c st2 (E2 & _). rewrite H1 in E2.
      destruct c as [selectedHost|e]; cbv iota; [|discriminate].
      apply mainTail_honest. exact E2.
    - apply wp_ret. intros _. apply notPassed_honest. exact H1.
    - discriminate. }
  unfold wp in H. fold (run w) in H. intros Hn Hp.
  destruct (H Hn) as (fl & Hf & Hart). rewrite Hf in Hp. simpl in Hp.
  apply Hart. congruence.
Qed.

Lemma passed_run_has_artifacts_witness :
  Artifacts (diagnostics (snd (run happyWorld)))
  /\ processExitCode (snd (run happyWorld)) = Some 0.
Proof.
  apply (@passed_run_has_artifacts happyWorld).
  - vm_compute. reflexivity.
  - vm_compute. reflexivity.
Defined.

(** ** The exit status of the process *)






(** ** The run in which everything works *)

(** X22. In the default mode, when the package loads, the binaries are
    present, a host alias answers, chromium launches and every page action
    succeeds at the first attempt, the run passes with exit code 0: chromium
    is the only browser attempted, the page is loaded once, from the file
    system, and the only transition logged is the fixed HTTP to FILE one. *)
Theorem default_run_passes (w : World) (host : jsstring) :
  importPlaywright w = Resolves ->
  skipDownload w = false ->
  binariesReady w 0 = true ->
  find (waitForServer w) hosts = Some host ->
  launch w chromium = Resolves ->
  sanityRender w = Resolves /\ sanityClose w = Resolves ->
  appSetup w = Resolves ->
  allowHttp w = false ->
  pageGoto w (fileUrl w) 0 = Resolves ->
  settleBeforeClick w = Resolves /\ click w = Resolves
  /\ settleAfterClick w = Resolves /\ takeScreenshot w = Resolves ->
  let line := mkFinalLine "passed" "success" "npx playwright install"
                (DPassed (Some FILE)) in
  fst (run w) = Normal tt
  /\ finalLine (snd (run w)) = Some line
  /\ processExitCode (snd (run w)) = Some 0
  /\ stdout (snd (run w)) = [ScreenshotCreated; Summary line]
  /\ browserUsed (diagnostics (snd (run w))) = Some chromium
  /\ browserAttempts (diagnostics (snd (run w))) = [chromium]
  /\ navigationAttempts (diagnostics (snd (run w))) = [(fileUrl w, 1)]
  /\ navigationStrategyAttempts (diagnostics (snd (run w)))
     = [(FILE, fileUrl w)]
  /\ navigationFallbacks (diagnostics (snd (run w))) = [disabledFallback]
  /\ installAttempt (diagnostics (snd (run w))) = None
  /\ UiSmoke.baseUrl (diagnostics (snd (run w))) = Some (makeBaseUrl w host)
  /\ UiSmoke.error (diagnostics (snd (run w))) = None.
Proof.
  intros Hi Hskip Hready Hhost Hl [Hsr Hsc] Hsetup Hhttp Hgoto
         (Hb & Hc & Ha & Hshot).
  cbv zeta. remember (run w) as r eqn:Hr.
  unfold run, main, mainHead, mainTail, mainTry, mainFinally, conclude,
    resolvePlaywright, detectBrowserExecutables, startServer, launchBrowser,
    runSanity, runAppScreenshot, navigateWithFallback, tryFileStrategy,
    gotoWithRetry, pushStrategyAttempt, pushFallback, targets, initialState,
    initialDiagnostics in Hr.
  unfold binariesReady, targets in Hready. unfold skipDownload in Hskip.
  cbv zeta in Hr. rewrite fold_select in Hr.
  rewrite Hi, Hskip, Hhost, Hsr, Hsc, Hsetup, Hhttp, Hb, Hc, Ha, Hshot in Hr.
  rewrite checks_forallb in Hr.
  destruct (envSet (env_CI w));
    rewrite Hready in Hr;
    cbn [launchCandidates gotoWithRetryFrom] in Hr;
    rewrite Hl, Hgoto in Hr;
    lazy -[envIs makeBaseUrl disabledReason] in Hr; subst r;
    repeat split.
Qed.

Lemma default_run_passes_witness :
  fst (run happyWorld) = Normal tt
  /\ processExitCode (snd (run happyWorld)) = Some 0
  /\ navigationAttempts (diagnostics (snd (run happyWorld)))
     = [(fileUrl happyWorld, 1)].
Proof.
  destruct (@default_run_passes happyWorld (cu "127.0.0.1"))
    as (H1 & _ & H3 & _ & _ & _ & H7 & _);
    [reflexivity | vm_compute; reflexivity | vm_compute; reflexivity
    | vm_compute; reflexivity | reflexivity | split; reflexivity
    | reflexivity | vm_compute; reflexivity | reflexivity
    | repeat split; reflexivity | ].
  split; [exact H1|]. split; [exact H3|exact H7].
Defined.

(** * Properties of the preflight probe *)

Section ProbeFacts.

Import PreflightProbe.

Variable w : PreflightProbe.World.

Lemma probeTry_outcome (calls : Calls) : TryOutcome w calls (probeTry w calls).
Proof.
  unfold TryOutcome, probeTry, canLaunch, call, stepsResolve, readyResult.
  unfold bind, modify, await, ret, throw. simpl forallb.
  destruct (step w webkit Launch) as [|e] eqn:E1; simpl.
  2:{ right. split; [reflexivity|]. exists e, 1. simpl.
      repeat split; try lia. }
  destruct (step w webkit NewPage) as [|e] eqn:E2; simpl.
  2:{ right. split; [reflexivity|]. exists e, 2. simpl.
      rewrite <- !app_assoc. repeat split; try lia. }
  destruct (step w webkit Goto) as [|e] eqn:E3; simpl.
  2:{ right. split; [reflexivity|]. exists e, 3. simpl.
      rewrite <- !app_assoc. repeat split; try lia. }
  destruct (step w webkit Close) as [|e] eqn:E4; simpl.
  2:{ right. split; [reflexivity|]. exists e, 4. simpl.
      rewrite <- !app_assoc. repeat split; try lia. }
  destruct (chromiumLaunchOptions w) as [|e] eqn:E0; simpl.
  2:{ right. split; [rewrite !andb_false_r; reflexivity|]. exists e, 4. simpl.
      rewrite <- !app_assoc. repeat split; try lia. }
  destruct (step w chromium Launch) as [|e] eqn:E5; simpl.
  2:{ right. split; [reflexivity|]. exists e, 5. simpl.
      rewrite <- !app_assoc. repeat split; try lia. }
  destruct (step w chromium NewPage) as [|e] eqn:E6; simpl.
  2:{ right. split; [reflexivity|]. exists e, 6. simpl.
      rewrite <- !app_assoc. repeat split; try lia. }
  destruct (step w chromium Goto) as [|e] eqn:E7; simpl.
  2:{ right. split; [reflexivity|]. exists e, 7. simpl.
      rewrite <- !app_assoc. repeat split; try lia. }
  destruct (step w chromium Close) as [|e] eqn:E8; simpl.
  2:{ right. split; [reflexivity|]. exists e, 8. simpl.
      rewrite <- !app_assoc. repeat split; try lia. }
  left. split; [reflexivity|]. rewrite <- !app_assoc. reflexivity.
Qed.

Lemma probeCatch_outcome (error : JsValue) (calls : Calls) :
  CatchOutcome w error (fst (probeCatch w error calls))
  /\ snd (probeCatch w error calls) = calls.
Proof.
  unfold CatchOutcome, probeCatch, orThrow, bind, ret, throw,
    Preflight.classifyBrowserLaunchError,
    Preflight.looksLikeMissingBrowserBinary, launchFailureClasses.
  destruct (Preflight.textOf error) as [text|]; simpl; [|auto].
  destruct (test Preflight.missingBrowserBinaryRe text); simpl.
  - split; [|reflexivity]. repeat split. left. repeat split.
  - destruct (test Preflight.connectivityRe text); simpl.
    + split; [|reflexivity]. repeat split. right. repeat split. auto.
    + destruct (test Preflight.runtimeRe text); simpl.
      * split; [|reflexivity]. repeat split. right. repeat split. auto.
      * split; [|reflexivity]. repeat split. right. repeat split. auto.
Qed.

End ProbeFacts.

Lemma engineReady_unfold (w : PreflightProbe.World) :
  engineReady w
  = resolved (PreflightProbe.importPlaywright w)
    && (stepsResolve w probeOrder
        && resolved (PreflightProbe.chromiumLaunchOptions w)).
Proof. unfold engineReady. rewrite andb_assoc. reflexivity. Qed.

(** X23. The preflight probe answers ok exactly when the package loads and
    every call of the probe succeeds; ok goes with the reason ready, and an
    answer that is not ok carries one of the four failure classes. *)
Theorem preflight_ok_iff_ready (w : PreflightProbe.World)
    (calls : PreflightProbe.Calls) :
  (engineReady w = true ->
   PreflightProbe.playwrightPreflight w calls
   = (Normal (readyResult w), calls ++ probeOrder))
  /\ (forall r,
        fst (PreflightProbe.playwrightPreflight w calls) = Normal r ->
        (PreflightProbe.ok r = true <-> engineReady w = true)
        /\ (PreflightProbe.ok r = true <->
            PreflightProbe.reason r = "ready"%string)
        /\ (PreflightProbe.ok r = false ->
            In (PreflightProbe.classification r)
               ("binary-installation-failure"%string :: launchFailureClasses))).
Proof.
  rewrite engineReady_unfold.
  unfold PreflightProbe.playwrightPreflight.
  destruct (PreflightProbe.importPlaywright w) as [|e0]; simpl resolved;
    cbn [andb].
  - pose proof (probeTry_outcome w calls) as Ht.
    pose proof (fun e => probeCatch_outcome w e) as Hc.
    unfold tryCatch.
    destruct Ht as [[Hall Ht]|(Hall & e & k & He & Hk & _)].
    + rewrite Ht, Hall. split; [reflexivity|].
      intros r Hr. injection Hr as <-. simpl.
      repeat split; auto; discriminate.
    + rewrite Hall. split; [discriminate|].
      destruct (PreflightProbe.probeTry w calls) as [[r0|e1] calls1];
        simpl in He; [discriminate|]. injection He as ->.
      intros r Hr. destruct (Hc e calls1) as [Hc1 _].
      rewrite Hr in Hc1. simpl in Hc1.
      destruct Hc1 as (Hok & _ & [(_ & Hre & Hcl & _)|(_ & Hre & Hcl & _)]);
        rewrite Hok, Hre.
      * repeat split; try discriminate. intros _. rewrite Hcl. left.
        reflexivity.
      * repeat split; try discriminate. intros _. right. exact Hcl.
  - split; [discriminate|].
    unfold PreflightProbe.orThrow, bind, ret, throw.
    destruct (PreflightProbe.looksLikeMissingPlaywright e0) as [[|]|]; simpl;
      intros r Hr; try discriminate.
    injection Hr as <-. simpl. repeat split; try discriminate.
    intros _. left. reflexivity.
Qed.

(** X24. The calls of the probe are an initial part of a fixed sequence,
    webkit first: chromium is tried only once the four calls on webkit have
    succeeded, and nothing is called when the package does not load. *)
Theorem preflight_probes_webkit_first (w : PreflightProbe.World)
    (calls : PreflightProbe.Calls) :
  exists k,
    snd (PreflightProbe.playwrightPreflight w calls)
    = calls ++ firstn k probeOrder
    /\ k <= 8
    /\ (PreflightProbe.importPlaywright w <> Resolves -> k = 0)
    /\ (4 < k ->
        stepsResolve w (firstn 4 probeOrder) = true
        /\ resolved (PreflightProbe.chromiumLaunchOptions w) = true).
Proof.
  unfold PreflightProbe.playwrightPreflight.
  destruct (PreflightProbe.importPlaywright w) as [|e0].
  - pose proof (probeTry_outcome w calls) as Ht.
    pose proof (fun e => probeCatch_outcome w e) as Hc.
    unfold tryCatch.
    destruct Ht as [[Hall Ht]|(Hall & e & k & He & Hk & Hle & Hweb)].
    + rewrite Ht. exists 8. simpl snd. split; [reflexivity|].
      split; [lia|]. split; [intros H; contradiction H; reflexivity|].
      intros _. apply andb_true_iff in Hall. destruct Hall as [Hs Ho].
      split; [|exact Ho].
      unfold stepsResolve in *. simpl in *.
      repeat match goal with
             | H : _ && _ = true |- _ =>
                 apply andb_true_iff in H; destruct H
             end.
      repeat (apply andb_true_iff; split); auto.
    + destruct (PreflightProbe.probeTry w calls) as [[r0|e1] calls1];
        simpl in He; [discriminate|]. simpl in Hk.
      destruct (Hc e1 calls1) as [_ Hc2]. rewrite Hc2, Hk.
      exists k. repeat split; auto; try apply Hweb; auto.
      intros H; contradiction H; reflexivity.
  - exists 0. simpl firstn. rewrite app_nil_r.
    unfold PreflightProbe.orThrow, bind, ret, throw.
    destruct (PreflightProbe.looksLikeMissingPlaywright e0) as [[|]|]; simpl;
      repeat split; auto; lia.
Qed.

(** X25. An answer of the probe with reason browser-launch-failed never has
    the class binary-installation-failure: its message is the text of the
    error, which has no missing-binary signature, and its class is
    connectivity-failure exactly when that text has a connectivity
    signature. *)
Theorem launch_failed_is_never_binary (w : PreflightProbe.World)
    (calls : PreflightProbe.Calls) (r : PreflightProbe.Result) :
  fst (PreflightProbe.playwrightPreflight w calls) = Normal r ->
  PreflightProbe.reason r = "browser-launch-failed"%string ->
  In (PreflightProbe.classification r) launchFailureClasses
  /\ exists text,
       PreflightProbe.message r = Some text
       /\ test Preflight.missingBrowserBinaryRe text = false
       /\ (test Preflight.connectivityRe text = true <->
           PreflightProbe.classification r = "connectivity-failure"%string).
Proof.
  unfold PreflightProbe.playwrightPreflight.
  destruct (PreflightProbe.importPlaywright w) as [|e0].
  - pose proof (probeTry_outcome w calls) as Ht.
    pose proof (fun e => probeCatch_outcome w e) as Hc.
    unfold tryCatch.
    destruct Ht as [[Hall Ht]|(Hall & e & k & He & Hk & _)].
    + rewrite Ht. simpl. intros Hr. injection Hr as <-. discriminate.
    + destruct (PreflightProbe.probeTry w calls) as [[r0|e1] calls1];
        simpl in He; [discriminate|].
      intros Hr. destruct (Hc e1 calls1) as [Hc1 _].
      rewrite Hr in Hc1. simpl in Hc1.
      destruct Hc1 as (Hok & _ & [(_ & Hre & _)|(Hm & Hre & Hcl & Hcls & Hmsg)]);
        intros Hreason; [rewrite Hre in Hreason; discriminate|].
      split; [exact Hcl|].
      unfold Preflight.looksLikeMissingBrowserBinary in Hm.
      unfold Preflight.classifyBrowserLaunchError,
        Preflight.looksLikeMissingBrowserBinary in Hcls.
      destruct (Preflight.textOf e1) as [text|]; [|discriminate].
      exists text. split; [exact Hmsg|].
      injection Hm as Hm. split; [exact Hm|].
      rewrite Hm in Hcls.
      destruct (test Preflight.connectivityRe text).
      * injection Hcls as <-. split; reflexivity.
      * destruct (test Preflight.runtimeRe text); injection Hcls as <-;
          split; discriminate.
  - unfold PreflightProbe.orThrow, bind, ret, throw.
    destruct (PreflightProbe.looksLikeMissingPlaywright e0) as [[|]|]; simpl;
      intros Hr; try discriminate.
    injection Hr as <-. discriminate.
Qed.

Lemma launch_failed_is_never_binary_witness :
  fst (PreflightProbe.playwrightPreflight probeWebkitCrash []) = Normal crashResult
  /\ In (PreflightProbe.classification crashResult) launchFailureClasses.
Proof.
  assert (H : fst (PreflightProbe.playwrightPreflight probeWebkitCrash [])
              = Normal crashResult) by (vm_compute; reflexivity).
  split; [exact H|].
  apply (@launch_failed_is_never_binary probeWebkitCrash [] crashResult H).
  reflexivity.
Defined.

(** X26. The probe rejects only with the import error, when that is not a
    missing-package error, or with the TypeError of converting an error that
    has no string form. *)
Theorem preflight_rejects_only (w : PreflightProbe.World)
    (calls : PreflightProbe.Calls) (e : JsValue) :
  fst (PreflightProbe.playwrightPreflight w calls) = Throw e ->
  (PreflightProbe.importPlaywright w = Rejects e
   /\ PreflightProbe.looksLikeMissingPlaywright e = Some false)
  \/ (exists e0,
        PreflightProbe.importPlaywright w = Rejects e0
        /\ Preflight.textOf e0 = None
        /\ e = PreflightProbe.conversionError w PreflightProbe.SiteImport)
  \/ (PreflightProbe.importPlaywright w = Resolves
      /\ engineReady w = false
      /\ e = PreflightProbe.conversionError w PreflightProbe.SiteProbe).
Proof.
  rewrite engineReady_unfold.
  unfold PreflightProbe.playwrightPreflight.
  destruct (PreflightProbe.importPlaywright w) as [|e0]; simpl resolved;
    cbn [andb].
  - pose proof (probeTry_outcome w calls) as Ht.
    pose proof (fun e => probeCatch_outcome w e) as Hc.
    unfold tryCatch.
    destruct Ht as [[Hall Ht]|(Hall & e1 & k & He & Hk & _)].
    + rewrite Ht. discriminate.
    + destruct (PreflightProbe.probeTry w calls) as [[r0|e2] calls1];
        simpl in He; [discriminate|].
      intros Hr. destruct (Hc e2 calls1) as [Hc1 _].
      rewrite Hr in Hc1. simpl in Hc1. destruct Hc1 as [-> _].
      right. right. auto.
  - unfold PreflightProbe.orThrow, bind, ret, throw,
      PreflightProbe.looksLikeMissingPlaywright.
    destruct (Preflight.textOf e0) as [text|] eqn:Et; simpl.
    + destruct (Js.strictEqStr (Js.optCode e0) "ERR_MODULE_NOT_FOUND"
                || test PreflightProbe.missingPlaywrightRe text) eqn:Em; simpl;
        intros Hr; [discriminate|].
      injection Hr as <-. left. rewrite Et, Em. auto.
    + intros Hr. injection Hr as <-. right. left. exists e0. auto.
Qed.

Lemma preflight_rejects_only_witness :
  fst (PreflightProbe.playwrightPreflight probeBrokenImport [])
  = Throw brokenPackage
  /\ PreflightProbe.looksLikeMissingPlaywright brokenPackage = Some false.
Proof.
  assert (H : fst (PreflightProbe.playwrightPreflight probeBrokenImport [])
              = Throw brokenPackage) by (vm_compute; reflexivity).
  split; [exact H|].
  destruct (@preflight_rejects_only probeBrokenImport [] brokenPackage H)
    as [[_ H2]|[(e0 & _ & _ & H3)|(H1 & _)]].
  - exact H2.
  - vm_compute in H3. discriminate.
  - discriminate.
Defined.

(** * Properties of the inline page *)

Section InlineFacts.

Import InlineHtml.

Lemma startsWith_spec (needle : jsstring) :
  forall s, startsWith needle s = true <-> exists after, s = needle ++ after.
Proof.
  induction needle as [|c needle IH]; intros s; simpl.
  - split; [intros _; exists s; reflexivity|reflexivity].
  - destruct s as [|x s].
    + split; [discriminate|intros [after H]; discriminate].
    + rewrite andb_true_iff, N.eqb_eq, IH. split.
      * intros [-> [after ->]]. exists after. reflexivity.
      * intros [after H]. injection H as -> ->. split; [reflexivity|].
        exists after. reflexivity.
Qed.

Lemma skipn_length_app (a b : jsstring) : skipn (List.length a) (a ++ b) = b.
Proof. induction a; simpl; auto. Qed.

Lemma splitAtFirst_first (needle : jsstring) :
  forall s before after,
    splitAtFirst needle s = Some (before, after) ->
    FirstOccurrence needle before after s.
Proof.
  induction s as [|x s IH]; intros before after H.
  - simpl in H. destruct (startsWith needle []) eqn:Es; [|discriminate].
    injection H as <- <-.
    destruct needle; [|simpl in Es; discriminate]. split.
    + reflexivity.
    + intros. simpl. lia.
  - simpl in H. destruct (startsWith needle (x :: s)) eqn:Es.
    + injection H as <- <-. apply startsWith_spec in Es.
      destruct Es as [suf Hs]. split.
      * simpl app. rewrite Hs, skipn_length_app. reflexivity.
      * intros. simpl. lia.
    + destruct (splitAtFirst needle s) as [[b a]|] eqn:E; [|discriminate].
      injection H as <- <-. destruct (IH b a eq_refl) as [Hs Hmin].
      split.
      * simpl. rewrite Hs. reflexivity.
      * intros before' after' H'. destruct before' as [|y before'].
        -- exfalso. simpl in H'.
           assert (startsWith needle (x :: s) = true).
           { apply startsWith_spec. exists after'. exact H'. }
           congruence.
        -- simpl in H'. injection H' as -> H'. simpl.
           specialize (Hmin before' after' H'). lia.
Qed.

Lemma splitAtFirst_none (needle : jsstring) :
  forall s, splitAtFirst needle s = None -> ~ Occurs needle s.
Proof.
  induction s as [|x s IH]; intros H [before [after Hs]].
  - simpl in H. destruct (startsWith needle []) eqn:Es; [discriminate|].
    destruct before; [|discriminate]. simpl in Hs.
    assert (startsWith needle [] = true).
    { apply startsWith_spec. exists after. exact Hs. }
    congruence.
  - simpl in H. destruct (startsWith needle (x :: s)) eqn:Es; [discriminate|].
    destruct (splitAtFirst needle s) as [[b a]|] eqn:E; [discriminate|].
    destruct before as [|y before].
    + simpl in Hs.
      assert (startsWith needle (x :: s) = true).
      { apply startsWith_spec. exists after. exact Hs. }
      congruence.
    + simpl in Hs. injection Hs as -> Hs.
      apply (IH eq_refl). exists before, after. exact Hs.
Qed.

Lemma firstOccurrence_unique (needle b1 a1 b2 a2 s : jsstring) :
  FirstOccurrence needle b1 a1 s -> FirstOccurrence needle b2 a2 s ->
  b1 = b2 /\ a1 = a2.
Proof.
  intros [H1 M1] [H2 M2].
  assert (Hlen : List.length b1 = List.length b2).
  { specialize (M1 b2 a2 H2). specialize (M2 b1 a1 H1). lia. }
  rewrite H1 in H2.
  assert (Hb : b1 = b2).
  { clear -Hlen H2. revert b2 Hlen H2.
    induction b1 as [|x b1 IH]; intros [|y b2] Hlen H2; simpl in *;
      try discriminate; [reflexivity|].
    injection H2 as -> H2. f_equal. apply IH; [lia|exact H2]. }
  split; [exact Hb|]. subst b2.
  apply app_inv_head in H2. apply app_inv_head in H2. exact H2.
Qed.

Lemma getSubstitution_plain (matched before after template : jsstring) :
  ~ In 36%N template ->
  getSubstitution matched before after template = template.
Proof.
  induction template as [|c rest IH]; intros H; [reflexivity|].
  simpl. destruct (c =? 36)%N eqn:E.
  - apply N.eqb_eq in E. exfalso. apply H. left. auto.
  - f_equal. apply IH. intros Hin. apply H. right. exact Hin.
Qed.

Lemma getSubstitution_app_plain (matched before after t1 t2 : jsstring) :
  ~ In 36%N t1 ->
  getSubstitution matched before after (t1 ++ t2)
  = t1 ++ getSubstitution matched before after t2.
Proof.
  induction t1 as [|c rest IH]; intros H; [reflexivity|].
  simpl. destruct (c =? 36)%N eqn:E.
  - apply N.eqb_eq in E. exfalso. apply H. left. auto.
  - f_equal. apply IH. intros Hin. apply H. right. exact Hin.
Qed.

Lemma stripTrailingSlash_incl (s : jsstring) (c : N) :
  In c (stripTrailingSlash s) -> In c s.
Proof.
  induction s as [|x s IH]; [auto|].
  simpl. destruct s as [|y s].
  - destruct (x =? 47)%N; simpl; auto.
  - intros [H|H]; [left; exact H|right; apply IH, H].
Qed.

Lemma stripTrailingSlash_app (a b : jsstring) :
  b <> [] -> stripTrailingSlash (a ++ b) = a ++ stripTrailingSlash b.
Proof.
  intros Hb. induction a as [|x a IH]; [reflexivity|].
  simpl. destruct (a ++ b) as [|y r] eqn:E.
  - destruct a; [simpl in E; contradiction|discriminate].
  - rewrite IH. reflexivity.
Qed.

Lemma headTag_plain : ~ In 36%N headTag.
Proof.
  vm_compute. intros H.
  repeat (destruct H as [H|H]; [discriminate|]). exact H.
Qed.

Lemma baseTag_plain (href : jsstring) :
  ~ In 36%N href -> ~ In 36%N (baseTag href).
Proof.
  intros Hh H. unfold baseTag in H.
  rewrite !in_app_iff in H.
  destruct H as [H|[H|[H|[H|H]]]]; try (apply Hh, H);
    vm_compute in H;
    repeat (destruct H as [H|H]; [discriminate|]); exact H.
Qed.

Lemma baseHref_plain (rootHref : jsstring) :
  ~ In 36%N rootHref -> ~ In 36%N (baseHref rootHref).
Proof.
  intros Hr H. unfold baseHref in H. rewrite in_app_iff in H.
  destruct H as [H|H]; [apply Hr, stripTrailingSlash_incl, H|].
  vm_compute in H. destruct H as [H|[]]. discriminate.
Qed.

End InlineFacts.

(** X27. For an index page in which [<head>] does not occur,
    [buildInlineHtml] puts the base tag in front of the page. *)
Theorem buildInlineHtml_without_head (rootHref html : jsstring) :
  ~ Occurs InlineHtml.headTag html ->
  InlineHtml.buildInlineHtml rootHref html
  = InlineHtml.baseTag (InlineHtml.baseHref rootHref) ++ html.
Proof.
  intros Hno. unfold InlineHtml.buildInlineHtml, InlineHtml.includes.
  destruct (InlineHtml.splitAtFirst InlineHtml.headTag html) as [[b a]|] eqn:E;
    [|reflexivity].
  exfalso. apply Hno. destruct (splitAtFirst_first _ _ E) as [Hs _].
  exists b, a. exact Hs.
Qed.

Lemma buildInlineHtml_without_head_witness :
  InlineHtml.buildInlineHtml exampleRoot pageWithoutHead
  = InlineHtml.baseTag (cu "file:///repo/") ++ pageWithoutHead.
Proof.
  rewrite (@buildInlineHtml_without_head exampleRoot pageWithoutHead).
  - reflexivity.
  - apply splitAtFirst_none. vm_compute. reflexivity.
Defined.

(** X28. Otherwise, as long as the location of the repository has no dollar
    sign, [buildInlineHtml] inserts the base tag right after the first
    [<head>] and leaves the rest of the page as it is. *)
Theorem buildInlineHtml_inserts_after_first_head
    (rootHref html before after : jsstring) :
  ~ In 36%N rootHref ->
  FirstOccurrence InlineHtml.headTag before after html ->
  InlineHtml.buildInlineHtml rootHref html
  = before ++ InlineHtml.headTag
    ++ InlineHtml.baseTag (InlineHtml.baseHref rootHref) ++ after.
Proof.
  intros Hplain Hfirst.
  unfold InlineHtml.buildInlineHtml, InlineHtml.includes, InlineHtml.replace.
  destruct (InlineHtml.splitAtFirst InlineHtml.headTag html) as [[b a]|] eqn:E.
  - apply splitAtFirst_first in E.
    destruct (firstOccurrence_unique E Hfirst) as [-> ->].
    rewrite getSubstitution_plain.
    + rewrite <- !app_assoc. reflexivity.
    + intros H. apply in_app_iff in H. destruct H as [H|H].
      * exact (headTag_plain H).
      * exact (@baseTag_plain _ (@baseHref_plain _ Hplain) H).
  - exfalso. apply (@splitAtFirst_none _ _ E).
    destruct Hfirst as [Hs _]. exists before, after. exact Hs.
Qed.

Lemma buildInlineHtml_inserts_after_first_head_witness :
  InlineHtml.buildInlineHtml exampleRoot pageWithHead
  = cu "<!doctype html><html><head>"
    ++ InlineHtml.baseTag (cu "file:///repo/")
    ++ cu "<title>t</title></head><body></body></html>".
Proof.
  rewrite (@buildInlineHtml_inserts_after_first_head exampleRoot pageWithHead
             (cu "<!doctype html><html>")
             (cu "<title>t</title></head><body></body></html>")).
  - reflexivity.
  - vm_compute. intros H.
    repeat (destruct H as [H|H]; [discriminate|]). exact H.
  - apply splitAtFirst_first. vm_compute. reflexivity.
Defined.

(** X29. A dollar sign followed by an ampersand in the location of the
    repository is not copied into the base tag: [replace] expands it to the
    matched text [<head>]. *)
Theorem dollar_ampersand_in_root_is_expanded
    (a b html before after : jsstring) :
  ~ In 36%N a -> ~ In 36%N b ->
  FirstOccurrence InlineHtml.headTag before after html ->
  InlineHtml.buildInlineHtml (a ++ [36%N; 38%N] ++ b) html
  = before ++ InlineHtml.headTag
    ++ InlineHtml.baseTag
         (a ++ InlineHtml.headTag ++ InlineHtml.baseHref b)
    ++ after.
Proof.
  intros Ha Hb Hfirst.
  unfold InlineHtml.buildInlineHtml, InlineHtml.includes, InlineHtml.replace.
  destruct (InlineHtml.splitAtFirst InlineHtml.headTag html) as [[b0 a0]|] eqn:E.
  2:{ exfalso. apply (@splitAtFirst_none _ _ E).
      destruct Hfirst as [Hs _]. exists before, after. exact Hs. }
  apply splitAtFirst_first in E.
  destruct (firstOccurrence_unique E Hfirst) as [-> ->].
  f_equal.
  assert (Hstrip :
            InlineHtml.stripTrailingSlash (a ++ [36%N; 38%N] ++ b)
            = a ++ [36%N; 38%N] ++ InlineHtml.stripTrailingSlash b).
  { rewrite stripTrailingSlash_app by discriminate. f_equal.
    destruct b as [|x rest]; [reflexivity|].
    change ([36%N; 38%N] ++ x :: rest) with ([36%N; 38%N] ++ (x :: rest)).
    rewrite stripTrailingSlash_app by discriminate. reflexivity. }
  unfold InlineHtml.baseHref. rewrite Hstrip.
  unfold InlineHtml.baseTag.
  assert (Hrest : ~ In 36%N (InlineHtml.stripTrailingSlash b
                             ++ cu "/" ++ [34%N] ++ cu ">")).
  { intros H. rewrite !in_app_iff in H.
    destruct H as [H|[H|[H|H]]].
    - apply Hb, stripTrailingSlash_incl, H.
    - vm_compute in H. destruct H as [H|[]]. discriminate.
    - destruct H as [H|[]]. discriminate.
    - vm_compute in H. destruct H as [H|[]]. discriminate. }
  assert (Hsub :
            InlineHtml.getSubstitution InlineHtml.headTag before after
              (InlineHtml.headTag ++ cu "<base href=" ++ [34%N] ++ a
               ++ 36%N :: 38%N
                  :: (InlineHtml.stripTrailingSlash b
                      ++ cu "/" ++ [34%N] ++ cu ">"))
            = InlineHtml.headTag ++ cu "<base href=" ++ [34%N] ++ a
              ++ InlineHtml.headTag
              ++ InlineHtml.stripTrailingSlash b
              ++ cu "/" ++ [34%N] ++ cu ">").
  { rewrite getSubstitution_app_plain by exact headTag_plain. f_equal.
    rewrite getSubstitution_app_plain.
    2:{ vm_compute. intros H.
        repeat (destruct H as [H|H]; [discriminate|]). exact H. }
    f_equal.
    rewrite getSubstitution_app_plain.
    2:{ intros [H|[]]. discriminate. }
    f_equal.
    rewrite getSubstitution_app_plain by exact Ha. f_equal.
    cbn [InlineHtml.getSubstitution N.eqb Pos.eqb]. f_equal.
    apply getSubstitution_plain. exact Hrest. }
  replace (InlineHtml.headTag ++ cu "<base href=" ++ [34%N]
           ++ ((a ++ [36%N; 38%N] ++ InlineHtml.stripTrailingSlash b)
               ++ cu "/") ++ [34%N] ++ cu ">")
    with (InlineHtml.headTag ++ cu "<base href=" ++ [34%N] ++ a
          ++ 36%N :: 38%N
             :: (InlineHtml.stripTrailingSlash b
                 ++ cu "/" ++ [34%N] ++ cu ">"))
    by (repeat rewrite <- app_assoc; reflexivity).
  rewrite Hsub. repeat rewrite <- app_assoc. reflexivity.
Qed.

Lemma dollar_ampersand_in_root_is_expanded_witness :
  InlineHtml.buildInlineHtml (cu "file:///tmp/a$&b") pageWithHead
  = cu "<!doctype html><html><head>"
    ++ InlineHtml.baseTag (cu "file:///tmp/a<head>b/")
    ++ cu "<title>t</title></head><body></body></html>".
Proof.
  refine (@dollar_ampersand_in_root_is_expanded (cu "file:///tmp/a") (cu "b")
            pageWithHead (cu "<!doctype html><html>")
            (cu "<title>t</title></head><body></body></html>") _ _ _).
  - vm_compute. intros H.
    repeat (destruct H as [H|H]; [discriminate|]). exact H.
  - vm_compute. intros H.
    repeat (destruct H as [H|H]; [discriminate|]). exact H.
  - apply splitAtFirst_first. vm_compute. reflexivity.
Defined.
